(** * The Batch task-type driver of cms/service/TaskType.py

    A shallow embedding of [white_diff_canonicalize], [white_diff] and of the
    [BatchTaskType] driver ([compile], [execute_single], [execute] and the
    safe-sandbox helpers), followed by the properties of the judging core.

    Python 2 byte strings ([str]) are lists of 8-bit characters, text
    ([unicode]) is a list of code points.  Everything the driver consults
    outside this module (sandbox, store, session, catalogue, interpreter
    built-ins on text) is gathered in a [World] record. *)

From Stdlib Require Import List Ascii String ZArith QArith Lia Bool Arith.
From Stdlib Require Import Relations.Relation_Operators.
From Stdlib Require DecimalString.
Import ListNotations.

Local Close Scope Q_scope.
Local Open Scope nat_scope.
Local Open Scope list_scope.
Local Open Scope char_scope.

(** ** Byte strings *)

Module PyStr.

Definition pystr := list ascii.

Definition str (s : string) : pystr := list_ascii_of_string s.

Definition nl : ascii := "010".
Definition tab : ascii := "009".
Definition space : ascii := " ".

Fixpoint eqb (a b : pystr) : bool :=
  match a, b with
  | [], [] => true
  | x :: a', y :: b' => Ascii.eqb x y && eqb a' b'
  | _, _ => false
  end.

Definition is_empty (s : pystr) : bool :=
  match s with [] => true | _ :: _ => false end.

Fixpoint mem (c : ascii) (chars : pystr) : bool :=
  match chars with
  | [] => false
  | x :: r => Ascii.eqb c x || mem c r
  end.

(** [s.startswith(p)] *)
Fixpoint prefixb (p s : pystr) : bool :=
  match p, s with
  | [], _ => true
  | x :: p', y :: s' => Ascii.eqb x y && prefixb p' s'
  | _ :: _, [] => false
  end.

(** [s.endswith(p)] *)
Definition endswith (p s : pystr) : bool := prefixb (rev p) (rev s).

(** [s.replace(old, new)] for a non-empty [old]: the occurrences of [old]
    are replaced from left to right, without overlap.  [skip] counts the
    characters of a matched occurrence that are still to be dropped. *)
Fixpoint replace_go (old new : pystr) (skip : nat) (s : pystr) : pystr :=
  match s with
  | [] => []
  | c :: r =>
      match skip with
      | S k => replace_go old new k r
      | O =>
          if prefixb old s
          then new ++ replace_go old new (List.length old - 1) r
          else c :: replace_go old new 0 r
      end
  end.

Definition replace (old new s : pystr) : pystr := replace_go old new 0 s.

(** [s.split(sep)] for a non-empty [sep]; the result always has a last
    piece, possibly empty. *)
Fixpoint split_go (sep : pystr) (skip : nat) (s : pystr) : list pystr :=
  match s with
  | [] => [[]]
  | c :: r =>
      match skip with
      | S k => split_go sep k r
      | O =>
          if prefixb sep s
          then [] :: split_go sep (List.length sep - 1) r
          else match split_go sep 0 r with
               | p :: ps => (c :: p) :: ps
               | [] => [[c]]
               end
      end
  end.

Definition split (sep s : pystr) : list pystr := split_go sep 0 s.

(** [sep.join(l)] *)
Fixpoint join (sep : pystr) (l : list pystr) : pystr :=
  match l with
  | [] => []
  | [x] => x
  | x :: r => x ++ sep ++ join sep r
  end.

(** [s.lstrip(chars)], [s.rstrip(chars)], [s.strip(chars)] *)
Fixpoint lstrip (chars s : pystr) : pystr :=
  match s with
  | [] => []
  | c :: r => if mem c chars then lstrip chars r else s
  end.

Definition rstrip (chars s : pystr) : pystr := rev (lstrip chars (rev s)).

Definition strip (chars s : pystr) : pystr := rstrip chars (lstrip chars s).

(** [s.strip()]: the whitespace of the "C" locale. *)
Definition ascii_whitespace : pystr :=
  [" "; "009"; "010"; "011"; "012"; "013"].

Definition strip_ws (s : pystr) : pystr := strip ascii_whitespace s.

(** ["%d" % n] *)
Definition of_int (n : Z) : pystr :=
  str (DecimalString.NilZero.string_of_int (Z.to_int n)).

End PyStr.

Import PyStr.

(** ** The whitespace-tolerant comparator *)

(** [WHITES = " \t\n"] *)
Definition WHITES : pystr := [space; tab; nl].

(** [WHITES[0]] and the characters of [WHITES[1:]], each a one-character
    string. *)
Definition WHITES_0 : pystr := firstn 1 WHITES.
Definition WHITES_from_1 : list pystr := map (fun c => [c]) (skipn 1 WHITES).

Definition white_diff_canonicalize (s : pystr) : pystr :=
  let s := fold_left (fun s c => replace c WHITES_0 s) WHITES_from_1 s in
  join WHITES_0 (filter (fun x => negb (is_empty x)) (split WHITES_0 s)).

(** A file object open for reading is the text that is still to be read;
    [readline] returns the next line, with its newline, and the rest.  At
    the end of the file it returns the empty string. *)
Fixpoint readline (f : pystr) : pystr * pystr :=
  match f with
  | [] => ([], [])
  | c :: r =>
      if Ascii.eqb c nl then ([c], r)
      else let (l, r') := readline r in (c :: l, r')
  end.

(** The [while True] loop of [white_diff]; [None] when [fuel] iterations
    did not reach a [return]. *)
Fixpoint white_diff_loop (fuel : nat) (output res : pystr) : option bool :=
  match fuel with
  | O => None
  | S fuel' =>
      let (lout, output') := readline output in
      let (lres, res') := readline res in
      if is_empty lres && is_empty lout then Some true
      else if is_empty lres || is_empty lout then
        let lout := strip WHITES lout in
        let lres := strip WHITES lres in
        if negb (is_empty lout) || negb (is_empty lres) then Some false
        else white_diff_loop fuel' output' res'
      else
        let lout := white_diff_canonicalize lout in
        let lres := white_diff_canonicalize lres in
        if negb (eqb lout lres) then Some false
        else white_diff_loop fuel' output' res'
  end.

(** Each iteration consumes a line of at least one file, so the loop
    returns within [length output + length res + 1] iterations
    ([white_diff_loop_returns] below). *)
Definition white_diff_fuel (output res : pystr) : nat :=
  S (List.length output + List.length res).

Definition white_diff (output res : pystr) : bool :=
  match white_diff_loop (white_diff_fuel output res) output res with
  | Some b => b
  | None => false
  end.

(** *** Vocabulary for the comparator's properties *)

Definition is_white (c : ascii) : bool := mem c WHITES.

Definition space_or_tab (c : ascii) : Prop := c = space \/ c = tab.

(** The words of a line: what [white_diff_canonicalize] joins. *)
Definition whiten (s : pystr) : pystr :=
  fold_left (fun s c => replace c WHITES_0 s) WHITES_from_1 s.

Definition tokens (s : pystr) : list pystr :=
  filter (fun x => negb (is_empty x)) (split WHITES_0 (whiten s)).

(** The words of every line of a file, and the same without the blank
    lines at the end: two files compare equal when these agree. *)
Definition line_tokens (s : pystr) : list (list pystr) :=
  map tokens (split [nl] s).

Definition cons_unless_blank (t : list pystr) (n : list (list pystr))
  : list (list pystr) :=
  match t, n with
  | [], [] => []
  | _, _ => t :: n
  end.

Fixpoint drop_trailing_blank (l : list (list pystr)) : list (list pystr) :=
  match l with
  | [] => []
  | t :: r => cons_unless_blank t (drop_trailing_blank r)
  end.

Definition normal_form (s : pystr) : list (list pystr) :=
  drop_trailing_blank (line_tokens s).

(** A position between [a] and [b] where a blank can be inserted or removed
    without splitting a word or merging two: an end of the text, or next to
    a space, a tab or a newline. *)
Definition at_word_boundary (a b : pystr) : Prop :=
  a = [] \/ b = [] \/
  (exists a' w, a = a' ++ [w] /\ is_white w = true) \/
  (exists w b', b = w :: b' /\ is_white w = true).

(** One edit of the whitespace of a file: a space or a tab inserted or
    removed at a word boundary, or a newline appended at the end. *)
Inductive ws_step : pystr -> pystr -> Prop :=
| ws_insert (a b : pystr) (c : ascii) :
    space_or_tab c -> at_word_boundary a b -> ws_step (a ++ b) (a ++ c :: b)
| ws_remove (a b : pystr) (c : ascii) :
    space_or_tab c -> at_word_boundary a b -> ws_step (a ++ c :: b) (a ++ b)
| ws_append_newline (s : pystr) :
    ws_step s (s ++ [nl]).

Definition ws_variant : pystr -> pystr -> Prop := clos_refl_trans pystr ws_step.

Definition whiten_char (x : ascii) : ascii :=
  if Ascii.eqb nl x then space else if Ascii.eqb tab x then space else x.

(** ** Text, floats and the other values the driver handles *)

(** [unicode] text: the list of its code points. *)
Definition ustr := list N.

Definition u_of_str (s : pystr) : ustr := map N_of_ascii s.

(** A value stored where the code puts either a [str] or a [unicode]. *)
Inductive pytext :=
| PStr (s : pystr)
| PUni (u : ustr).

(** A [float], as the number it stands for. *)
Inductive pyfloat :=
| Finite (q : Q)
| Infinite (negative : bool)
| NaN.


Module Utf8.

(** [s.decode("utf-8")] of a [str]: [None] stands for [UnicodeDecodeError]. *)
Definition continuation (c : ascii) : option N :=
  let v := N_of_ascii c in
  if ((128 <=? v) && (v <=? 191))%N then Some (v - 128)%N else None.

Fixpoint decode (s : pystr) : option ustr :=
  match s with
  | [] => Some []
  | b0 :: r =>
      let v := N_of_ascii b0 in
      if (v <? 128)%N then option_map (cons v) (decode r)
      else if ((194 <=? v) && (v <=? 223))%N then
        match r with
        | b1 :: r1 =>
            match continuation b1 with
            | Some c1 =>
                option_map (cons ((v - 192) * 64 + c1)%N) (decode r1)
            | None => None
            end
        | [] => None
        end
      else if ((224 <=? v) && (v <=? 239))%N then
        match r with
        | b1 :: b2 :: r2 =>
            match continuation b1, continuation b2 with
            | Some c1, Some c2 =>
                if ((v =? 224) && (c1 <? 32))%N then None
                else option_map
                       (cons ((v - 224) * 4096 + c1 * 64 + c2)%N) (decode r2)
            | _, _ => None
            end
        | _ => None
        end
      else if ((240 <=? v) && (v <=? 244))%N then
        match r with
        | b1 :: b2 :: b3 :: r3 =>
            match continuation b1, continuation b2, continuation b3 with
            | Some c1, Some c2, Some c3 =>
                if ((v =? 240) && (c1 <? 16))%N then None
                else if ((v =? 244) && (16 <=? c1))%N then None
                else option_map
                       (cons ((v - 240) * 262144 + c1 * 4096 + c2 * 64 + c3)%N)
                       (decode r3)
            | _, _, _ => None
            end
        | _ => None
        end
      else None
  end.

End Utf8.

(** [os.path.join(a, b)] *)
Definition os_path_join (a b : pystr) : pystr :=
  if prefixb (str "/") b then b
  else if is_empty a || endswith (str "/") a then a ++ b
  else a ++ str "/" ++ b.

(** ** Data model *)

Definition digest := pystr.

(** A [dict] with string keys; the order of the list is the order in which
    [keys()] enumerates it. *)
Definition dict (V : Type) := list (pystr * V).

Fixpoint dict_get {V : Type} (d : dict V) (k : pystr) : option V :=
  match d with
  | [] => None
  | (k', v) :: r => if eqb k k' then Some v else dict_get r k
  end.

Definition dict_set {V : Type} (d : dict V) (k : pystr) (v : V) : dict V :=
  match dict_get d k with
  | Some _ => map (fun kv => if eqb k (fst kv) then (k, v) else kv) d
  | None => d ++ [(k, v)]
  end.

Definition dict_keys {V : Type} (d : dict V) : list pystr := map fst d.

Record Testcase := {
  tc_input : digest;
  tc_output : digest
}.

Record Task := {
  testcases : list Testcase;
  managers : dict digest;
  time_limit : Q;
  memory_limit : Z
}.

Record Evaluation := {
  ev_num : nat;
  ev_outcome : option pyfloat;
  ev_text : option pytext
}.

Record Executable := {
  ex_digest : digest;
  ex_filename : pystr;
  ex_submission : Z
}.

Record Submission := {
  sub_id : Z;
  task : Task;
  files : dict digest;
  executables : dict digest;
  evaluations : list Evaluation;
  compilation_outcome : option pystr;
  compilation_text : option ustr
}.

(** What [session.add] stages.  An [Evaluation] is staged by reference:
    the object is the one in [submission.evaluations], at that position. *)
Inductive Staged :=
| StagedExecutable (e : Executable)
| StagedEvaluation (position : nat).

(** ** The sandbox, as the driver sees it *)

(** Exit statuses: the six constants of the sandbox interface and, for the
    branches "shouldn't arrive here", any other value. *)
Inductive exit_status :=
| EXIT_OK
| EXIT_TIMEOUT
| EXIT_SIGNAL
| EXIT_SANDBOX_ERROR
| EXIT_SYSCALL
| EXIT_FILE_ACCESS
| EXIT_UNLISTED.

Definition exit_status_eqb (a b : exit_status) : bool :=
  match a, b with
  | EXIT_OK, EXIT_OK | EXIT_TIMEOUT, EXIT_TIMEOUT | EXIT_SIGNAL, EXIT_SIGNAL
  | EXIT_SANDBOX_ERROR, EXIT_SANDBOX_ERROR | EXIT_SYSCALL, EXIT_SYSCALL
  | EXIT_FILE_ACCESS, EXIT_FILE_ACCESS | EXIT_UNLISTED, EXIT_UNLISTED => true
  | _, _ => false
  end.

(** The first [readline()] of a file opened with [codecs.open(.., "utf-8")]. *)
Inductive text_line :=
| Line (u : ustr)
| UnicodeDecodeError (repr : pystr).

(** How one sandbox answers.  An operation that can raise [IOError] or
    [OSError] answers [None] (or [false]) when it does; [run_execute]
    answers [Some e] when [execute] raises, [e] being the [repr] of the
    exception.  [run_codecs_open] is the file of that path on the host:
    [None] when it cannot be opened. *)
Record SandboxRun := {
  run_path : pystr;
  run_relative_path : pystr -> pystr;
  run_create_file_from_storage : pystr -> digest -> bool -> bool;
  run_execute : list pystr -> option pystr;
  run_exit_status : exit_status;
  run_exit_code : Z;
  run_killing_signal : Z;
  run_stats : pystr;
  run_file_exists : pystr -> bool;
  run_get_file : pystr -> option pystr;
  run_get_file_to_string : pystr -> nat -> option pystr;
  run_get_file_to_storage : pystr -> pystr -> option digest;
  run_delete : bool;
  run_codecs_open : pystr -> option text_line
}.

Record Sandbox := {
  sb_id : nat;
  sb_run : SandboxRun
}.

(** Values assigned to the attributes of a sandbox. *)
Inductive Value :=
| VNone
| VBool (b : bool)
| VInt (n : Z)
| VReal (q : Q)
| VStr (s : pystr)
| VList (l : list pystr).

Inductive SandboxCall :=
| SetAttr (name : string) (v : Value)
| ExtendAttr (name : string) (l : list pystr)
| SetEnv (key value : pystr)
| CreateFileFromStorage (name : pystr) (d : digest) (executable : bool)
| Execute (command : list pystr)
| GetFileToString (name : pystr) (maxlen : nat)
| GetFile (name : pystr)
| GetFileToStorage (name description : pystr)
| Delete.

Inductive level := INFO | WARNING | ERROR.

(** What the driver does to its collaborators, in order: the construction
    of a sandbox, an operation on the sandbox [id] ([raised] tells whether
    it raised [IOError] or [OSError]), a message to the logger. *)
Inductive Event :=
| New (id : nat) (raised : bool)
| Call (id : nat) (c : SandboxCall) (raised : bool)
| Log (l : level) (message : pytext).

(** Everything outside the module: the configuration flag, the verdict of
    [submission.verify_source], the sandboxes ([new_sandbox n] is the [n]-th
    construction [Sandbox(service)], [inr e] when it raises), the two
    functions of cms.service.Utils, and [strip()] and [float()] on text. *)
Record World := {
  keep_sandbox : bool;
  verify_source : bool * option pystr;
  new_sandbox : nat -> SandboxRun + pystr;
  get_compilation_command : pystr -> pystr -> pystr -> list pystr;
  filter_ansi_escape : ustr -> ustr;
  unicode_strip : ustr -> ustr;
  float_of_text : ustr -> option pyfloat
}.

(** ** The driver *)

Inductive exn :=
| JobException
| TypeError
| KeyError
| IndexError
| AttributeError
| IOError.

Inductive result (A : Type) :=
| Return (a : A)
| Raise (e : exn).

Arguments Return {A} a.
Arguments Raise {A} e.

(** A [BatchTaskType] instance with what it reaches: the submission, the
    records staged in the session, [self.sandbox] and
    [self.executable_filename] when these attributes exist, and the record
    of what it did. *)
Record Driver := {
  submission : Submission;
  session : list Staged;
  sandbox : option Sandbox;
  executable_filename : option pystr;
  constructed : nat;
  trace : list Event
}.

Definition M (A : Type) : Type := Driver -> result A * Driver.

Definition ret {A : Type} (a : A) : M A := fun d => (Return a, d).

Definition raise {A : Type} (e : exn) : M A := fun d => (Raise e, d).

Definition bind {A B : Type} (m : M A) (k : A -> M B) : M B :=
  fun d =>
    match m d with
    | (Return a, d') => k a d'
    | (Raise e, d') => (Raise e, d')
    end.

Notation "x <- m ;; k" := (bind m (fun x => k))
  (at level 61, m at next level, right associativity).
Notation "m ;; k" := (bind m (fun _ => k))
  (at level 61, right associativity).

Definition get : M Driver := fun d => (Return d, d).

Definition modify (f : Driver -> Driver) : M unit := fun d => (Return tt, f d).

Definition of_option {A : Type} (e : exn) (o : option A) : M A :=
  match o with
  | Some a => ret a
  | None => raise e
  end.

Definition with_submission (f : Submission -> Submission) (d : Driver) : Driver :=
  {| submission := f (submission d);
     session := session d;
     sandbox := sandbox d;
     executable_filename := executable_filename d;
     constructed := constructed d;
     trace := trace d |}.

Definition with_session (f : list Staged -> list Staged) (d : Driver) : Driver :=
  {| submission := submission d;
     session := f (session d);
     sandbox := sandbox d;
     executable_filename := executable_filename d;
     constructed := constructed d;
     trace := trace d |}.

Definition with_sandbox (s : Sandbox) (d : Driver) : Driver :=
  {| submission := submission d;
     session := session d;
     sandbox := Some s;
     executable_filename := executable_filename d;
     constructed := constructed d;
     trace := trace d |}.

Definition with_executable_filename (n : pystr) (d : Driver) : Driver :=
  {| submission := submission d;
     session := session d;
     sandbox := sandbox d;
     executable_filename := Some n;
     constructed := constructed d;
     trace := trace d |}.

Definition with_constructed (n : nat) (d : Driver) : Driver :=
  {| submission := submission d;
     session := session d;
     sandbox := sandbox d;
     executable_filename := executable_filename d;
     constructed := n;
     trace := trace d |}.

Definition with_event (e : Event) (d : Driver) : Driver :=
  {| submission := submission d;
     session := session d;
     sandbox := sandbox d;
     executable_filename := executable_filename d;
     constructed := constructed d;
     trace := trace d ++ [e] |}.

Definition set_compilation_outcome (o : pystr) (s : Submission) : Submission :=
  {| sub_id := sub_id s;
     task := task s;
     files := files s;
     executables := executables s;
     evaluations := evaluations s;
     compilation_outcome := Some o;
     compilation_text := compilation_text s |}.

Definition set_compilation_text (t : ustr) (s : Submission) : Submission :=
  {| sub_id := sub_id s;
     task := task s;
     files := files s;
     executables := executables s;
     evaluations := evaluations s;
     compilation_outcome := compilation_outcome s;
     compilation_text := Some t |}.

Definition set_evaluations (l : list Evaluation) (s : Submission) : Submission :=
  {| sub_id := sub_id s;
     task := task s;
     files := files s;
     executables := executables s;
     evaluations := l;
     compilation_outcome := compilation_outcome s;
     compilation_text := compilation_text s |}.

Definition set_executables (l : dict digest) (s : Submission) : Submission :=
  {| sub_id := sub_id s;
     task := task s;
     files := files s;
     executables := l;
     evaluations := evaluations s;
     compilation_outcome := compilation_outcome s;
     compilation_text := compilation_text s |}.

(** [l[i] = f(l[i])]; [None] stands for [IndexError]. *)
Fixpoint update_nth {A : Type} (i : nat) (f : A -> A) (l : list A)
  : option (list A) :=
  match l, i with
  | [], _ => None
  | x :: r, O => Some (f x :: r)
  | x :: r, S j => option_map (cons x) (update_nth j f r)
  end.

Definition set_text (t : pytext) (e : Evaluation) : Evaluation :=
  {| ev_num := ev_num e; ev_outcome := ev_outcome e; ev_text := Some t |}.

Definition set_outcome (o : pyfloat) (e : Evaluation) : Evaluation :=
  {| ev_num := ev_num e; ev_outcome := Some o; ev_text := ev_text e |}.

(** Modelled from the spec: the record classes [Executable] and [Evaluation]
    of cms.db.SQLAlchemyAll, which are not part of this module.  A record
    built with [submission=...] is linked to that submission: an Executable
    becomes the submission's executable of that filename, an Evaluation is
    appended to the submission's ordered list of evaluations. *)
Definition link_executable (e : Executable) (s : Submission) : Submission :=
  set_executables (dict_set (executables s) (ex_filename e) (ex_digest e)) s.

Definition link_evaluation (e : Evaluation) (s : Submission) : Submission :=
  set_evaluations (evaluations s ++ [e]) s.

Section Driver.

Variable w : World.

Definition emit (e : Event) : M unit := modify (with_event e).

(** [with async_lock: logger.<level>(message)]; the driver is sequential,
    the lock is always free. *)
Definition log (l : level) (message : pytext) : M unit := emit (Log l message).

Definition log_str (l : level) (message : pystr) : M unit := log l (PStr message).

(** [self.sandbox]: [AttributeError] while no sandbox was ever created. *)
Definition self_sandbox : M Sandbox :=
  d <- get ;; of_option AttributeError (sandbox d).

(** An operation on [self.sandbox]; [raised] reads in the sandbox's answers
    whether it raises. *)
Definition call (c : SandboxCall) (raised : SandboxRun -> bool) : M SandboxRun :=
  s <- self_sandbox ;;
  emit (Call (sb_id s) c (raised (sb_run s))) ;;
  ret (sb_run s).

Definition never (_ : SandboxRun) : bool := false.

Definition is_none {A : Type} (o : option A) : bool :=
  match o with Some _ => false | None => true end.

Definition is_some {A : Type} (o : option A) : bool := negb (is_none o).

Definition set_attr (name : string) (v : Value) : M unit :=
  call (SetAttr name v) never ;; ret tt.

Definition extend_attr (name : string) (l : list pystr) : M unit :=
  call (ExtendAttr name l) never ;; ret tt.

Definition set_env (key value : pystr) : M unit :=
  call (SetEnv key value) never ;; ret tt.

Definition safe_delete_sandbox : M unit :=
  d <- get ;;
  match sandbox d with
  | Some s =>
      if negb (keep_sandbox w) then
        emit (Call (sb_id s) Delete (negb (run_delete (sb_run s)))) ;;
        if run_delete (sb_run s) then ret tt
        else log_str WARNING (str "Couldn't delete sandbox")
      else ret tt
  | None => ret tt
  end.

Definition finish_compilation (success compilation_success : bool)
    (text : pystr) : M bool :=
  safe_delete_sandbox ;;
  if negb success then ret false
  else
    modify (with_submission
              (set_compilation_outcome
                 (if compilation_success then str "ok" else str "fail"))) ;;
    match Utf8.decode text with
    | Some u =>
        modify (with_submission (set_compilation_text u)) ;;
        ret true
    | None =>
        (* [self.submission.compilation_text("Cannot decode ...")] calls the
           value of the attribute, [None] or a text: neither is callable. *)
        raise TypeError
    end.

Definition finish_single_execution (test_number : nat) (success : bool)
    (outcome : pyfloat) (text : pytext) : M bool :=
  safe_delete_sandbox ;;
  if negb success then ret false
  else
    d <- get ;;
    l <- of_option IndexError
           (update_nth test_number (set_text text) (evaluations (submission d))) ;;
    modify (with_submission (set_evaluations l)) ;;
    d <- get ;;
    l <- of_option IndexError
           (update_nth test_number (set_outcome outcome)
              (evaluations (submission d))) ;;
    modify (with_submission (set_evaluations l)) ;;
    ret true.

(** The defaults [outcome=0, text=""] of [finish_single_execution]. *)
Definition default_outcome : pyfloat := Finite 0.
Definition default_text : pytext := PStr [].

Definition finish_evaluation (success : bool) : M bool :=
  if negb success then ret false else ret true.

Definition safe_create_sandbox : M unit :=
  d <- get ;;
  modify (with_constructed (S (constructed d))) ;;
  match new_sandbox w (constructed d) with
  | inl run =>
      emit (New (constructed d) false) ;;
      modify (with_sandbox {| sb_id := constructed d; sb_run := run |})
  | inr e =>
      emit (New (constructed d) true) ;;
      log_str ERROR (str "Couldn't create sandbox (error: " ++ e ++ str ")") ;;
      safe_delete_sandbox ;;
      raise JobException
  end.

Definition safe_create_file_from_storage (name : pystr) (dg : digest)
    (executable : bool) : M unit :=
  run <- call (CreateFileFromStorage name dg executable)
           (fun run => negb (run_create_file_from_storage run name dg executable)) ;;
  if run_create_file_from_storage run name dg executable then ret tt
  else
    log_str ERROR (str "Couldn't copy file `" ++ name ++ str "' in sandbox") ;;
    safe_delete_sandbox ;;
    raise JobException.

Definition safe_get_file_to_storage (name msg : pystr) : M digest :=
  run <- call (GetFileToStorage name msg)
           (fun run => is_none (run_get_file_to_storage run name msg)) ;;
  match run_get_file_to_storage run name msg with
  | Some dg => ret dg
  | None =>
      log_str ERROR (str "Coudln't send file `" ++ name ++ str "' to storage") ;;
      safe_delete_sandbox ;;
      raise JobException
  end.

Definition safe_get_file_to_string (name : pystr) : M pystr :=
  run <- call (GetFileToString name 1024)
           (fun run => is_none (run_get_file_to_string run name 1024)) ;;
  match run_get_file_to_string run name 1024 with
  | Some s => ret s
  | None =>
      log_str ERROR
        (str "Couldn't retrieve file `" ++ name ++ str "' from storage") ;;
      safe_delete_sandbox ;;
      raise JobException
  end.

Definition safe_get_file (name : pystr) : M pystr :=
  run <- call (GetFile name) (fun run => is_none (run_get_file run name)) ;;
  match run_get_file run name with
  | Some f => ret f
  | None =>
      log_str ERROR
        (str "Couldn't retrieve file `" ++ name ++ str "' from storage") ;;
      safe_delete_sandbox ;;
      raise JobException
  end.

Definition safe_sandbox_execute (command : list pystr) : M unit :=
  run <- call (Execute command) (fun run => is_some (run_execute run command)) ;;
  match run_execute run command with
  | None => ret tt
  | Some e =>
      command_0 <- of_option IndexError (hd_error command) ;;
      log_str ERROR
        (str "Couldn't spawn `" ++ command_0 ++ str "' (exception "
           ++ e ++ str ")") ;;
      safe_delete_sandbox ;;
      raise JobException
  end.

Definition compile : M bool :=
  let (valid, language) := verify_source w in
  match (if valid then language else None) with
  | None =>
      log_str INFO (str "Invalid submission or couldn't detect language") ;;
      finish_compilation true false (str "Invalid files in submission")
  | Some language =>
      d <- get ;;
      let files := files (submission d) in
      if negb (Nat.eqb (List.length files) 1) then
        log_str INFO
          (str "Submission contains "
             ++ of_int (Z.of_nat (List.length files))
             ++ str " files, expecting 1") ;;
        finish_compilation true false (str "Invalid files in submission")
      else
        source_filename <- of_option IndexError (hd_error (dict_keys files)) ;;
        let executable_filename :=
          replace (str "." ++ language) [] source_filename in

        (* Setup the compilation environment *)
        safe_create_sandbox ;;
        source_digest <- of_option KeyError (dict_get files source_filename) ;;
        safe_create_file_from_storage source_filename source_digest false ;;

        let command :=
          get_compilation_command w language source_filename
            executable_filename in

        (* Execute the compilation inside the sandbox *)
        s <- self_sandbox ;;
        let path := run_path (sb_run s) in
        set_attr "chdir" (VStr path) ;;
        set_attr "preserve_env" (VBool true) ;;
        set_attr "filter_syscalls" (VInt 0) ;;
        set_attr "allow_fork" (VBool true) ;;
        set_attr "file_check" (VInt 2) ;;
        set_env (str "TMPDIR") path ;;
        set_attr "allow_path"
          (VList [str "/etc/"; str "/lib/"; str "/usr/"; path ++ str "/"]) ;;
        set_attr "timeout" (VInt 8) ;;
        set_attr "wallclock_timeout" (VInt 10) ;;
        set_attr "address_space" (VInt (256 * 1024)) ;;
        set_attr "stdout_file"
          (VStr (run_relative_path (sb_run s) (str "compiler_stdout.txt"))) ;;
        set_attr "stderr_file"
          (VStr (run_relative_path (sb_run s) (str "compiler_stderr.txt"))) ;;
        log_str INFO (str "Starting compilation") ;;
        safe_sandbox_execute command ;;

        (* Detect the outcome of the compilation *)
        let exit_status := run_exit_status (sb_run s) in
        let exit_code := run_exit_code (sb_run s) in
        stdout <- safe_get_file_to_string (str "compiler_stdout.txt") ;;
        let stdout :=
          if is_empty (strip_ws stdout) then str "(empty)" ++ [nl] else stdout in
        stderr <- safe_get_file_to_string (str "compiler_stderr.txt") ;;
        let stderr :=
          if is_empty (strip_ws stderr) then str "(empty)" ++ [nl] else stderr in

        (* Execution finished successfully: the submission was correctly
           compiled *)
        if exit_status_eqb exit_status EXIT_OK && Z.eqb exit_code 0 then
          dg <- safe_get_file_to_storage executable_filename
                  (str "Executable " ++ executable_filename
                     ++ str " for submission "
                     ++ of_int (sub_id (submission d))) ;;
          let executable :=
            {| ex_digest := dg;
               ex_filename := executable_filename;
               ex_submission := sub_id (submission d) |} in
          modify (with_submission (link_executable executable)) ;;
          modify (with_session (fun l => l ++ [StagedExecutable executable])) ;;
          log_str INFO (str "Compilation successfully finished") ;;
          finish_compilation true true
            (str "OK " ++ run_stats (sb_run s) ++ [nl]
               ++ str "Compiler standard output:" ++ [nl] ++ stdout ++ [nl]
               ++ str "Compiler standard error:" ++ [nl] ++ stderr)

        (* Error in compilation: returning the error to the user *)
        else if exit_status_eqb exit_status EXIT_OK
                && negb (Z.eqb exit_code 0) then
          log_str INFO (str "Compilation failed") ;;
          finish_compilation true false
            (str "Failed " ++ run_stats (sb_run s) ++ [nl]
               ++ str "Compiler standard output:" ++ [nl] ++ stdout ++ [nl]
               ++ str "Compiler standard error:" ++ [nl] ++ stderr)

        (* Timeout: returning the error to the user *)
        else if exit_status_eqb exit_status EXIT_TIMEOUT then
          log_str INFO (str "Compilation timed out") ;;
          finish_compilation true false
            (str "Time out " ++ run_stats (sb_run s) ++ [nl]
               ++ str "Compiler standard output:" ++ [nl] ++ stdout ++ [nl]
               ++ str "Compiler standard error:" ++ [nl] ++ stderr)

        (* Suicide with signal (probably memory limit): returning the error
           to the user *)
        else if exit_status_eqb exit_status EXIT_SIGNAL then
          let signal := run_killing_signal (sb_run s) in
          log_str INFO
            (str "Compilation killed with signal " ++ of_int signal) ;;
          finish_compilation true false
            (str "Killed with signal " ++ of_int signal ++ str " "
               ++ run_stats (sb_run s) ++ [nl]
               ++ str "This could be triggered by violating memory limits"
               ++ [nl]
               ++ str "Compiler standard output:" ++ [nl] ++ stdout ++ [nl]
               ++ str "Compiler standard error:" ++ [nl] ++ stderr)

        (* Sandbox error: this isn't a user error *)
        else if exit_status_eqb exit_status EXIT_SANDBOX_ERROR then
          log_str ERROR (str "Compilation aborted because of sandbox error") ;;
          finish_compilation false false []

        (* Forbidden syscall *)
        else if exit_status_eqb exit_status EXIT_SYSCALL then
          log_str ERROR
            (str "Compilation aborted because of forbidden syscall") ;;
          finish_compilation false false []

        (* Forbidden file access *)
        else if exit_status_eqb exit_status EXIT_FILE_ACCESS then
          log_str ERROR
            (str "Compilation aborted because of forbidden file access") ;;
          finish_compilation false false []

        (* Why the exit status hasn't been captured before? *)
        else
          log_str ERROR (str "Shouldn't arrive here, failing") ;;
          finish_compilation false false []
  end.

Definition execute_single (test_number : nat) : M bool :=
  safe_create_sandbox ;;
  d <- get ;;
  executable_filename <- of_option AttributeError (executable_filename d) ;;
  executable_digest <-
    of_option KeyError
      (dict_get (executables (submission d)) executable_filename) ;;
  safe_create_file_from_storage executable_filename executable_digest true ;;
  testcase <-
    of_option IndexError (nth_error (testcases (task (submission d))) test_number) ;;
  safe_create_file_from_storage (str "input.txt") (tc_input testcase) false ;;

  s <- self_sandbox ;;
  let path := run_path (sb_run s) in
  set_attr "chdir" (VStr path) ;;
  set_attr "filter_syscalls" (VInt 2) ;;
  set_attr "timeout" (VReal (time_limit (task (submission d)))) ;;
  set_attr "address_space" (VInt (memory_limit (task (submission d)) * 1024)) ;;
  set_attr "file_check" (VInt 1) ;;
  set_attr "allow_path" (VList [str "input.txt"; str "output.txt"]) ;;
  let stdout_filename := os_path_join path (str "submission_stdout.txt") in
  let stderr_filename := os_path_join path (str "submission_stderr.txt") in
  set_attr "stdout_file" (VStr stdout_filename) ;;
  set_attr "stderr_file" (VStr stderr_filename) ;;

  (* These syscalls and path are used by executables generated by fpc *)
  extend_attr "allow_path" [str "/proc/self/exe"] ;;
  extend_attr "allow_syscall" [str "getrlimit"; str "rt_sigaction"] ;;

  (* This one seems to be used for a C++ executable. *)
  extend_attr "allow_path" [str "/proc/meminfo"] ;;

  safe_sandbox_execute [run_relative_path (sb_run s) executable_filename] ;;

  (* Detect the outcome of the execution *)
  let exit_status := run_exit_status (sb_run s) in
  let exit_code := run_exit_code (sb_run s) in

  (* Timeout: returning the error to the user *)
  if exit_status_eqb exit_status EXIT_TIMEOUT then
    log_str INFO (str "Execution timed out") ;;
    finish_single_execution test_number true (Finite 0)
      (PStr (str "Execution timed out" ++ [nl]))

  (* Suicide with signal (memory limit, segfault, abort) *)
  else if exit_status_eqb exit_status EXIT_SIGNAL then
    let signal := run_killing_signal (sb_run s) in
    log_str INFO (str "Execution killed with signal " ++ of_int signal) ;;
    finish_single_execution test_number true (Finite 0)
      (PStr (str "Execution killed with signal " ++ of_int signal ++ [nl]))

  (* Sandbox error: this isn't a user error *)
  else if exit_status_eqb exit_status EXIT_SANDBOX_ERROR then
    log_str ERROR (str "Evaluation aborted because of sandbox error") ;;
    finish_single_execution test_number false default_outcome default_text

  (* Forbidden syscall: returning the error to the user *)
  else if exit_status_eqb exit_status EXIT_SYSCALL then
    log_str INFO (str "Execution killed because of forbidden syscall") ;;
    finish_single_execution test_number true (Finite 0)
      (PStr (str "Execution killed because of forbidden syscall"))

  (* Forbidden file access: returning the error to the user *)
  else if exit_status_eqb exit_status EXIT_FILE_ACCESS then
    log_str INFO (str "Execution killed because of forbidden file access") ;;
    finish_single_execution test_number true (Finite 0)
      (PStr (str "Execution killed because of forbidden file access"))

  (* Last check before assuming that execution finished successfully; we
     accept the execution even if the exit code isn't 0 *)
  else if negb (exit_status_eqb exit_status EXIT_OK) then
    log_str ERROR (str "Shouldn't arrive here, failing") ;;
    finish_single_execution test_number false default_outcome default_text

  else if negb (run_file_exists (sb_run s) (str "output.txt")) then
    let outcome := Finite 0 in
    let text := PStr (str "Execution didn't produce file output.txt") in
    finish_single_execution test_number true outcome text

  else
    safe_create_file_from_storage (str "res.txt") (tc_output testcase) false ;;
    set_attr "filter_syscalls" (VInt 2) ;;
    set_attr "timeout" (VInt 0) ;;
    set_attr "address_space" VNone ;;
    set_attr "file_check" (VInt 1) ;;
    set_attr "allow_path"
      (VList [str "input.txt"; str "output.txt"; str "res.txt"]) ;;
    let stdout_filename := os_path_join path (str "manager_stdout.txt") in
    let stderr_filename := os_path_join path (str "manager_stderr.txt") in
    set_attr "stdout_file" (VStr stdout_filename) ;;
    set_attr "stderr_file" (VStr stderr_filename) ;;

    (* No manager: I'll do a white_diff between output.txt and res.txt *)
    if Nat.eqb (List.length (managers (task (submission d)))) 0 then
      out_file <- safe_get_file (str "output.txt") ;;
      res_file <- safe_get_file (str "res.txt") ;;
      if white_diff out_file res_file then
        finish_single_execution test_number true (Finite 1)
          (PStr (str "Output file is correct"))
      else
        finish_single_execution test_number true (Finite 0)
          (PStr (str "Output file isn't correct"))

    (* Manager present: wonderful, he'll do all the job *)
    else
      let managers := managers (task (submission d)) in
      manager_filename <- of_option IndexError (hd_error (dict_keys managers)) ;;
      manager_digest <- of_option KeyError (dict_get managers manager_filename) ;;
      safe_create_file_from_storage manager_filename manager_digest true ;;
      safe_sandbox_execute
        [str "./" ++ manager_filename; str "input.txt"; str "res.txt";
         str "output.txt"] ;;
      stdout_file <- of_option IOError (run_codecs_open (sb_run s) stdout_filename) ;;
      stderr_file <- of_option IOError (run_codecs_open (sb_run s) stderr_filename) ;;
      match stdout_file with
      | UnicodeDecodeError e =>
          log_str ERROR
            (str "Unable to interpret manager stdout (outcome) as unicode. "
               ++ e) ;;
          finish_single_execution test_number false default_outcome default_text
      | Line stdout_line =>
          let outcome := unicode_strip w stdout_line in
          match stderr_file with
          | UnicodeDecodeError e =>
              log_str ERROR
                (str "Unable to interpret manager stderr (text) as unicode. "
                   ++ e) ;;
              finish_single_execution test_number false default_outcome
                default_text
          | Line stderr_line =>
              let text := filter_ansi_escape w stderr_line in
              match float_of_text w outcome with
              | None =>
                  log ERROR
                    (PUni (u_of_str (str "Wrong outcome `") ++ outcome
                             ++ u_of_str (str "' from manager"))) ;;
                  finish_single_execution test_number false default_outcome
                    default_text
              | Some outcome =>
                  (* Finally returns the result *)
                  finish_single_execution test_number true outcome (PUni text)
              end
          end
      end.

(** The second loop of [execute], over the test numbers that are left. *)
Fixpoint execute_testcases (test_numbers : list nat) : M bool :=
  match test_numbers with
  | [] => finish_evaluation true
  | test_number :: rest =>
      success <- execute_single test_number ;;
      if negb success then finish_evaluation false
      else execute_testcases rest
  end.

(** The first loop of [execute]: an empty Evaluation for each test number
    of [test_numbers]. *)
Fixpoint add_evaluations (test_numbers : list nat) : M unit :=
  match test_numbers with
  | [] => ret tt
  | test_number :: rest =>
      d <- get ;;
      let position := List.length (evaluations (submission d)) in
      modify (with_submission
                (link_evaluation
                   {| ev_num := test_number;
                      ev_outcome := None;
                      ev_text := None |})) ;;
      modify (with_session (fun l => l ++ [StagedEvaluation position])) ;;
      add_evaluations rest
  end.

(** [xrange(a, b)] *)
Definition xrange (a b : nat) : list nat := seq a (b - a).

Definition execute : M bool :=
  d <- get ;;
  let executables := executables (submission d) in
  if negb (Nat.eqb (List.length executables) 1) then
    log_str INFO
      (str "Submission contains "
         ++ of_int (Z.of_nat (List.length executables))
         ++ str " executables, expecting 1") ;;
    finish_evaluation false
  else
    first_key <- of_option IndexError (hd_error (dict_keys executables)) ;;
    modify (with_executable_filename first_key) ;;
    add_evaluations
      (xrange (List.length (evaluations (submission d)))
              (List.length (testcases (task (submission d))))) ;;
    execute_testcases
      (xrange 0 (List.length (testcases (task (submission d))))).

End Driver.

(** ** Observations on a run *)

(** The events of a run from [d] to [d']. *)
Definition new_events (d d' : Driver) : list Event :=
  skipn (List.length (trace d)) (trace d').

(** A safe-sandbox helper met an [IOError] or [OSError]: a construction or an
    operation other than [delete] raised ([safe_delete_sandbox] only warns). *)
Definition io_error (e : Event) : bool :=
  match e with
  | New _ raised => raised
  | Call _ Delete _ => false
  | Call _ _ raised => raised
  | Log _ _ => false
  end.

Definition is_execute_on (id : nat) (e : Event) : bool :=
  match e with
  | Call id' (Execute _) _ => Nat.eqb id id'
  | _ => false
  end.

(** Number of [execute] calls the sandbox [id] underwent in [t]. *)
Definition executions (id : nat) (t : list Event) : nat :=
  List.length (filter (is_execute_on id) t).

Definition is_delete_of (id : nat) (e : Event) : bool :=
  match e with
  | Call id' Delete _ => Nat.eqb id id'
  | _ => false
  end.

Definition outcome_at (i : nat) (d : Driver) : option pyfloat :=
  match nth_error (evaluations (submission d)) i with
  | Some e => ev_outcome e
  | None => None
  end.

Definition text_at (i : nat) (d : Driver) : option pytext :=
  match nth_error (evaluations (submission d)) i with
  | Some e => ev_text e
  | None => None
  end.

(** ** Reasoning on runs *)

(** [after m d Q]: the run of [m] from [d] ends in a result and a state that
    satisfy [Q]. *)
Definition after {A : Type} (m : M A) (d : Driver) (Q : result A -> Driver -> Prop)
  : Prop :=
  Q (fst (m d)) (snd (m d)).

Definition bind_post {A B : Type} (k : A -> M B) (Q : result B -> Driver -> Prop)
  : result A -> Driver -> Prop :=
  fun r d =>
    match r with
    | Return a => after (k a) d Q
    | Raise e => Q (Raise e) d
    end.

Definition with_events (l : list Event) (d : Driver) : Driver :=
  fold_left (fun d e => with_event e d) l d.

(** The events of [safe_delete_sandbox]. *)
Definition delete_events (w : World) (sb : option Sandbox) : list Event :=
  match sb with
  | Some s =>
      if negb (keep_sandbox w) then
        Call (sb_id s) Delete (negb (run_delete (sb_run s)))
        :: (if run_delete (sb_run s) then []
            else [Log WARNING (PStr (str "Couldn't delete sandbox"))])
      else []
  | None => []
  end.

Definition deleted (w : World) (d : Driver) : Driver :=
  with_events (delete_events w (sandbox d)) d.

(** Where the outcome stored by [execute_single] comes from: a verdict of
    the driver, 0.0 or 1.0, or the first line of what the manager printed. *)
Definition verdict_source (w : World) (d : Driver) (o : pyfloat) : Prop :=
  o = Finite 0 \/ o = Finite 1 \/
  (managers (task (submission d)) <> [] /\
   exists run line,
     new_sandbox w (constructed d) = inl run /\
     run_codecs_open run (os_path_join (run_path run) (str "manager_stdout.txt"))
       = Some (Line line) /\
     float_of_text w (unicode_strip w line) = Some o).

(** What the driver shows of an output of the compiler, and the text it
    makes of a compilation. *)
Definition shown (s : pystr) : pystr :=
  if is_empty (strip_ws s) then str "(empty)" ++ [nl] else s.

Definition compilation_report (head stats stdout stderr : pystr) : pystr :=
  head ++ stats ++ [nl]
    ++ str "Compiler standard output:" ++ [nl] ++ shown stdout ++ [nl]
    ++ str "Compiler standard error:" ++ [nl] ++ shown stderr.

(** The name and the description under which [compile] stores the
    executable of a source file. *)
Definition executable_of (language source_filename : pystr) : pystr :=
  replace (str "." ++ language) [] source_filename.

Definition executable_description (executable_filename : pystr) (id : Z)
  : pystr :=
  str "Executable " ++ executable_filename ++ str " for submission "
    ++ of_int id.

(** ** Runs that get a report from the sandbox *)

(** The run of [compile] on [d] reaches the classification of the exit
    status: the submission is valid, with the single source file
    [source_filename] in [language]; the sandbox [run] is created, the source
    is staged, the compiler runs; its two outputs are read. *)
Definition compile_reports (w : World) (d : Driver)
    (language source_filename : pystr) (run : SandboxRun)
    (stdout stderr : pystr) : Prop :=
  exists source_digest,
    verify_source w = (true, Some language) /\
    files (submission d) = [(source_filename, source_digest)] /\
    new_sandbox w (constructed d) = inl run /\
    run_create_file_from_storage run source_filename source_digest false
      = true /\
    run_execute run
      (get_compilation_command w language source_filename
         (executable_of language source_filename)) = None /\
    run_get_file_to_string run (str "compiler_stdout.txt") 1024 = Some stdout /\
    run_get_file_to_string run (str "compiler_stderr.txt") 1024 = Some stderr.

(** The run of [execute_single i] on [d] reaches the classification of the
    exit status of the candidate program: the sandbox [run] is created, the
    executable and the input of [testcase] are staged, the program runs. *)
Definition candidate_reports (w : World) (i : nat) (d : Driver)
    (run : SandboxRun) (testcase : Testcase) : Prop :=
  exists executable executable_digest,
    new_sandbox w (constructed d) = inl run /\
    executable_filename d = Some executable /\
    dict_get (executables (submission d)) executable = Some executable_digest /\
    run_create_file_from_storage run executable executable_digest true
      = true /\
    nth_error (testcases (task (submission d))) i = Some testcase /\
    run_create_file_from_storage run (str "input.txt") (tc_input testcase) false
      = true /\
    run_execute run [run_relative_path run executable] = None.

(** The run of [execute_single i] on [d] reaches the manager branch and
    reads what the manager wrote: the candidate ended with status OK and
    left output.txt, the expected output and the manager are staged, the
    manager runs, its two outputs can be opened; [stdout_file] and
    [stderr_file] are their first lines. *)
Definition manager_reports (w : World) (i : nat) (d : Driver)
    (run : SandboxRun) (stdout_file stderr_file : text_line) : Prop :=
  exists testcase manager_filename manager_digest,
    candidate_reports w i d run testcase /\
    run_exit_status run = EXIT_OK /\
    run_file_exists run (str "output.txt") = true /\
    run_create_file_from_storage run (str "res.txt") (tc_output testcase) false
      = true /\
    hd_error (dict_keys (managers (task (submission d))))
      = Some manager_filename /\
    dict_get (managers (task (submission d))) manager_filename
      = Some manager_digest /\
    run_create_file_from_storage run manager_filename manager_digest true
      = true /\
    run_execute run
      [str "./" ++ manager_filename; str "input.txt"; str "res.txt";
       str "output.txt"] = None /\
    run_codecs_open run (os_path_join (run_path run) (str "manager_stdout.txt"))
      = Some stdout_file /\
    run_codecs_open run (os_path_join (run_path run) (str "manager_stderr.txt"))
      = Some stderr_file.

(** The run of [execute_single i] on [d] reaches the manager branch and
    runs the manager: the candidate ended with status OK and left
    output.txt, the expected output and the manager are staged, the manager
    runs.  Nothing is said of the two files it wrote. *)
Definition manager_ran (w : World) (i : nat) (d : Driver) (run : SandboxRun)
  : Prop :=
  exists testcase manager_filename manager_digest,
    candidate_reports w i d run testcase /\
    run_exit_status run = EXIT_OK /\
    run_file_exists run (str "output.txt") = true /\
    run_create_file_from_storage run (str "res.txt") (tc_output testcase) false
      = true /\
    hd_error (dict_keys (managers (task (submission d))))
      = Some manager_filename /\
    dict_get (managers (task (submission d))) manager_filename
      = Some manager_digest /\
    run_create_file_from_storage run manager_filename manager_digest true
      = true /\
    run_execute run
      [str "./" ++ manager_filename; str "input.txt"; str "res.txt";
       str "output.txt"] = None.

(** What the manager wrote cannot be read as an outcome and a text: one of
    the two first lines is not UTF-8, or the first line of its standard
    output is not a number for [float()]. *)
Definition unparseable (w : World) (stdout_file stderr_file : text_line)
  : Prop :=
  match stdout_file, stderr_file with
  | UnicodeDecodeError _, _ => True
  | Line _, UnicodeDecodeError _ => True
  | Line outcome, Line _ => float_of_text w (unicode_strip w outcome) = None
  end.

(** What a caller of the driver observes of a run: its result, the
    submission, the session and the events. *)
Definition observable {A : Type} (x : result A * Driver)
  : result A * Submission * list Staged * list Event :=
  (fst x, submission (snd x), session (snd x), trace (snd x)).

(** The same sandbox and the same world, with another exit code. *)
Definition set_exit_code (code : Z) (r : SandboxRun) : SandboxRun :=
  {| run_path := run_path r;
     run_relative_path := run_relative_path r;
     run_create_file_from_storage := run_create_file_from_storage r;
     run_execute := run_execute r;
     run_exit_status := run_exit_status r;
     run_exit_code := code;
     run_killing_signal := run_killing_signal r;
     run_stats := run_stats r;
     run_file_exists := run_file_exists r;
     run_get_file := run_get_file r;
     run_get_file_to_string := run_get_file_to_string r;
     run_get_file_to_storage := run_get_file_to_storage r;
     run_delete := run_delete r;
     run_codecs_open := run_codecs_open r |}.

Definition with_exit_code (code : Z) (w : World) : World :=
  {| keep_sandbox := keep_sandbox w;
     verify_source := verify_source w;
     new_sandbox := fun n =>
       match new_sandbox w n with
       | inl r => inl (set_exit_code code r)
       | inr e => inr e
       end;
     get_compilation_command := get_compilation_command w;
     filter_ansi_escape := filter_ansi_escape w;
     unicode_strip := unicode_strip w;
     float_of_text := float_of_text w |}.

(** [evaluations[i]] has been given an outcome and a text. *)
Definition has_verdict (i : nat) (d : Driver) : Prop :=
  outcome_at i d <> None /\ text_at i d <> None.

(** [both m1 d1 m2 d2 Q]: the runs of [m1] from [d1] and of [m2] from [d2]
    end in results and states that [Q] relates. *)
Definition both {A B : Type} (m1 : M A) (d1 : Driver) (m2 : M B) (d2 : Driver)
    (Q : result A -> Driver -> result B -> Driver -> Prop) : Prop :=
  after m1 d1 (fun r1 e1 => after m2 d2 (fun r2 e2 => Q r1 e1 r2 e2)).

Definition both_post {A A' B B' : Type} (k1 : A -> M B) (k2 : A' -> M B')
    (Q : result B -> Driver -> result B' -> Driver -> Prop)
  : result A -> Driver -> result A' -> Driver -> Prop :=
  fun r1 e1 r2 e2 =>
    match r1, r2 with
    | Return a1, Return a2 => both (k1 a1) e1 (k2 a2) e2 Q
    | Raise x, Raise y => Q (Raise x) e1 (Raise y) e2
    | Return a1, Raise y => after (k1 a1) e1 (fun r e => Q r e (Raise y) e2)
    | Raise x, Return a2 => after (k2 a2) e2 (fun r e => Q (Raise x) e1 r e)
    end.
(** ** A concrete judging environment *)

Module Example.

(** [float()] on plain decimal literals: an optional sign, digits, an
    optional fractional part, read as the exact rational.  It stands for
    [float()] in the examples below, on inputs where the two agree; it
    knows neither exponents, nor "inf" and "nan", nor rounding. *)
Definition digit_of (c : N) : option N :=
  if ((48 <=? c) && (c <=? 57))%N then Some (c - 48)%N else None.

Fixpoint digits (value : N) (count : nat) (u : ustr) : N * nat * ustr :=
  match u with
  | [] => (value, count, [])
  | c :: r =>
      match digit_of c with
      | Some v => digits (value * 10 + v)%N (S count) r
      | None => (value, count, u)
      end
  end.

Definition decimal_float (u : ustr) : option pyfloat :=
  let '(negative, u) :=
    match u with
    | 45%N :: r => (true, r)
    | 43%N :: r => (false, r)
    | _ => (false, u)
    end in
  let '(int_part, n1, r) := digits 0 0 u in
  let '(frac_part, n2, r) :=
    match r with
    | 46%N :: r1 => digits 0 0 r1
    | _ => (0%N, O, r)
    end in
  match r, (n1 + n2)%nat with
  | _ :: _, _ => None
  | [], O => None
  | [], S _ =>
      let q := (inject_Z (Z.of_N int_part)
                + (Z.of_N frac_part # Pos.pow 10 (Pos.of_nat n2)))%Q in
      Some (Finite (Qred (if negative then Qopp q else q)))
  end.

(** The white space of [unicode.strip()]. *)
Definition unicode_whitespace : list N :=
  [9; 10; 11; 12; 13; 28; 29; 30; 31; 32; 133; 160; 5760; 6158;
   8192; 8193; 8194; 8195; 8196; 8197; 8198; 8199; 8200; 8201; 8202;
   8232; 8233; 8239; 8287; 12288]%N.

Fixpoint ulstrip (u : ustr) : ustr :=
  match u with
  | [] => []
  | c :: r => if existsb (N.eqb c) unicode_whitespace then ulstrip r else u
  end.

Definition ustrip (u : ustr) : ustr := rev (ulstrip (rev (ulstrip u))).

(** Stripping of the CSI sequences ESC [ ... letter. *)
Fixpoint strip_csi (inside : bool) (u : ustr) : ustr :=
  match u with
  | [] => []
  | c :: r =>
      if inside then
        strip_csi (negb ((64 <=? c) && (c <=? 126))%N) r
      else
        match r with
        | 91%N :: r' => if (c =? 27)%N then strip_csi true r' else c :: strip_csi false r
        | _ => c :: strip_csi false r
        end
  end.

Definition gcc (language source executable : pystr) : list pystr :=
  [str "/usr/bin/gcc"; str "-o"; executable; source].

(** A sandbox where everything works: the compiler is silent and exits
    with [exit_code], files can be staged, read and stored. *)
Definition working_run (status : exit_status) (exit_code : Z)
    (output : option pystr) (expected : pystr)
    (manager_stdout manager_stderr : text_line) : SandboxRun :=
  {| run_path := str "/tmp/box";
     run_relative_path := fun name => str "/tmp/box/" ++ name;
     run_create_file_from_storage := fun _ _ _ => true;
     run_execute := fun _ => None;
     run_exit_status := status;
     run_exit_code := exit_code;
     run_killing_signal := 11;
     run_stats := str "[0.1 sec]";
     run_file_exists := fun name =>
       eqb name (str "output.txt") && is_some output;
     run_get_file := fun name =>
       if eqb name (str "output.txt") then output
       else if eqb name (str "res.txt") then Some expected
       else None;
     run_get_file_to_string := fun _ _ => Some [];
     run_get_file_to_storage := fun _ _ => Some (str "d1g357");
     run_delete := true;
     run_codecs_open := fun name =>
       if eqb name (str "/tmp/box/manager_stdout.txt") then Some manager_stdout
       else if eqb name (str "/tmp/box/manager_stderr.txt")
            then Some manager_stderr
       else None |}.

Definition world_of (run : SandboxRun + pystr) : World :=
  {| keep_sandbox := false;
     verify_source := (true, Some (str "c"));
     new_sandbox := fun _ => run;
     get_compilation_command := gcc;
     filter_ansi_escape := strip_csi false;
     unicode_strip := ustrip;
     float_of_text := decimal_float |}.

Definition one_testcase : list Testcase :=
  [{| tc_input := str "1npu7"; tc_output := str "0u7pu7" |}].

Definition task_of (managers : dict digest) : Task :=
  {| testcases := one_testcase;
     managers := managers;
     time_limit := 1;
     memory_limit := 65536 |}.

Definition submission_of (t : Task) (executables : dict digest)
    (evaluations : list Evaluation) : Submission :=
  {| sub_id := 7;
     task := t;
     files := [(str "sum.c", str "50urc3")];
     executables := executables;
     evaluations := evaluations;
     compilation_outcome := None;
     compilation_text := None |}.

Definition driver_of (s : Submission) : Driver :=
  {| submission := s;
     session := [];
     sandbox := None;
     executable_filename := None;
     constructed := 0;
     trace := [] |}.

Definition empty_evaluation (n : nat) : Evaluation :=
  {| ev_num := n; ev_outcome := None; ev_text := None |}.

(** The answers of [r], except that the store refuses every file. *)
Definition storage_refuses (r : SandboxRun) : SandboxRun :=
  {| run_path := run_path r;
     run_relative_path := run_relative_path r;
     run_create_file_from_storage := run_create_file_from_storage r;
     run_execute := run_execute r;
     run_exit_status := run_exit_status r;
     run_exit_code := run_exit_code r;
     run_killing_signal := run_killing_signal r;
     run_stats := run_stats r;
     run_file_exists := run_file_exists r;
     run_get_file := run_get_file r;
     run_get_file_to_string := run_get_file_to_string r;
     run_get_file_to_storage := fun _ _ => None;
     run_delete := run_delete r;
     run_codecs_open := run_codecs_open r |}.

(** The answers of [r], with [stderr] as what the compiler wrote on its
    standard error. *)
Definition compiler_wrote (stderr : pystr) (r : SandboxRun) : SandboxRun :=
  {| run_path := run_path r;
     run_relative_path := run_relative_path r;
     run_create_file_from_storage := run_create_file_from_storage r;
     run_execute := run_execute r;
     run_exit_status := run_exit_status r;
     run_exit_code := run_exit_code r;
     run_killing_signal := run_killing_signal r;
     run_stats := run_stats r;
     run_file_exists := run_file_exists r;
     run_get_file := run_get_file r;
     run_get_file_to_string := fun name maxlen =>
       if eqb name (str "compiler_stderr.txt") then Some stderr
       else run_get_file_to_string r name maxlen;
     run_get_file_to_storage := run_get_file_to_storage r;
     run_delete := run_delete r;
     run_codecs_open := run_codecs_open r |}.

Definition silent : text_line := Line [].

(** The sandbox of a compilation that ends with [status] and [exit_code]. *)
Definition compiler_run (status : exit_status) (exit_code : Z) : SandboxRun :=
  working_run status exit_code None [] silent silent.

(** A submission that was not compiled yet, and its driver. *)
Definition fresh_driver : Driver := driver_of (submission_of (task_of []) [] []).

(** The driver of a compiled submission, about to run test case 0; the task
    has the given managers, the submission the given evaluations. *)
Definition compiled (managers : dict digest) (evaluations : list Evaluation)
  : Driver :=
  with_executable_filename (str "sum")
    (driver_of
       (submission_of (task_of managers) [(str "sum", str "d1g357")]
          evaluations)).

Definition checker : dict digest := [(str "checker", str "ch3ck3r")].

Definition answer : pystr := str "42" ++ [nl].

(** The sandbox of an execution that ends with status OK and leaves the
    expected output; the manager, if there is one, prints
    [manager_stdout]. *)
Definition judged_run (exit_code : Z) (manager_stdout : pystr) : SandboxRun :=
  working_run EXIT_OK exit_code (Some answer) answer
    (Line (u_of_str manager_stdout))
    (Line (u_of_str (str "fine" ++ [nl]))).

(** The world [w], where [verify_source] rejects the submission. *)
Definition rejecting (w : World) : World :=
  {| keep_sandbox := keep_sandbox w;
     verify_source := (false, None);
     new_sandbox := new_sandbox w;
     get_compilation_command := get_compilation_command w;
     filter_ansi_escape := filter_ansi_escape w;
     unicode_strip := unicode_strip w;
     float_of_text := float_of_text w |}.

(** The sandbox of an execution that the sandbox stopped at its time
    limit. *)
Definition timed_out_run : SandboxRun :=
  working_run EXIT_TIMEOUT 0 None answer silent silent.

(** The world [w], with the keep-sandbox flag of the configuration set. *)
Definition keeping (w : World) : World :=
  {| keep_sandbox := true;
     verify_source := verify_source w;
     new_sandbox := new_sandbox w;
     get_compilation_command := get_compilation_command w;
     filter_ansi_escape := filter_ansi_escape w;
     unicode_strip := unicode_strip w;
     float_of_text := float_of_text w |}.

(** The answers of [r], except that the file of that path on the host
    cannot be opened. *)
Definition unopenable (path : pystr) (r : SandboxRun) : SandboxRun :=
  {| run_path := run_path r;
     run_relative_path := run_relative_path r;
     run_create_file_from_storage := run_create_file_from_storage r;
     run_execute := run_execute r;
     run_exit_status := run_exit_status r;
     run_exit_code := run_exit_code r;
     run_killing_signal := run_killing_signal r;
     run_stats := run_stats r;
     run_file_exists := run_file_exists r;
     run_get_file := run_get_file r;
     run_get_file_to_string := run_get_file_to_string r;
     run_get_file_to_storage := run_get_file_to_storage r;
     run_delete := run_delete r;
     run_codecs_open := fun name =>
       if eqb name path then None else run_codecs_open r name |}.

End Example.

(** ** Vocabulary for further properties *)

(** A word: a non-empty string without space, tab or newline. *)
Definition is_word (t : pystr) : Prop :=
  t <> [] /\ Forall (fun c => is_white c = false) t.

(** A blank text: spaces, tabs and newlines only. *)
Definition is_blank (s : pystr) : Prop :=
  Forall (fun c => is_white c = true) s.

(** The words of a text, read off the text itself: [words_of s ws] when [s]
    is the words [ws] in this order, each a maximal run of characters other
    than space, tab and newline, with blanks before, between and after
    them. *)
Inductive words_of : pystr -> list pystr -> Prop :=
| words_none (b : pystr) :
    is_blank b -> words_of b []
| words_next (b w rest : pystr) (ws : list pystr) :
    is_blank b -> is_word w ->
    (rest = [] \/ exists c rest', rest = c :: rest' /\ is_white c = true) ->
    words_of rest ws ->
    words_of (b ++ w ++ rest) (w :: ws).

(** Number of [delete] calls the sandbox [id] underwent in [t]. *)
Definition deletions (id : nat) (t : list Event) : nat :=
  List.length (filter (is_delete_of id) t).

(** The text [execute_single] stores, with the outcome 0.0, when the sandbox
    stopped the candidate program or when the program left no output.txt. *)
Definition stopped_text (run : SandboxRun) : option pystr :=
  match run_exit_status run with
  | EXIT_TIMEOUT => Some (str "Execution timed out" ++ [nl])
  | EXIT_SIGNAL =>
      Some (str "Execution killed with signal "
              ++ of_int (run_killing_signal run) ++ [nl])
  | EXIT_SYSCALL => Some (str "Execution killed because of forbidden syscall")
  | EXIT_FILE_ACCESS =>
      Some (str "Execution killed because of forbidden file access")
  | EXIT_OK =>
      if run_file_exists run (str "output.txt") then None
      else Some (str "Execution didn't produce file output.txt")
  | EXIT_SANDBOX_ERROR | EXIT_UNLISTED => None
  end.

(** The evaluation [e], with the outcome [o] and the text [t]. *)
Definition judged (o : pyfloat) (t : pytext) (e : Evaluation) : Evaluation :=
  set_outcome o (set_text t e).

Definition is_error_log (e : Event) : bool :=
  match e with
  | Log ERROR _ => true
  | _ => false
  end.

(** How a safe-sandbox helper ends, from [d] to [d'] with the result [r]:
    either it returns, no operation raised and no error was logged; or an
    operation raised an I/O error, an error was logged and the helper raises
    JobException.  The submission, the session and [self.sandbox] are
    kept. *)
Definition helper_ends {A : Type} (d : Driver) (r : result A) (d' : Driver)
  : Prop :=
  submission d' = submission d /\
  session d' = session d /\
  sandbox d' = sandbox d /\
  match r with
  | Return _ =>
      existsb io_error (new_events d d') = false /\
      existsb is_error_log (new_events d d') = false
  | Raise e =>
      e = JobException /\
      existsb io_error (new_events d d') = true /\
      existsb is_error_log (new_events d d') = true
  end.

(** * Lemmas *)

(** ** Byte-string lemmas *)

Lemma eqb_true_iff (a b : pystr) : eqb a b = true <-> a = b.
Proof.
  revert b; induction a as [|x a IH]; intros [|y b]; simpl; split;
    try congruence; try reflexivity.
  - intros H. apply andb_true_iff in H as [Hx Hab].
    apply Ascii.eqb_eq in Hx. apply IH in Hab. congruence.
  - intros H. injection H as -> ->.
    rewrite Ascii.eqb_refl. simpl. now apply IH.
Qed.

Lemma eqb_refl (a : pystr) : eqb a a = true.
Proof. now apply eqb_true_iff. Qed.

Lemma replace_char (c d : ascii) (s : pystr) :
  replace [c] [d] s = map (fun x => if Ascii.eqb c x then d else x) s.
Proof.
  unfold replace. induction s as [|x s IH]; simpl; [reflexivity|].
  rewrite andb_true_r. destruct (Ascii.eqb c x); simpl; now rewrite IH.
Qed.

Lemma split_char_cons (c x : ascii) (s : pystr) :
  split [c] (x :: s) =
  if Ascii.eqb c x then [] :: split [c] s
  else match split [c] s with
       | p :: ps => (x :: p) :: ps
       | [] => [[x]]
       end.
Proof.
  unfold split. simpl. rewrite andb_true_r. reflexivity.
Qed.

Lemma split_char_not_nil (c : ascii) (s : pystr) : split [c] s <> [].
Proof.
  destruct s as [|x s]; [discriminate|].
  rewrite split_char_cons.
  destruct (Ascii.eqb c x); [discriminate|].
  destruct (split [c] s); discriminate.
Qed.

Lemma split_char_app (c : ascii) (a b : pystr) :
  split [c] (a ++ c :: b) = split [c] a ++ split [c] b.
Proof.
  induction a as [|x a IH]; simpl app.
  - rewrite split_char_cons, Ascii.eqb_refl. reflexivity.
  - rewrite !split_char_cons. destruct (Ascii.eqb c x).
    + now rewrite IH.
    + rewrite IH. pose proof (split_char_not_nil c a) as Hne.
      destruct (split [c] a); [contradiction|reflexivity].
Qed.

Lemma split_char_absent (c : ascii) (s : pystr) :
  ~ In c s -> split [c] s = [s].
Proof.
  induction s as [|x s IH]; intros Hn; [reflexivity|].
  rewrite split_char_cons.
  destruct (Ascii.eqb_spec c x) as [->|Hcx].
  - exfalso. apply Hn. now left.
  - rewrite IH; [reflexivity|]. intros Hin. apply Hn. now right.
Qed.

Lemma lstrip_all (chars s : pystr) :
  Forall (fun c => mem c chars = true) s -> lstrip chars s = [].
Proof.
  induction 1 as [|c s Hc _ IH]; simpl; [reflexivity|]. now rewrite Hc.
Qed.

Lemma strip_all (chars s : pystr) :
  Forall (fun c => mem c chars = true) s -> strip chars s = [].
Proof.
  intros H. unfold strip, rstrip. now rewrite (lstrip_all _ _ H).
Qed.

(** ** Words of a line *)

Lemma whiten_map (s : pystr) : whiten s = map whiten_char s.
Proof.
  unfold whiten, WHITES_from_1, WHITES_0, WHITES. simpl.
  rewrite !replace_char, map_map. apply map_ext. intros x.
  unfold whiten_char.
  destruct (Ascii.eqb_spec tab x) as [<-|Ht]; [reflexivity|].
  reflexivity.
Qed.

Lemma whiten_char_white (w : ascii) :
  is_white w = true -> whiten_char w = space.
Proof.
  unfold is_white, WHITES, whiten_char. simpl. rewrite orb_false_r.
  destruct (Ascii.eqb_spec w space) as [->|_]; [reflexivity|].
  destruct (Ascii.eqb_spec w tab) as [->|_]; [reflexivity|].
  destruct (Ascii.eqb_spec w nl) as [->|_]; [reflexivity|discriminate].
Qed.

Lemma whiten_char_not_white (x : ascii) :
  is_white x = false -> whiten_char x = x /\ Ascii.eqb space x = false.
Proof.
  unfold is_white, WHITES, whiten_char, mem.
  destruct (Ascii.eqb_spec x space) as [->|Hs]; [discriminate|].
  destruct (Ascii.eqb_spec x tab) as [->|Ht]; [discriminate|].
  destruct (Ascii.eqb_spec x nl) as [->|Hn]; [discriminate|].
  intros _.
  destruct (Ascii.eqb_spec nl x) as [<-|_]; [contradiction|].
  destruct (Ascii.eqb_spec tab x) as [<-|_]; [contradiction|].
  destruct (Ascii.eqb_spec space x) as [<-|_]; [contradiction|].
  now split.
Qed.

Lemma tokens_nil : tokens [] = [].
Proof. reflexivity. Qed.

Lemma tokens_app_white (a b : pystr) (w : ascii) :
  is_white w = true -> tokens (a ++ w :: b) = tokens a ++ tokens b.
Proof.
  intros Hw. unfold tokens. rewrite !whiten_map, map_app. simpl map.
  rewrite (whiten_char_white w Hw).
  change WHITES_0 with [space].
  now rewrite split_char_app, filter_app.
Qed.

Lemma tokens_white_cons (w : ascii) (b : pystr) :
  is_white w = true -> tokens (w :: b) = tokens b.
Proof. intros Hw. apply (tokens_app_white [] b w Hw). Qed.

Lemma tokens_white_snoc (a : pystr) (w : ascii) :
  is_white w = true -> tokens (a ++ [w]) = tokens a.
Proof.
  intros Hw. rewrite (tokens_app_white a [] w Hw), tokens_nil.
  apply app_nil_r.
Qed.

Lemma tokens_word_cons (x : ascii) (s : pystr) :
  is_white x = false -> tokens (x :: s) <> [].
Proof.
  intros Hx. unfold tokens. rewrite whiten_map. simpl map.
  destruct (whiten_char_not_white x Hx) as [-> Hsp].
  change WHITES_0 with [space].
  rewrite split_char_cons, Hsp.
  destruct (split [space] (map whiten_char s)); discriminate.
Qed.

Lemma tokens_nil_all_white (s : pystr) :
  tokens s = [] -> Forall (fun c => mem c WHITES = true) s.
Proof.
  induction s as [|x s IH]; intros H; [constructor|].
  destruct (is_white x) eqn:Hx.
  - constructor; [exact Hx|]. apply IH.
    now rewrite (tokens_white_cons x s Hx) in H.
  - exfalso. exact (tokens_word_cons x s Hx H).
Qed.

Lemma tokens_nil_strip (s : pystr) : tokens s = [] -> strip WHITES s = [].
Proof. intros H. apply strip_all, tokens_nil_all_white, H. Qed.

Lemma tokens_at_boundary (a b : pystr) (c : ascii) :
  is_white c = true -> at_word_boundary a b ->
  tokens (a ++ c :: b) = tokens (a ++ b).
Proof.
  intros Hc Hb. rewrite (tokens_app_white a b c Hc).
  destruct Hb as [-> | [-> | [(a' & w & -> & Hw) | (w & b' & -> & Hw)]]].
  - reflexivity.
  - now rewrite tokens_nil, !app_nil_r.
  - rewrite <- app_assoc. simpl app.
    now rewrite (tokens_white_snoc a' w Hw), (tokens_app_white a' b w Hw).
  - now rewrite (tokens_white_cons w b' Hw), (tokens_app_white a b' w Hw).
Qed.

Lemma canonicalize_tokens (s : pystr) :
  white_diff_canonicalize s = join WHITES_0 (tokens s).
Proof. reflexivity. Qed.

(** ** Lines of a file *)

Lemma readline_nil : readline [] = ([], []).
Proof. reflexivity. Qed.

Lemma readline_shape (s l r : pystr) :
  readline s = (l, r) ->
  (s = [] /\ l = [] /\ r = []) \/
  (exists p, ~ In nl p /\ l = p ++ [nl] /\ s = p ++ nl :: r) \/
  (s <> [] /\ ~ In nl s /\ l = s /\ r = []).
Proof.
  revert l r; induction s as [|c s IH]; intros l r; simpl.
  - intros H. injection H as <- <-. now left.
  - destruct (Ascii.eqb_spec c nl) as [->|Hc].
    + intros H. injection H as <- <-. right. left.
      exists []. repeat split. intros [].
    + destruct (readline s) as [l' r'] eqn:E. intros H. injection H as <- <-.
      right.
      destruct (IH l' r' eq_refl)
        as [(-> & -> & ->) | [(p & Hp & -> & Hs) | (Hne & Hn & -> & ->)]].
      * right. repeat split; try discriminate.
        intros [H|[]]. now apply Hc.
      * left. exists (c :: p). repeat split.
        -- intros [H|H]; [now apply Hc|now apply Hp].
        -- simpl. now rewrite Hs at 1.
      * right. repeat split; try discriminate.
        intros [H|H]; [now apply Hc|now apply Hn].
Qed.

Lemma normal_form_nil : normal_form [] = [].
Proof. reflexivity. Qed.

Lemma normal_form_line (p r : pystr) :
  ~ In nl p ->
  normal_form (p ++ nl :: r) = cons_unless_blank (tokens p) (normal_form r).
Proof.
  intros Hp. unfold normal_form, line_tokens.
  now rewrite split_char_app, (split_char_absent nl p Hp).
Qed.

Lemma normal_form_last_line (p : pystr) :
  ~ In nl p -> normal_form p = cons_unless_blank (tokens p) [].
Proof.
  intros Hp. unfold normal_form, line_tokens.
  now rewrite (split_char_absent nl p Hp).
Qed.

Lemma is_white_nl : is_white nl = true.
Proof. reflexivity. Qed.

(** What one [readline] does to the normal form of the file. *)
Lemma readline_normal_form (s l r : pystr) :
  readline s = (l, r) ->
  (s = [] /\ l = [] /\ r = []) \/
  (l <> [] /\ List.length r < List.length s /\
   normal_form s = cons_unless_blank (tokens l) (normal_form r)).
Proof.
  intros H.
  destruct (readline_shape s l r H)
    as [Hnil | [(p & Hp & -> & ->) | (Hne & Hn & -> & ->)]].
  - now left.
  - right. split; [|split].
    + destruct p; discriminate.
    + rewrite length_app. simpl. lia.
    + rewrite (tokens_white_snoc p nl is_white_nl).
      now apply normal_form_line.
  - right. split; [exact Hne|split].
    + destruct s; [contradiction|simpl; lia].
    + rewrite normal_form_nil. now apply normal_form_last_line.
Qed.

Lemma cons_unless_blank_nil (t : list pystr) (n : list (list pystr)) :
  cons_unless_blank t n = [] -> t = [] /\ n = [].
Proof. destruct t, n; simpl; intros H; try discriminate; now split. Qed.

Lemma cons_unless_blank_inj (t t' : list pystr) (n n' : list (list pystr)) :
  cons_unless_blank t n = cons_unless_blank t' n' -> t = t' /\ n = n'.
Proof.
  destruct t, n, t', n'; simpl; intros H; try discriminate;
    try (injection H; intros; subst; now split); now split.
Qed.

Lemma is_empty_false (s : pystr) : s <> [] -> is_empty s = false.
Proof. destruct s; [contradiction|reflexivity]. Qed.

(** Files with the same normal form compare equal. *)
Lemma white_diff_loop_normal_form (fuel : nat) :
  forall output res : pystr,
    List.length output + List.length res < fuel ->
    normal_form output = normal_form res ->
    white_diff_loop fuel output res = Some true.
Proof.
  induction fuel as [|fuel IH]; intros output res Hlen Hnf; [lia|].
  simpl.
  destruct (readline output) as [lout output'] eqn:Eo.
  destruct (readline res) as [lres res'] eqn:Er.
  destruct (readline_normal_form _ _ _ Eo)
    as [(-> & -> & ->) | (Hlo & Hso & Hno)];
  destruct (readline_normal_form _ _ _ Er)
    as [(-> & -> & ->) | (Hlr & Hsr & Hnr)].
  - reflexivity.
  - rewrite (is_empty_false lres Hlr). simpl.
    rewrite normal_form_nil, Hnr in Hnf. symmetry in Hnf.
    apply cons_unless_blank_nil in Hnf as [Ht Hn].
    rewrite (tokens_nil_strip lres Ht). simpl.
    apply IH; [simpl in *; lia|]. now rewrite Hn.
  - rewrite (is_empty_false lout Hlo). simpl.
    rewrite normal_form_nil, Hno in Hnf.
    apply cons_unless_blank_nil in Hnf as [Ht Hn].
    rewrite (tokens_nil_strip lout Ht). simpl.
    apply IH; [simpl in *; lia|]. now rewrite Hn.
  - rewrite (is_empty_false lres Hlr), (is_empty_false lout Hlo). simpl.
    rewrite Hno, Hnr in Hnf.
    apply cons_unless_blank_inj in Hnf as [Ht Hn].
    rewrite !canonicalize_tokens, Ht, eqb_refl. simpl.
    apply IH; [lia|exact Hn].
Qed.

Lemma white_diff_normal_form (output res : pystr) :
  normal_form output = normal_form res -> white_diff output res = true.
Proof.
  intros H. unfold white_diff, white_diff_fuel.
  rewrite (white_diff_loop_normal_form _ output res); [reflexivity|lia|exact H].
Qed.

(** ** Whitespace edits keep the normal form *)

Lemma line_tokens_app_nl (a b : pystr) :
  line_tokens (a ++ nl :: b) = line_tokens a ++ line_tokens b.
Proof. unfold line_tokens. now rewrite split_char_app, map_app. Qed.

Lemma last_newline (a : pystr) :
  ~ In nl a \/ exists a1 a2, a = a1 ++ nl :: a2 /\ ~ In nl a2.
Proof.
  induction a as [|x a IH].
  - left. intros [].
  - destruct IH as [Hn | (a1 & a2 & -> & Hn)].
    + destruct (Ascii.eqb_spec x nl) as [->|Hx].
      * right. exists [], a. now split.
      * left. intros [H|H]; [now apply Hx|now apply Hn].
    + right. exists (x :: a1), a2. now split.
Qed.

Lemma first_newline (b : pystr) :
  ~ In nl b \/ exists b1 b2, b = b1 ++ nl :: b2 /\ ~ In nl b1.
Proof.
  induction b as [|x b IH].
  - left. intros [].
  - destruct (Ascii.eqb_spec x nl) as [->|Hx].
    + right. exists [], b. split; [reflexivity|intros []].
    + destruct IH as [Hn | (b1 & b2 & -> & Hn)].
      * left. intros [H|H]; [now apply Hx|now apply Hn].
      * right. exists (x :: b1), b2. split; [reflexivity|].
        intros [H|H]; [now apply Hx|now apply Hn].
Qed.

Lemma space_or_tab_white (c : ascii) : space_or_tab c -> is_white c = true.
Proof. intros [->| ->]; reflexivity. Qed.

Lemma space_or_tab_not_nl (c : ascii) : space_or_tab c -> c <> nl.
Proof. intros [->| ->]; discriminate. Qed.

(** The edit falls in one line: the part of [a] after its last newline and
    the part of [b] before its first one. *)
Lemma boundary_in_line_left (a1 a2 b : pystr) :
  at_word_boundary (a1 ++ nl :: a2) b -> at_word_boundary a2 b.
Proof.
  intros [H | [-> | [(a' & w & E & Hw) | H]]].
  - destruct a1; discriminate.
  - right. now left.
  - destruct a2 as [|x a2] using rev_ind; [now left|].
    right. right. left. exists a2, w. split; [|exact Hw].
    change (a1 ++ nl :: a2 ++ [x]) with (a1 ++ (nl :: a2) ++ [x]) in E.
    rewrite app_assoc in E. apply app_inj_tail in E as [_ ->]. reflexivity.
  - right. right. now right.
Qed.

Lemma boundary_in_line_right (a b1 b2 : pystr) :
  at_word_boundary a (b1 ++ nl :: b2) -> at_word_boundary a b1.
Proof.
  intros [-> | [H | [H | (w & b' & E & Hw)]]].
  - now left.
  - destruct b1; discriminate.
  - right. right. now left.
  - destruct b1 as [|x b1]; [right; now left|].
    right. right. right. exists w, b1. split; [|exact Hw].
    simpl in E. injection E as -> _. reflexivity.
Qed.

Lemma line_tokens_edit_in_line (a b : pystr) (c : ascii) :
  ~ In nl a -> ~ In nl b -> space_or_tab c -> at_word_boundary a b ->
  line_tokens (a ++ c :: b) = line_tokens (a ++ b).
Proof.
  intros Ha Hb Hc Hab. unfold line_tokens.
  rewrite !split_char_absent.
  - simpl. now rewrite (tokens_at_boundary a b c (space_or_tab_white c Hc) Hab).
  - intros H. apply in_app_or in H as [H|H]; [now apply Ha|now apply Hb].
  - intros H. apply in_app_or in H as [H|[H|H]];
      [now apply Ha| |now apply Hb].
    now apply (space_or_tab_not_nl c Hc).
Qed.

Lemma line_tokens_edit_right (a b : pystr) (c : ascii) :
  ~ In nl a -> space_or_tab c -> at_word_boundary a b ->
  line_tokens (a ++ c :: b) = line_tokens (a ++ b).
Proof.
  intros Ha Hc Hab.
  destruct (first_newline b) as [Hb | (b1 & b2 & -> & Hb)].
  - now apply line_tokens_edit_in_line.
  - change (a ++ c :: b1 ++ nl :: b2) with (a ++ (c :: b1) ++ nl :: b2).
    rewrite !app_assoc, !line_tokens_app_nl. f_equal.
    apply line_tokens_edit_in_line; try assumption.
    now apply (boundary_in_line_right a b1 b2).
Qed.

Lemma line_tokens_edit (a b : pystr) (c : ascii) :
  space_or_tab c -> at_word_boundary a b ->
  line_tokens (a ++ c :: b) = line_tokens (a ++ b).
Proof.
  intros Hc Hab.
  destruct (last_newline a) as [Ha | (a1 & a2 & -> & Ha)].
  - now apply line_tokens_edit_right.
  - rewrite <- !app_assoc. simpl app.
    rewrite !line_tokens_app_nl. f_equal.
    apply line_tokens_edit_right; try assumption.
    now apply (boundary_in_line_left a1 a2 b).
Qed.

Lemma drop_trailing_blank_snoc (l : list (list pystr)) :
  drop_trailing_blank (l ++ [[]]) = drop_trailing_blank l.
Proof.
  induction l as [|t l IH]; simpl; [reflexivity|]. now rewrite IH.
Qed.

Lemma normal_form_append_newline (s : pystr) :
  normal_form (s ++ [nl]) = normal_form s.
Proof.
  unfold normal_form. rewrite line_tokens_app_nl.
  apply drop_trailing_blank_snoc.
Qed.

Lemma ws_step_normal_form (s s' : pystr) :
  ws_step s s' -> normal_form s = normal_form s'.
Proof.
  intros [a b c Hc Hab | a b c Hc Hab | s0]; unfold normal_form.
  - now rewrite line_tokens_edit.
  - now rewrite line_tokens_edit.
  - symmetry. apply normal_form_append_newline.
Qed.

Lemma ws_variant_normal_form (s s' : pystr) :
  ws_variant s s' -> normal_form s = normal_form s'.
Proof.
  induction 1 as [s s' H | s | s t u _ IH1 _ IH2].
  - now apply ws_step_normal_form.
  - reflexivity.
  - now rewrite IH1.
Qed.

(** ** Termination of the comparison loop *)

Lemma readline_consumes (s l r : pystr) :
  readline s = (l, r) ->
  (s = [] /\ l = [] /\ r = []) \/ (l <> [] /\ List.length r < List.length s).
Proof.
  intros H. destruct (readline_normal_form s l r H) as [?|(? & ? & _)];
    [now left|now right].
Qed.

Lemma white_diff_loop_returns_aux (n : nat) :
  forall output res : pystr,
    List.length output + List.length res <= n ->
    exists b : bool,
      forall fuel, n < fuel -> white_diff_loop fuel output res = Some b.
Proof.
  induction n as [|n IH]; intros output res Hlen.
  - destruct output; [|simpl in Hlen; lia].
    destruct res; [|simpl in Hlen; lia].
    exists true. intros [|fuel] Hf; [lia|reflexivity].
  - destruct (readline output) as [lout output'] eqn:Eo.
    destruct (readline res) as [lres res'] eqn:Er.
    assert (Hrest : is_empty lres && is_empty lout = false ->
                    List.length output' + List.length res' <= n).
    { destruct (readline_consumes _ _ _ Eo) as [(-> & -> & ->) | (Hlo & Hso)];
      destruct (readline_consumes _ _ _ Er) as [(-> & -> & ->) | (Hlr & Hsr)];
        simpl in *; try discriminate; intros _; lia. }
    destruct (is_empty lres && is_empty lout) eqn:Eboth.
    + exists true. intros [|fuel] Hf; [lia|]. simpl.
      now rewrite Eo, Er, Eboth.
    + destruct (IH output' res' (Hrest eq_refl)) as [b Hb].
      destruct (is_empty lres || is_empty lout) eqn:Eone.
      * destruct (negb (is_empty (strip WHITES lout))
                  || negb (is_empty (strip WHITES lres))) eqn:Eblank.
        -- exists false. intros [|fuel] Hf; [lia|]. simpl.
           now rewrite Eo, Er, Eboth, Eone, Eblank.
        -- exists b. intros [|fuel] Hf; [lia|]. simpl.
           rewrite Eo, Er, Eboth, Eone, Eblank. apply Hb. lia.
      * destruct (negb (eqb (white_diff_canonicalize lout)
                            (white_diff_canonicalize lres))) eqn:Ediff.
        -- exists false. intros [|fuel] Hf; [lia|]. simpl.
           now rewrite Eo, Er, Eboth, Eone, Ediff.
        -- exists b. intros [|fuel] Hf; [lia|]. simpl.
           rewrite Eo, Er, Eboth, Eone, Ediff. apply Hb. lia.
Qed.

(** ** Words, canonical lines and the comparison as an equivalence *)

Lemma whiten_char_word (t : pystr) :
  Forall (fun c => is_white c = false) t -> map whiten_char t = t.
Proof.
  induction 1 as [|c t Hc _ IH]; simpl; [reflexivity|].
  destruct (whiten_char_not_white c Hc) as [-> _]. now rewrite IH.
Qed.

Lemma word_without_space (t : pystr) :
  Forall (fun c => is_white c = false) t -> ~ In space t.
Proof.
  intros H Hin. rewrite Forall_forall in H. specialize (H space Hin).
  discriminate H.
Qed.

Lemma tokens_word (t : pystr) : is_word t -> tokens t = [t].
Proof.
  intros [Hne Hw]. unfold tokens. rewrite whiten_map, (whiten_char_word t Hw).
  change WHITES_0 with [space].
  rewrite (split_char_absent space t (word_without_space t Hw)).
  simpl. destruct t; [contradiction|reflexivity].
Qed.

Lemma tokens_join (ts : list pystr) :
  Forall is_word ts -> tokens (join WHITES_0 ts) = ts.
Proof.
  induction 1 as [|t ts Ht Hts IH]; [reflexivity|].
  destruct ts as [|t2 ts].
  - simpl. now apply tokens_word.
  - change (join WHITES_0 (t :: t2 :: ts))
      with (t ++ space :: join WHITES_0 (t2 :: ts)).
    rewrite (tokens_app_white t _ space eq_refl), IH, (tokens_word t Ht).
    reflexivity.
Qed.

Lemma split_space_pieces (s : pystr) :
  Forall (Forall (fun c => is_white c = false))
    (split [space] (map whiten_char s)).
Proof.
  induction s as [|x s IH].
  - repeat constructor.
  - simpl map. rewrite split_char_cons.
    destruct (is_white x) eqn:Hx.
    + rewrite (whiten_char_white x Hx), Ascii.eqb_refl.
      constructor; [constructor|exact IH].
    + destruct (whiten_char_not_white x Hx) as [-> ->].
      destruct (split [space] (map whiten_char s)) as [|p ps].
      * repeat constructor. exact Hx.
      * inversion IH as [|? ? Hp Hps]; subst.
        constructor; [constructor; [exact Hx|exact Hp]|exact Hps].
Qed.

Lemma tokens_words (s : pystr) : Forall is_word (tokens s).
Proof.
  unfold tokens. rewrite whiten_map. change WHITES_0 with [space].
  pose proof (split_space_pieces s) as H.
  induction H as [|p ps Hp _ IH]; simpl; [constructor|].
  destruct p as [|c p]; simpl; [exact IH|].
  constructor; [|exact IH]. split; [discriminate|exact Hp].
Qed.

Lemma canonicalize_idempotent (s : pystr) :
  white_diff_canonicalize (white_diff_canonicalize s)
  = white_diff_canonicalize s.
Proof.
  rewrite !canonicalize_tokens, (tokens_join _ (tokens_words s)).
  reflexivity.
Qed.

Lemma canonicalize_eq_tokens (a b : pystr) :
  white_diff_canonicalize a = white_diff_canonicalize b <->
  tokens a = tokens b.
Proof.
  rewrite !canonicalize_tokens. split; [|now intros ->].
  intros H.
  rewrite <- (tokens_join _ (tokens_words a)),
    <- (tokens_join _ (tokens_words b)).
  now rewrite H.
Qed.

Lemma tokens_blank (s : pystr) : is_blank s -> tokens s = [].
Proof.
  induction 1 as [|c s Hc _ IH]; [reflexivity|].
  now rewrite (tokens_white_cons c s Hc).
Qed.

Lemma lstrip_nil_blank (chars s : pystr) :
  lstrip chars s = [] -> Forall (fun c => mem c chars = true) s.
Proof.
  induction s as [|c s IH]; simpl; [constructor|].
  destruct (mem c chars) eqn:Hc; [|discriminate].
  intros H. constructor; [exact Hc|exact (IH H)].
Qed.

Lemma lstrip_suffix (chars s : pystr) :
  exists p, s = p ++ lstrip chars s /\ Forall (fun c => mem c chars = true) p.
Proof.
  induction s as [|c s (p & Hs & Hp)]; simpl.
  - exists []. now split.
  - destruct (mem c chars) eqn:Hc.
    + exists (c :: p). split; [simpl; now rewrite <- Hs|now constructor].
    + exists []. now split.
Qed.

Lemma strip_nil_blank (chars s : pystr) :
  strip chars s = [] -> Forall (fun c => mem c chars = true) s.
Proof.
  unfold strip, rstrip. intros H.
  apply (f_equal (@rev ascii)) in H. rewrite rev_involutive in H. simpl in H.
  apply lstrip_nil_blank in H.
  destruct (lstrip_suffix chars s) as (p & Hs & Hp).
  rewrite Hs. apply Forall_app. split; [exact Hp|].
  apply Forall_rev in H. now rewrite rev_involutive in H.
Qed.

Lemma strip_nil_tokens (s : pystr) : strip WHITES s = [] -> tokens s = [].
Proof. intros H. apply tokens_blank, strip_nil_blank, H. Qed.

Lemma is_empty_true (s : pystr) : is_empty s = true -> s = [].
Proof. destruct s; [reflexivity|discriminate]. Qed.

(** Files that compare equal have the same normal form. *)
Lemma white_diff_loop_true (fuel : nat) :
  forall output res : pystr,
    white_diff_loop fuel output res = Some true ->
    normal_form output = normal_form res.
Proof.
  induction fuel as [|fuel IH]; intros output res; [discriminate|].
  simpl.
  destruct (readline output) as [lout output'] eqn:Eo.
  destruct (readline res) as [lres res'] eqn:Er.
  destruct (readline_normal_form _ _ _ Eo)
    as [(-> & -> & ->) | (Hlo & _ & Hno)];
  destruct (readline_normal_form _ _ _ Er)
    as [(-> & -> & ->) | (Hlr & _ & Hnr)].
  - reflexivity.
  - rewrite (is_empty_false lres Hlr). simpl.
    destruct (is_empty (strip WHITES lres)) eqn:Es; [|discriminate].
    simpl. intros H. apply IH in H.
    rewrite Hnr, <- H, (strip_nil_tokens lres (is_empty_true _ Es)).
    reflexivity.
  - rewrite (is_empty_false lout Hlo). simpl.
    destruct (is_empty (strip WHITES lout)) eqn:Es; [|discriminate].
    simpl. intros H. apply IH in H.
    rewrite Hno, H, (strip_nil_tokens lout (is_empty_true _ Es)).
    reflexivity.
  - rewrite (is_empty_false lres Hlr), (is_empty_false lout Hlo). simpl.
    destruct (eqb (white_diff_canonicalize lout) (white_diff_canonicalize lres))
      eqn:Ec; [|discriminate].
    simpl. intros H. apply IH in H.
    apply eqb_true_iff, canonicalize_eq_tokens in Ec.
    now rewrite Hno, Hnr, Ec, H.
Qed.

Lemma white_diff_iff_normal_form (output res : pystr) :
  white_diff output res = true <-> normal_form output = normal_form res.
Proof.
  split; [|apply white_diff_normal_form].
  unfold white_diff.
  destruct (white_diff_loop (white_diff_fuel output res) output res)
    as [[|]|] eqn:E; try discriminate.
  intros _. exact (white_diff_loop_true _ _ _ E).
Qed.

Lemma drop_trailing_blank_nil (l : list (list pystr)) :
  drop_trailing_blank l = [] <-> Forall (fun t => t = []) l.
Proof.
  induction l as [|t l IH]; simpl; [split; constructor|].
  split.
  - intros H. apply cons_unless_blank_nil in H as [-> Hl].
    constructor; [reflexivity|now apply IH].
  - intros H. inversion H as [|? ? -> Hl]; subst.
    apply IH in Hl. now rewrite Hl.
Qed.

Lemma line_tokens_blank (s : pystr) :
  Forall (fun t => t = []) (line_tokens s) <-> is_blank s.
Proof.
  unfold line_tokens, is_blank.
  induction s as [|c s IH].
  - split; repeat constructor.
  - rewrite split_char_cons.
    destruct (Ascii.eqb_spec nl c) as [<-|Hc].
    + simpl map. split.
      * intros H. inversion H; subst. constructor; [reflexivity|now apply IH].
      * intros H. inversion H; subst. constructor; [reflexivity|now apply IH].
    + pose proof (split_char_not_nil nl s) as Hne.
      destruct (split [nl] s) as [|p ps] eqn:E; [contradiction|].
      simpl map in *. split.
      * intros H. inversion H as [|? ? Hp Hps]; subst.
        pose proof (tokens_nil_all_white _ Hp) as Hall.
        inversion Hall as [|? ? Hcw Hpw]; subst.
        constructor; [exact Hcw|]. apply IH.
        constructor; [now apply tokens_blank|exact Hps].
      * intros H. inversion H as [|? ? Hcw Hs]; subst.
        apply IH in Hs. inversion Hs as [|? ? Hp Hps]; subst.
        constructor; [|exact Hps].
        rewrite (tokens_white_cons c p Hcw). exact Hp.
Qed.

Lemma normal_form_blank (s : pystr) : normal_form s = [] <-> is_blank s.
Proof.
  unfold normal_form. rewrite drop_trailing_blank_nil. apply line_tokens_blank.
Qed.

(** ** The words of a text, read off the text *)

Lemma blank_prefix (s : pystr) :
  exists b rest,
    s = b ++ rest /\ is_blank b /\
    (rest = [] \/ exists c rest', rest = c :: rest' /\ is_white c = false).
Proof.
  induction s as [|c s (b & rest & -> & Hb & Hrest)].
  - exists [], []. repeat split; [constructor|now left].
  - destruct (is_white c) eqn:Hc.
    + exists (c :: b), rest. repeat split; [now constructor|exact Hrest].
    + exists [], (c :: b ++ rest). repeat split; [constructor|].
      right. now exists c, (b ++ rest).
Qed.

Lemma word_prefix (s : pystr) :
  exists w rest,
    s = w ++ rest /\ Forall (fun c => is_white c = false) w /\
    (rest = [] \/ exists c rest', rest = c :: rest' /\ is_white c = true).
Proof.
  induction s as [|c s (w & rest & -> & Hw & Hrest)].
  - exists [], []. repeat split; [constructor|now left].
  - destruct (is_white c) eqn:Hc.
    + exists [], (c :: w ++ rest). repeat split; [constructor|].
      right. now exists c, (w ++ rest).
    + exists (c :: w), rest. repeat split; [now constructor|exact Hrest].
Qed.

Lemma tokens_blank_app (b s : pystr) :
  is_blank b -> tokens (b ++ s) = tokens s.
Proof.
  induction 1 as [|c b Hc _ IH]; [reflexivity|].
  simpl app. now rewrite (tokens_white_cons c _ Hc).
Qed.

Lemma tokens_word_app (w rest : pystr) :
  is_word w ->
  (rest = [] \/ exists c rest', rest = c :: rest' /\ is_white c = true) ->
  tokens (w ++ rest) = w :: tokens rest.
Proof.
  intros Hw [->|(c & rest' & -> & Hc)].
  - now rewrite app_nil_r, tokens_nil, (tokens_word w Hw).
  - now rewrite (tokens_app_white w rest' c Hc), (tokens_white_cons c rest' Hc),
      (tokens_word w Hw).
Qed.

(** The words that [white_diff_canonicalize] joins are the words of the
    text. *)
Lemma words_of_tokens_aux (n : nat) :
  forall s : pystr, List.length s <= n -> words_of s (tokens s).
Proof.
  induction n as [|n IH]; intros s Hn.
  - destruct s; [|simpl in Hn; lia]. apply (words_none []). constructor.
  - destruct (blank_prefix s) as (b & rest & -> & Hb & Hrest).
    destruct Hrest as [->|(c & rest' & -> & Hc)].
    + rewrite app_nil_r, (tokens_blank b Hb). now apply words_none.
    + destruct (word_prefix rest') as (w & rest & -> & Hw & Hrest).
      assert (Hword : is_word (c :: w)) by (split; [discriminate|now constructor]).
      rewrite (tokens_blank_app b _ Hb).
      change (c :: w ++ rest) with ((c :: w) ++ rest).
      rewrite (tokens_word_app (c :: w) rest Hword Hrest).
      apply words_next; [exact Hb|exact Hword|exact Hrest|].
      apply IH. rewrite length_app in Hn. cbn [List.length] in Hn.
      rewrite length_app in Hn. lia.
Qed.

Lemma words_of_tokens (s : pystr) : words_of s (tokens s).
Proof. apply (words_of_tokens_aux (List.length s)). apply le_n. Qed.

Lemma words_of_unique (s : pystr) (ws : list pystr) :
  words_of s ws -> ws = tokens s.
Proof.
  induction 1 as [b Hb|b w rest ws Hb Hw Hrest _ IH].
  - now rewrite (tokens_blank b Hb).
  - now rewrite (tokens_blank_app b _ Hb), (tokens_word_app w rest Hw Hrest), IH.
Qed.

(** ** Runs of the driver *)

Lemma skipn_length_app {A : Type} (l l' : list A) :
  skipn (List.length l) (l ++ l') = l'.
Proof. induction l; simpl; auto. Qed.

Lemma skipn_length_self {A : Type} (l : list A) : skipn (List.length l) l = [].
Proof. induction l; simpl; auto. Qed.

Lemma update_nth_length {A : Type} (f : A -> A) (i : nat) :
  forall l l' : list A, update_nth i f l = Some l' -> List.length l' = List.length l.
Proof.
  induction i as [|i IH]; intros [|x l] l' H; simpl in H; try discriminate.
  - injection H as <-. reflexivity.
  - destruct (update_nth i f l) as [l1|] eqn:E; [|discriminate].
    injection H as <-. simpl. f_equal. now apply IH.
Qed.

Lemma update_nth_twice {A : Type} (f g : A -> A) (i : nat) (l l' : list A) :
  update_nth i f l = Some l' -> update_nth i g l' <> None.
Proof.
  revert l l'; induction i as [|i IH]; intros [|x l] l' H; simpl in H;
    try discriminate.
  - injection H as <-. discriminate.
  - destruct (update_nth i f l) as [l1|] eqn:E; [|discriminate].
    injection H as <-. simpl. specialize (IH l l1 E).
    destruct (update_nth i g l1); [discriminate|contradiction].
Qed.

Lemma update_nth_same {A : Type} (f : A -> A) (i : nat) :
  forall l l' : list A,
    update_nth i f l = Some l' ->
    exists x, nth_error l i = Some x /\ nth_error l' i = Some (f x).
Proof.
  induction i as [|i IH]; intros [|x l] l' H; simpl in H; try discriminate.
  - injection H as <-. now exists x.
  - destruct (update_nth i f l) as [l1|] eqn:E; [|discriminate].
    injection H as <-. simpl. now apply IH.
Qed.

Lemma update_nth_other {A : Type} (f : A -> A) (i j : nat) :
  forall l l' : list A,
    update_nth i f l = Some l' -> i <> j -> nth_error l' j = nth_error l j.
Proof.
  revert j; induction i as [|i IH]; intros j [|x l] l' H Hij; simpl in H;
    try discriminate.
  - injection H as <-. destruct j; [contradiction|reflexivity].
  - destruct (update_nth i f l) as [l1|] eqn:E; [|discriminate].
    injection H as <-. destruct j; [reflexivity|]. simpl. apply (IH j l l1 E). lia.
Qed.



#[local] Opaque white_diff of_int replace os_path_join Utf8.decode strip_ws str
  is_empty.

(** ** Rules for runs *)

Lemma after_ret {A : Type} (a : A) (d : Driver) (Q : result A -> Driver -> Prop) :
  Q (Return a) d -> after (ret a) d Q.
Proof. exact (fun H => H). Qed.

Lemma after_raise {A : Type} (e : exn) (d : Driver)
    (Q : result A -> Driver -> Prop) :
  Q (Raise e) d -> after (raise e) d Q.
Proof. exact (fun H => H). Qed.

Lemma after_bind {A B : Type} (m : M A) (k : A -> M B) (d : Driver)
    (Q : result B -> Driver -> Prop) :
  after m d (bind_post k Q) -> after (bind m k) d Q.
Proof.
  unfold after, bind_post, bind. destruct (m d) as [[a|e] d']; simpl; auto.
Qed.

Lemma bind_post_return {A B : Type} (k : A -> M B)
    (Q : result B -> Driver -> Prop) (a : A) (d : Driver) :
  after (k a) d Q -> bind_post k Q (Return a) d.
Proof. exact (fun H => H). Qed.

Lemma bind_post_raise {A B : Type} (k : A -> M B)
    (Q : result B -> Driver -> Prop) (e : exn) (d : Driver) :
  Q (Raise e) d -> bind_post k Q (Raise e) d.
Proof. exact (fun H => H). Qed.

Lemma after_get (d : Driver) (Q : result Driver -> Driver -> Prop) :
  Q (Return d) d -> after get d Q.
Proof. exact (fun H => H). Qed.

Lemma after_modify (f : Driver -> Driver) (d : Driver)
    (Q : result unit -> Driver -> Prop) :
  Q (Return tt) (f d) -> after (modify f) d Q.
Proof. exact (fun H => H). Qed.

Lemma after_of_option {A : Type} (e : exn) (o : option A) (d : Driver)
    (Q : result A -> Driver -> Prop) :
  (forall a, o = Some a -> Q (Return a) d) ->
  (o = None -> Q (Raise e) d) ->
  after (of_option e o) d Q.
Proof. destruct o as [a|]; intros H1 H2; [now apply H1|now apply H2]. Qed.

Lemma after_log (l : level) (m : pytext) (d : Driver)
    (Q : result unit -> Driver -> Prop) :
  Q (Return tt) (with_event (Log l m) d) -> after (log l m) d Q.
Proof. exact (fun H => H). Qed.

Lemma after_log_str (l : level) (m : pystr) (d : Driver)
    (Q : result unit -> Driver -> Prop) :
  Q (Return tt) (with_event (Log l (PStr m)) d) -> after (log_str l m) d Q.
Proof. exact (fun H => H). Qed.

Lemma with_events_frame (l : list Event) :
  forall d : Driver,
    submission (with_events l d) = submission d /\
    session (with_events l d) = session d /\
    sandbox (with_events l d) = sandbox d /\
    executable_filename (with_events l d) = executable_filename d /\
    constructed (with_events l d) = constructed d /\
    trace (with_events l d) = trace d ++ l.
Proof.
  induction l as [|e l IH]; intros d.
  - cbn. now rewrite app_nil_r.
  - change (with_events (e :: l) d) with (with_events l (with_event e d)).
    destruct (IH (with_event e d)) as (-> & -> & -> & -> & -> & ->).
    cbn. now rewrite <- app_assoc.
Qed.

Lemma submission_deleted (w : World) (d : Driver) :
  submission (deleted w d) = submission d.
Proof. apply with_events_frame. Qed.

Lemma session_deleted (w : World) (d : Driver) :
  session (deleted w d) = session d.
Proof. apply with_events_frame. Qed.

Lemma sandbox_deleted (w : World) (d : Driver) :
  sandbox (deleted w d) = sandbox d.
Proof. apply with_events_frame. Qed.

Lemma executable_filename_deleted (w : World) (d : Driver) :
  executable_filename (deleted w d) = executable_filename d.
Proof. apply with_events_frame. Qed.

Lemma constructed_deleted (w : World) (d : Driver) :
  constructed (deleted w d) = constructed d.
Proof. apply with_events_frame. Qed.

Lemma trace_deleted (w : World) (d : Driver) :
  trace (deleted w d) = trace d ++ delete_events w (sandbox d).
Proof. apply with_events_frame. Qed.

Lemma with_events_flat (l : list Event) :
  forall sub sess sb ef n tr,
    with_events l (Build_Driver sub sess sb ef n tr)
    = Build_Driver sub sess sb ef n (tr ++ l).
Proof.
  induction l as [|e l IH]; intros sub sess sb ef n tr.
  - cbn. now rewrite app_nil_r.
  - change (with_events (e :: l) (Build_Driver sub sess sb ef n tr))
      with (with_events l (Build_Driver sub sess sb ef n (tr ++ [e]))).
    rewrite IH, <- app_assoc. reflexivity.
Qed.

Lemma deleted_flat (w : World) sub sess sb ef n tr :
  deleted w (Build_Driver sub sess sb ef n tr)
  = Build_Driver sub sess sb ef n (tr ++ delete_events w sb).
Proof. unfold deleted. apply with_events_flat. Qed.

Lemma safe_delete_sandbox_eq (w : World) (d : Driver) :
  safe_delete_sandbox w d = (Return tt, deleted w d).
Proof.
  unfold safe_delete_sandbox, deleted, delete_events, bind, get, emit, modify,
    log_str, log, ret.
  cbn. destruct (sandbox d) as [s|]; [|reflexivity].
  destruct (keep_sandbox w); cbn; [reflexivity|].
  destruct (run_delete (sb_run s)); reflexivity.
Qed.

Lemma after_safe_delete_sandbox (w : World) (d : Driver)
    (Q : result unit -> Driver -> Prop) :
  Q (Return tt) (deleted w d) -> after (safe_delete_sandbox w) d Q.
Proof. unfold after. now rewrite safe_delete_sandbox_eq. Qed.

#[local] Opaque safe_delete_sandbox.

Section WithSandbox.

Variables (w : World) (d : Driver) (s : Sandbox).
Hypothesis Hs : sandbox d = Some s.

Lemma after_self_sandbox (Q : result Sandbox -> Driver -> Prop) :
  Q (Return s) d -> after self_sandbox d Q.
Proof.
  unfold after, self_sandbox, bind, get, of_option. rewrite Hs. exact (fun H => H).
Qed.

Lemma call_eq (c : SandboxCall) (raised : SandboxRun -> bool) :
  call c raised d
  = (Return (sb_run s), with_event (Call (sb_id s) c (raised (sb_run s))) d).
Proof.
  unfold call, self_sandbox, bind, get, of_option, emit, modify, ret.
  now rewrite Hs.
Qed.

Lemma after_set_attr (name : string) (v : Value)
    (Q : result unit -> Driver -> Prop) :
  Q (Return tt) (with_event (Call (sb_id s) (SetAttr name v) false) d) ->
  after (set_attr name v) d Q.
Proof. unfold after, set_attr, bind. rewrite call_eq. exact (fun H => H). Qed.

Lemma after_extend_attr (name : string) (l : list pystr)
    (Q : result unit -> Driver -> Prop) :
  Q (Return tt) (with_event (Call (sb_id s) (ExtendAttr name l) false) d) ->
  after (extend_attr name l) d Q.
Proof. unfold after, extend_attr, bind. rewrite call_eq. exact (fun H => H). Qed.

Lemma after_set_env (key value : pystr) (Q : result unit -> Driver -> Prop) :
  Q (Return tt) (with_event (Call (sb_id s) (SetEnv key value) false) d) ->
  after (set_env key value) d Q.
Proof. unfold after, set_env, bind. rewrite call_eq. exact (fun H => H). Qed.

Lemma after_safe_create_file_from_storage (name : pystr) (dg : digest)
    (executable : bool) (Q : result unit -> Driver -> Prop) :
  (run_create_file_from_storage (sb_run s) name dg executable = true ->
   Q (Return tt)
     (with_event
        (Call (sb_id s) (CreateFileFromStorage name dg executable) false) d)) ->
  (run_create_file_from_storage (sb_run s) name dg executable = false ->
   Q (Raise JobException)
     (deleted w
        (with_event
           (Log ERROR
              (PStr (str "Couldn't copy file `" ++ name ++ str "' in sandbox")))
           (with_event
              (Call (sb_id s) (CreateFileFromStorage name dg executable) true)
              d)))) ->
  after (safe_create_file_from_storage w name dg executable) d Q.
Proof.
  intros Hok Hko.
  unfold after, safe_create_file_from_storage, bind. rewrite call_eq.
  destruct (run_create_file_from_storage (sb_run s) name dg executable).
  - exact (Hok eq_refl).
  - unfold log_str, log, emit, modify. rewrite safe_delete_sandbox_eq.
    exact (Hko eq_refl).
Qed.

Lemma after_safe_get_file_to_storage (name msg : pystr)
    (Q : result digest -> Driver -> Prop) :
  (forall dg, run_get_file_to_storage (sb_run s) name msg = Some dg ->
   Q (Return dg)
     (with_event (Call (sb_id s) (GetFileToStorage name msg) false) d)) ->
  (run_get_file_to_storage (sb_run s) name msg = None ->
   Q (Raise JobException)
     (deleted w
        (with_event
           (Log ERROR
              (PStr (str "Coudln't send file `" ++ name ++ str "' to storage")))
           (with_event (Call (sb_id s) (GetFileToStorage name msg) true) d)))) ->
  after (safe_get_file_to_storage w name msg) d Q.
Proof.
  intros Hok Hko.
  unfold after, safe_get_file_to_storage, bind. rewrite call_eq.
  destruct (run_get_file_to_storage (sb_run s) name msg) as [dg|].
  - exact (Hok dg eq_refl).
  - unfold log_str, log, emit, modify. rewrite safe_delete_sandbox_eq.
    exact (Hko eq_refl).
Qed.

Lemma after_safe_get_file_to_string (name : pystr)
    (Q : result pystr -> Driver -> Prop) :
  (forall t, run_get_file_to_string (sb_run s) name 1024 = Some t ->
   Q (Return t)
     (with_event (Call (sb_id s) (GetFileToString name 1024) false) d)) ->
  (run_get_file_to_string (sb_run s) name 1024 = None ->
   Q (Raise JobException)
     (deleted w
        (with_event
           (Log ERROR
              (PStr (str "Couldn't retrieve file `" ++ name
                       ++ str "' from storage")))
           (with_event (Call (sb_id s) (GetFileToString name 1024) true) d)))) ->
  after (safe_get_file_to_string w name) d Q.
Proof.
  intros Hok Hko.
  unfold after, safe_get_file_to_string, bind. rewrite call_eq.
  destruct (run_get_file_to_string (sb_run s) name 1024) as [t|].
  - exact (Hok t eq_refl).
  - unfold log_str, log, emit, modify. rewrite safe_delete_sandbox_eq.
    exact (Hko eq_refl).
Qed.

Lemma after_safe_get_file (name : pystr) (Q : result pystr -> Driver -> Prop) :
  (forall f, run_get_file (sb_run s) name = Some f ->
   Q (Return f) (with_event (Call (sb_id s) (GetFile name) false) d)) ->
  (run_get_file (sb_run s) name = None ->
   Q (Raise JobException)
     (deleted w
        (with_event
           (Log ERROR
              (PStr (str "Couldn't retrieve file `" ++ name
                       ++ str "' from storage")))
           (with_event (Call (sb_id s) (GetFile name) true) d)))) ->
  after (safe_get_file w name) d Q.
Proof.
  intros Hok Hko.
  unfold after, safe_get_file, bind. rewrite call_eq.
  destruct (run_get_file (sb_run s) name) as [f|].
  - exact (Hok f eq_refl).
  - unfold log_str, log, emit, modify. rewrite safe_delete_sandbox_eq.
    exact (Hko eq_refl).
Qed.

Lemma after_safe_sandbox_execute (command : list pystr)
    (Q : result unit -> Driver -> Prop) :
  (run_execute (sb_run s) command = None ->
   Q (Return tt) (with_event (Call (sb_id s) (Execute command) false) d)) ->
  (forall e c0, run_execute (sb_run s) command = Some e ->
   hd_error command = Some c0 ->
   Q (Raise JobException)
     (deleted w
        (with_event
           (Log ERROR
              (PStr (str "Couldn't spawn `" ++ c0 ++ str "' (exception "
                       ++ e ++ str ")")))
           (with_event (Call (sb_id s) (Execute command) true) d)))) ->
  (forall e, run_execute (sb_run s) command = Some e ->
   hd_error command = None ->
   Q (Raise IndexError)
     (with_event (Call (sb_id s) (Execute command) true) d)) ->
  after (safe_sandbox_execute w command) d Q.
Proof.
  intros Hok Hko Hempty.
  unfold after, safe_sandbox_execute, bind. rewrite call_eq.
  destruct (run_execute (sb_run s) command) as [e|]; cbn.
  - unfold of_option. destruct (hd_error command) as [c0|] eqn:Hc.
    + unfold log_str, log, emit, modify, ret.
      rewrite safe_delete_sandbox_eq. exact (Hko e c0 eq_refl eq_refl).
    + exact (Hempty e eq_refl eq_refl).
  - exact (Hok eq_refl).
Qed.

End WithSandbox.

Lemma after_safe_create_sandbox (w : World) (d : Driver)
    (Q : result unit -> Driver -> Prop) :
  (forall r, new_sandbox w (constructed d) = inl r ->
   Q (Return tt)
     (with_sandbox {| sb_id := constructed d; sb_run := r |}
        (with_event (New (constructed d) false)
           (with_constructed (S (constructed d)) d)))) ->
  (forall e, new_sandbox w (constructed d) = inr e ->
   Q (Raise JobException)
     (deleted w
        (with_event
           (Log ERROR
              (PStr (str "Couldn't create sandbox (error: " ++ e ++ str ")")))
           (with_event (New (constructed d) true)
              (with_constructed (S (constructed d)) d))))) ->
  after (safe_create_sandbox w) d Q.
Proof.
  intros Hok Hko. unfold after, safe_create_sandbox, bind, get, modify. cbn.
  destruct (new_sandbox w (constructed d)) as [r|e].
  - exact (Hok r eq_refl).
  - unfold emit, log_str, log, modify. cbn. rewrite safe_delete_sandbox_eq.
    exact (Hko e eq_refl).
Qed.

Lemma after_finish_evaluation (success : bool) (d : Driver)
    (Q : result bool -> Driver -> Prop) :
  Q (Return success) d -> after (finish_evaluation success) d Q.
Proof. destruct success; exact (fun H => H). Qed.

Lemma after_finish_single_execution (w : World) (i : nat) (success : bool)
    (o : pyfloat) (t : pytext) (d : Driver) (Q : result bool -> Driver -> Prop) :
  (success = false -> Q (Return false) (deleted w d)) ->
  (success = true ->
   forall l l',
     update_nth i (set_text t) (evaluations (submission d)) = Some l ->
     update_nth i (set_outcome o) l = Some l' ->
     Q (Return true)
       (with_submission (set_evaluations l')
          (with_submission (set_evaluations l) (deleted w d)))) ->
  (success = true ->
   update_nth i (set_text t) (evaluations (submission d)) = None ->
   Q (Raise IndexError) (deleted w d)) ->
  after (finish_single_execution w i success o t) d Q.
Proof.
  intros Hfalse Htrue Hindex.
  unfold after, finish_single_execution, bind. rewrite safe_delete_sandbox_eq.
  destruct success; cbn; [|exact (Hfalse eq_refl)].
  unfold get, of_option, modify, ret. cbn. rewrite submission_deleted.
  destruct (update_nth i (set_text t) (evaluations (submission d)))
    as [l|] eqn:E1; cbn; [|exact (Hindex eq_refl eq_refl)].
  destruct (update_nth i (set_outcome o) l) as [l'|] eqn:E2; cbn.
  - exact (Htrue eq_refl l l' eq_refl E2).
  - exfalso. exact (update_nth_twice _ _ _ _ _ E1 E2).
Qed.

Lemma after_finish_compilation (w : World) (success compilation_success : bool)
    (text : pystr) (d : Driver) (Q : result bool -> Driver -> Prop) :
  (success = false -> Q (Return false) (deleted w d)) ->
  (success = true ->
   forall u, Utf8.decode text = Some u ->
     Q (Return true)
       (with_submission (set_compilation_text u)
          (with_submission
             (set_compilation_outcome
                (if compilation_success then str "ok" else str "fail"))
             (deleted w d)))) ->
  (success = true -> Utf8.decode text = None ->
   Q (Raise TypeError)
     (with_submission
        (set_compilation_outcome
           (if compilation_success then str "ok" else str "fail"))
        (deleted w d))) ->
  after (finish_compilation w success compilation_success text) d Q.
Proof.
  intros Hfalse Htrue Htype.
  unfold after, finish_compilation, bind. rewrite safe_delete_sandbox_eq.
  destruct success; cbn; [|exact (Hfalse eq_refl)].
  unfold modify, ret, raise. cbn.
  destruct (Utf8.decode text) as [u|] eqn:E; cbn.
  - exact (Htrue eq_refl u eq_refl).
  - exact (Htype eq_refl eq_refl).
Qed.

#[local] Transparent safe_delete_sandbox.

Lemma after_finish_single_execution_false (w : World) (i : nat) (o : pyfloat)
    (t : pytext) (d : Driver) (Q : result bool -> Driver -> Prop) :
  Q (Return false) (deleted w d) ->
  after (finish_single_execution w i false o t) d Q.
Proof.
  intros H. apply after_finish_single_execution; try discriminate. now intros _.
Qed.

Lemma after_finish_single_execution_true (w : World) (i : nat) (o : pyfloat)
    (t : pytext) (d : Driver) (Q : result bool -> Driver -> Prop) :
  (forall l l',
     update_nth i (set_text t) (evaluations (submission d)) = Some l ->
     update_nth i (set_outcome o) l = Some l' ->
     Q (Return true)
       (with_submission (set_evaluations l')
          (with_submission (set_evaluations l) (deleted w d)))) ->
  (update_nth i (set_text t) (evaluations (submission d)) = None ->
   Q (Raise IndexError) (deleted w d)) ->
  after (finish_single_execution w i true o t) d Q.
Proof.
  intros H1 H2. apply after_finish_single_execution; try discriminate.
  - intros _. exact H1.
  - intros _. exact H2.
Qed.

Lemma after_finish_compilation_false (w : World) (c : bool) (text : pystr)
    (d : Driver) (Q : result bool -> Driver -> Prop) :
  Q (Return false) (deleted w d) ->
  after (finish_compilation w false c text) d Q.
Proof.
  intros H. apply after_finish_compilation; try discriminate. now intros _.
Qed.

Lemma after_finish_compilation_true (w : World) (c : bool) (text : pystr)
    (d : Driver) (Q : result bool -> Driver -> Prop) :
  (forall u, Utf8.decode text = Some u ->
     Q (Return true)
       (with_submission (set_compilation_text u)
          (with_submission
             (set_compilation_outcome (if c then str "ok" else str "fail"))
             (deleted w d)))) ->
  (Utf8.decode text = None ->
   Q (Raise TypeError)
     (with_submission
        (set_compilation_outcome (if c then str "ok" else str "fail"))
        (deleted w d))) ->
  after (finish_compilation w true c text) d Q.
Proof.
  intros H1 H2. apply after_finish_compilation; try discriminate.
  - intros _. exact H1.
  - intros _. exact H2.
Qed.

(** The state of a run is kept as a record of its six components. *)
Ltac flat :=
  cbv beta delta [with_event with_sandbox with_constructed with_submission
                  with_session with_executable_filename];
  cbn [submission session sandbox executable_filename constructed trace
       sb_id sb_run task files executables evaluations sub_id
       compilation_outcome compilation_text];
  rewrite ?deleted_flat.

(** One step of a run: the rule of the statement the run is at. *)
Ltac step1 :=
  lazymatch goal with
  | |- after (bind _ _) _ _ => apply after_bind
  | |- bind_post _ _ (Return _) _ => apply bind_post_return; cbv beta
  | |- bind_post _ _ (Raise _) _ => apply bind_post_raise
  | |- after (ret _) _ _ => apply after_ret
  | |- after (raise _) _ _ => apply after_raise
  | |- after get _ _ => apply after_get
  | |- after (modify _) _ _ => apply after_modify
  | |- after (of_option _ _) _ _ => apply after_of_option; [intros ? ?|intros ?]
  | |- after (log_str _ _) _ _ => apply after_log_str
  | |- after (log _ _) _ _ => apply after_log
  | |- after self_sandbox _ _ => eapply after_self_sandbox; [reflexivity|]
  | |- after (set_attr _ _) _ _ => eapply after_set_attr; [reflexivity|]
  | |- after (extend_attr _ _) _ _ => eapply after_extend_attr; [reflexivity|]
  | |- after (set_env _ _) _ _ => eapply after_set_env; [reflexivity|]
  | |- after (safe_delete_sandbox _) _ _ => apply after_safe_delete_sandbox
  | |- after (safe_create_sandbox _) _ _ =>
      apply after_safe_create_sandbox; [intros ? ?|intros ? ?]
  | |- after (safe_create_file_from_storage _ _ _ _) _ _ =>
      eapply after_safe_create_file_from_storage; [reflexivity|intros ?|intros ?]
  | |- after (safe_get_file_to_storage _ _ _) _ _ =>
      eapply after_safe_get_file_to_storage; [reflexivity|intros ? ?|intros ?]
  | |- after (safe_get_file_to_string _ _) _ _ =>
      eapply after_safe_get_file_to_string; [reflexivity|intros ? ?|intros ?]
  | |- after (safe_get_file _ _) _ _ =>
      eapply after_safe_get_file; [reflexivity|intros ? ?|intros ?]
  | |- after (safe_sandbox_execute _ _) _ _ =>
      eapply after_safe_sandbox_execute;
      [reflexivity|intros ?|intros ? ? ? ?|intros ? ? ?]
  | |- after (finish_single_execution _ _ false _ _) _ _ =>
      apply after_finish_single_execution_false
  | |- after (finish_single_execution _ _ true _ _) _ _ =>
      apply after_finish_single_execution_true; [intros ? ? ? ?|intros ?]
  | |- after (finish_compilation _ false _ _) _ _ =>
      apply after_finish_compilation_false
  | |- after (finish_compilation _ true _ _) _ _ =>
      apply after_finish_compilation_true; [intros ? ?|intros ?]
  | |- after (finish_evaluation _) _ _ => apply after_finish_evaluation
  | |- after (if ?c then _ else _) _ _ => destruct c eqn:?
  | |- after (match ?x with _ => _ end) _ _ => destruct x eqn:?
  | |- after _ _ _ => progress cbv zeta
  end.

Ltac step := step1; flat.

Ltac walk := repeat step.

Lemma delete_events_quiet (w : World) (sb : option Sandbox) :
  existsb io_error (delete_events w sb) = false /\
  forall id, filter (is_execute_on id) (delete_events w sb) = [].
Proof.
  unfold delete_events. destruct sb as [s|]; [|now split].
  destruct (keep_sandbox w); [now split|].
  destruct (run_delete (sb_run s)); now split.
Qed.

Lemma new_events_app (d d' : Driver) (l : list Event) :
  trace d' = trace d ++ l -> new_events d d' = l.
Proof. unfold new_events. intros ->. apply skipn_length_app. Qed.

(** ** Rules for a run that follows one path *)

Lemma after_if_true {A : Type} (c : bool) (m1 m2 : M A) (d : Driver)
    (Q : result A -> Driver -> Prop) :
  c = true -> after m1 d Q -> after (if c then m1 else m2) d Q.
Proof. now intros ->. Qed.

Lemma after_if_false {A : Type} (c : bool) (m1 m2 : M A) (d : Driver)
    (Q : result A -> Driver -> Prop) :
  c = false -> after m2 d Q -> after (if c then m1 else m2) d Q.
Proof. now intros ->. Qed.

Lemma after_of_option_some {A : Type} (e : exn) (o : option A) (a : A)
    (d : Driver) (Q : result A -> Driver -> Prop) :
  o = Some a -> Q (Return a) d -> after (of_option e o) d Q.
Proof. now intros ->. Qed.

Lemma after_safe_create_sandbox_ok (w : World) (d : Driver) (r : SandboxRun)
    (Q : result unit -> Driver -> Prop) :
  new_sandbox w (constructed d) = inl r ->
  Q (Return tt)
    (with_sandbox {| sb_id := constructed d; sb_run := r |}
       (with_event (New (constructed d) false)
          (with_constructed (S (constructed d)) d))) ->
  after (safe_create_sandbox w) d Q.
Proof.
  intros Hr HQ. apply after_safe_create_sandbox.
  - intros r' Hr'. rewrite Hr in Hr'. now injection Hr' as <-.
  - intros e He. rewrite Hr in He. discriminate He.
Qed.

Section OnPath.

Variables (w : World) (d : Driver) (s : Sandbox).
Hypothesis Hs : sandbox d = Some s.

Lemma after_safe_create_file_from_storage_ok (name : pystr) (dg : digest)
    (executable : bool) (Q : result unit -> Driver -> Prop) :
  run_create_file_from_storage (sb_run s) name dg executable = true ->
  Q (Return tt)
    (with_event
       (Call (sb_id s) (CreateFileFromStorage name dg executable) false) d) ->
  after (safe_create_file_from_storage w name dg executable) d Q.
Proof.
  intros Hok HQ. apply (after_safe_create_file_from_storage w d s Hs).
  - now intros _.
  - intros Hko. rewrite Hok in Hko. discriminate Hko.
Qed.

Lemma after_safe_get_file_to_storage_ok (name msg : pystr) (dg : digest)
    (Q : result digest -> Driver -> Prop) :
  run_get_file_to_storage (sb_run s) name msg = Some dg ->
  Q (Return dg)
    (with_event (Call (sb_id s) (GetFileToStorage name msg) false) d) ->
  after (safe_get_file_to_storage w name msg) d Q.
Proof.
  intros Hok HQ. apply (after_safe_get_file_to_storage w d s Hs).
  - intros dg' H'. rewrite Hok in H'. now injection H' as <-.
  - intros Hko. rewrite Hok in Hko. discriminate Hko.
Qed.

Lemma after_safe_get_file_to_string_ok (name t : pystr)
    (Q : result pystr -> Driver -> Prop) :
  run_get_file_to_string (sb_run s) name 1024 = Some t ->
  Q (Return t)
    (with_event (Call (sb_id s) (GetFileToString name 1024) false) d) ->
  after (safe_get_file_to_string w name) d Q.
Proof.
  intros Hok HQ. apply (after_safe_get_file_to_string w d s Hs).
  - intros t' H'. rewrite Hok in H'. now injection H' as <-.
  - intros Hko. rewrite Hok in Hko. discriminate Hko.
Qed.

Lemma after_safe_get_file_ok (name f : pystr)
    (Q : result pystr -> Driver -> Prop) :
  run_get_file (sb_run s) name = Some f ->
  Q (Return f) (with_event (Call (sb_id s) (GetFile name) false) d) ->
  after (safe_get_file w name) d Q.
Proof.
  intros Hok HQ. apply (after_safe_get_file w d s Hs).
  - intros f' H'. rewrite Hok in H'. now injection H' as <-.
  - intros Hko. rewrite Hok in Hko. discriminate Hko.
Qed.

Lemma after_safe_sandbox_execute_ok (command : list pystr)
    (Q : result unit -> Driver -> Prop) :
  run_execute (sb_run s) command = None ->
  Q (Return tt) (with_event (Call (sb_id s) (Execute command) false) d) ->
  after (safe_sandbox_execute w command) d Q.
Proof.
  intros Hok HQ. apply (after_safe_sandbox_execute w d s Hs).
  - now intros _.
  - intros e c0 He. rewrite Hok in He. discriminate He.
  - intros e He. rewrite Hok in He. discriminate He.
Qed.

End OnPath.

Lemma after_finish_compilation_decoded (w : World) (c : bool) (text : pystr)
    (u : ustr) (d : Driver) (Q : result bool -> Driver -> Prop) :
  Utf8.decode text = Some u ->
  Q (Return true)
    (with_submission (set_compilation_text u)
       (with_submission
          (set_compilation_outcome (if c then str "ok" else str "fail"))
          (deleted w d))) ->
  after (finish_compilation w true c text) d Q.
Proof.
  intros Hu HQ. apply after_finish_compilation_true.
  - intros u' Hu'. rewrite Hu in Hu'. now injection Hu' as <-.
  - intros Hko. rewrite Hu in Hko. discriminate Hko.
Qed.

Lemma after_finish_compilation_undecodable (w : World) (c : bool)
    (text : pystr) (d : Driver) (Q : result bool -> Driver -> Prop) :
  Utf8.decode text = None ->
  Q (Raise TypeError)
    (with_submission
       (set_compilation_outcome (if c then str "ok" else str "fail"))
       (deleted w d)) ->
  after (finish_compilation w true c text) d Q.
Proof.
  intros Hu HQ. apply after_finish_compilation_true.
  - intros u' Hu'. rewrite Hu in Hu'. discriminate Hu'.
  - now intros _.
Qed.

(** A fact about the answers of the world, from what is known of them. *)
Ltac from_known :=
  cbn [negb andb orb exit_status_eqb Z.eqb Pos.eqb Nat.eqb List.length hd_error
       dict_keys dict_get map fst snd sb_run sb_id];
  rewrite ?eqb_refl;
  repeat match goal with
         | H : ?l = _ |- context [?l] => rewrite H
         end;
  cbn [negb andb orb exit_status_eqb Z.eqb Pos.eqb Nat.eqb];
  first [reflexivity | eassumption].

Ltac follow1 :=
  lazymatch goal with
  | |- after (if _ then _ else _) _ _ =>
      first [ apply after_if_true; [solve [from_known]|]
            | apply after_if_false; [solve [from_known]|] ]
  | |- after (of_option _ _) _ _ =>
      eapply after_of_option_some; [solve [from_known]|]
  | |- after (safe_create_sandbox _) _ _ =>
      eapply after_safe_create_sandbox_ok; [solve [from_known]|]
  | |- after (safe_create_file_from_storage _ _ _ _) _ _ =>
      eapply after_safe_create_file_from_storage_ok;
      [reflexivity|solve [from_known]|]
  | |- after (safe_get_file_to_storage _ _ _) _ _ =>
      eapply after_safe_get_file_to_storage_ok;
      [reflexivity|solve [from_known]|]
  | |- after (safe_get_file_to_string _ _) _ _ =>
      eapply after_safe_get_file_to_string_ok;
      [reflexivity|solve [from_known]|]
  | |- after (safe_get_file _ _) _ _ =>
      eapply after_safe_get_file_ok; [reflexivity|solve [from_known]|]
  | |- after (safe_sandbox_execute _ _) _ _ =>
      eapply after_safe_sandbox_execute_ok; [reflexivity|solve [from_known]|]
  | |- after (finish_compilation _ true _ _) _ _ =>
      first [ eapply after_finish_compilation_decoded; [solve [from_known]|]
            | eapply after_finish_compilation_undecodable;
              [solve [from_known]|] ]
  | |- _ => step1
  end.

Ltac follow := repeat (follow1; flat; cbn [sb_run sb_id]).

Ltac tidy :=
  cbn [sb_run sb_id constructed submission session sandbox executable_filename
       trace set_evaluations set_compilation_outcome set_compilation_text
       set_executables link_executable task files executables evaluations
       sub_id compilation_outcome compilation_text] in *.

Lemma execute_single_state (w : World) (i : nat) (d : Driver) :
  after (execute_single w i) d (fun r d' =>
    task (submission d') = task (submission d) /\
    executables (submission d') = executables (submission d) /\
    executable_filename d' = executable_filename d /\
    session d' = session d /\
    (r <> Return true ->
     evaluations (submission d') = evaluations (submission d)) /\
    (r = Return true ->
     exists o t l,
       verdict_source w d o /\
       update_nth i (set_text t) (evaluations (submission d)) = Some l /\
       update_nth i (set_outcome o) l = Some (evaluations (submission d')))).
Proof.
  destruct d as [sub sess sb ef n tr].
  unfold execute_single. walk.
  all: tidy.
  all: repeat split; try reflexivity; try discriminate.
  all: try (intros Hne; exfalso; apply Hne; reflexivity).
  all: intros _; do 3 eexists; (split; [|split; eassumption]).
  all: unfold verdict_source.
  all: try (left; reflexivity); try (right; left; reflexivity).
  all: right; right; split.
  all: try (intros E;
            match goal with
            | H : Nat.eqb _ 0 = false |- _ => tidy; rewrite E in H; discriminate H
            end).
  all: do 2 eexists; repeat split; tidy; eassumption.
Qed.

Lemma delete_events_no_io_error (w : World) (sb : option Sandbox) :
  existsb io_error (delete_events w sb) = false.
Proof. apply delete_events_quiet. Qed.

Lemma delete_events_no_execute (w : World) (sb : option Sandbox) (id : nat) :
  filter (is_execute_on id) (delete_events w sb) = [].
Proof. apply delete_events_quiet. Qed.

(** The events of a run, read off the trace it has reached. *)
Ltac events :=
  unfold new_events, executions; cbn [trace];
  rewrite <- ?app_assoc;
  first [rewrite skipn_length_app | rewrite skipn_length_self];
  rewrite ?existsb_app, ?filter_app, ?length_app,
    ?delete_events_no_io_error, ?delete_events_no_execute;
  cbn [existsb io_error filter is_execute_on List.length app orb Nat.add].

Ltac events_leaf n :=
  lazymatch goal with
  | H : hd_error (_ :: _) = None |- _ => discriminate H
  | |- existsb _ _ = true -> _ =>
      events;
      let Hio := fresh "Hio" in
      intros Hio; first [reflexivity | discriminate Hio]
  | |- forall id : nat, _ =>
      intros id; intros; events;
      destruct (Nat.eqb_spec id n);
      cbn [List.length app Nat.add];
      first [lia | contradiction
            | match goal with
              | H : managers _ = [], H' : Nat.eqb (List.length _) 0 = false |- _ =>
                  rewrite H in H'; discriminate H'
              end]
  end.

Lemma execute_single_events (w : World) (i : nat) (d : Driver) :
  after (execute_single w i) d (fun r d' =>
    (existsb io_error (new_events d d') = true -> r = Raise JobException) /\
    (forall id, executions id (new_events d d') <= 2) /\
    (forall id, managers (task (submission d)) = [] ->
                executions id (new_events d d') <= 1) /\
    (forall id, id <> constructed d -> executions id (new_events d d') = 0)).
Proof.
  destruct d as [sub sess sb ef n tr].
  unfold execute_single. walk.
  all: tidy.
  all: repeat split.
  all: events_leaf n.
Qed.

Lemma hd_error_none {A : Type} (l : list A) : hd_error l = None -> l = [].
Proof. destruct l; [reflexivity|discriminate]. Qed.

Lemma compile_events (w : World) (d : Driver) :
  after (compile w) d (fun r d' =>
    ((forall language source executable,
        get_compilation_command w language source executable <> []) ->
     existsb io_error (new_events d d') = true -> r = Raise JobException) /\
    (forall id, executions id (new_events d d') <= 1) /\
    (forall id, id <> constructed d -> executions id (new_events d d') = 0)).
Proof.
  destruct d as [sub sess sb ef n tr].
  unfold compile. walk.
  all: tidy.
  all: repeat split.
  all: try (events_leaf n).
  all: intros Hcommand;
    first [ exfalso;
            match goal with
            | H : hd_error _ = None |- _ =>
                exact (Hcommand _ _ _ (hd_error_none _ H))
            end
          | events_leaf n ].
Qed.

Lemma compile_success_run (w : World) (d : Driver)
    (language source_filename : pystr) (run : SandboxRun)
    (stdout stderr : pystr) (dg : digest) (u : ustr) :
  compile_reports w d language source_filename run stdout stderr ->
  run_exit_status run = EXIT_OK ->
  run_exit_code run = 0%Z ->
  run_get_file_to_storage run (executable_of language source_filename)
    (executable_description (executable_of language source_filename)
       (sub_id (submission d))) = Some dg ->
  Utf8.decode (compilation_report (str "OK ") (run_stats run) stdout stderr)
    = Some u ->
  after (compile w) d (fun r d' =>
    r = Return true /\
    session d' =
      session d ++ [StagedExecutable
                      {| ex_digest := dg;
                         ex_filename := executable_of language source_filename;
                         ex_submission := sub_id (submission d) |}] /\
    compilation_outcome (submission d') = Some (str "ok") /\
    compilation_text (submission d') = Some u /\
    In (Call (constructed d)
          (GetFileToStorage (executable_of language source_filename)
             (executable_description (executable_of language source_filename)
                (sub_id (submission d))))
          false)
       (new_events d d')).
Proof.
  destruct d as [sub sess sb ef n tr]. destruct sub as [id tk fl ex ev co ct].
  unfold compile_reports. cbn [files submission constructed sub_id].
  intros (source_digest & Hvalid & -> & Hnew & Hstage & Hexecute & Hstdout
          & Hstderr) Hstatus Hcode Hstore Hdecode.
  unfold compilation_report, shown, executable_of, executable_description in *.
  unfold compile. rewrite Hvalid.
  follow.
  tidy. repeat split.
  unfold new_events. cbn [trace]. rewrite <- ?app_assoc, skipn_length_app.
  cbn [app In]. repeat (first [left; reflexivity | right]).
Qed.

Lemma compile_sandbox_error_run (w : World) (d : Driver)
    (language source_filename : pystr) (run : SandboxRun)
    (stdout stderr : pystr) :
  compile_reports w d language source_filename run stdout stderr ->
  run_exit_status run = EXIT_SANDBOX_ERROR ->
  after (compile w) d (fun r d' =>
    r = Return false /\ submission d' = submission d).
Proof.
  destruct d as [sub sess sb ef n tr]. destruct sub as [id tk fl ex ev co ct].
  unfold compile_reports. cbn [files submission constructed sub_id].
  intros (source_digest & Hvalid & -> & Hnew & Hstage & Hexecute & Hstdout
          & Hstderr) Hstatus.
  unfold executable_of in *.
  unfold compile. rewrite Hvalid.
  follow.
  tidy. now split.
Qed.

Lemma execute_single_sandbox_error_run (w : World) (i : nat) (d : Driver)
    (run : SandboxRun) (testcase : Testcase) :
  candidate_reports w i d run testcase ->
  run_exit_status run = EXIT_SANDBOX_ERROR ->
  after (execute_single w i) d (fun r d' =>
    r = Return false /\ submission d' = submission d).
Proof.
  destruct d as [sub sess sb ef n tr].
  unfold candidate_reports.
  cbn [submission constructed executable_filename].
  intros (exe & exe_dg & Hnew & -> & Hdg & Hexe & Htc & Hinput & Hexecute)
    Hstatus.
  unfold execute_single.
  follow.
  tidy. now split.
Qed.

Lemma execute_single_unparseable_run (w : World) (i : nat) (d : Driver)
    (run : SandboxRun) (stdout_file stderr_file : text_line) :
  manager_reports w i d run stdout_file stderr_file ->
  unparseable w stdout_file stderr_file ->
  after (execute_single w i) d (fun r d' =>
    r = Return false /\ submission d' = submission d).
Proof.
  destruct d as [sub sess sb ef n tr].
  unfold manager_reports, candidate_reports, unparseable.
  cbn [submission constructed executable_filename].
  intros (tc & m & mdg
          & (exe & exe_dg & Hnew & -> & Hdg & Hexe & Htc & Hinput & Hexecute)
          & Hstatus & Houtput & Hres & Hm & Hmdg & Hmstage & Hmexecute
          & Hstdout & Hstderr) Hbad.
  assert (Hmanagers : Nat.eqb (List.length (managers (task sub))) 0 = false).
  { destruct (managers (task sub)); [discriminate Hm|reflexivity]. }
  unfold execute_single.
  destruct stdout_file as [outcome|e]; [destruct stderr_file as [text|e]|].
  all: follow.
  all: tidy; now split.
Qed.

(** ** Runs that end with an exception *)

Ltac known_leaf :=
  tidy;
  first [ repeat split; reflexivity
        | exfalso;
          match goal with
          | H1 : ?x = None, H2 : ?x = Some _ |- _ =>
              rewrite H1 in H2; discriminate H2
          end ].

Lemma compile_store_refuses_run (w : World) (d : Driver)
    (language source_filename : pystr) (run : SandboxRun)
    (stdout stderr : pystr) :
  compile_reports w d language source_filename run stdout stderr ->
  run_exit_status run = EXIT_OK ->
  run_exit_code run = 0%Z ->
  run_get_file_to_storage run (executable_of language source_filename)
    (executable_description (executable_of language source_filename)
       (sub_id (submission d))) = None ->
  after (compile w) d (fun r d' =>
    r = Raise JobException /\
    submission d' = submission d /\
    session d' = session d).
Proof.
  destruct d as [sub sess sb ef n tr]. destruct sub as [id tk fl ex ev co ct].
  unfold compile_reports. cbn [files submission constructed sub_id].
  intros (source_digest & Hvalid & -> & Hnew & Hstage & Hexecute & Hstdout
          & Hstderr) Hstatus Hcode Hstore.
  unfold executable_of, executable_description in *.
  unfold compile. rewrite Hvalid.
  follow.
  all: walk.
  all: known_leaf.
Qed.

Lemma execute_single_unopenable_run (w : World) (i : nat) (d : Driver)
    (run : SandboxRun) :
  manager_ran w i d run ->
  run_codecs_open run (os_path_join (run_path run) (str "manager_stdout.txt"))
    = None \/
  run_codecs_open run (os_path_join (run_path run) (str "manager_stderr.txt"))
    = None ->
  after (execute_single w i) d (fun r d' =>
    r = Raise IOError /\ submission d' = submission d).
Proof.
  destruct d as [sub sess sb ef n tr].
  unfold manager_ran, candidate_reports.
  cbn [submission constructed executable_filename].
  intros (tc & m & mdg
          & (exe & exe_dg & Hnew & -> & Hdg & Hexe & Htc & Hinput & Hexecute)
          & Hstatus & Houtput & Hres & Hm & Hmdg & Hmstage & Hmexecute)
    Hclosed.
  assert (Hmanagers : Nat.eqb (List.length (managers (task sub))) 0 = false).
  { destruct (managers (task sub)); [discriminate Hm|reflexivity]. }
  unfold execute_single.
  destruct (run_codecs_open run
              (os_path_join (run_path run) (str "manager_stdout.txt")))
    as [stdout_file|] eqn:Hstdout.
  - destruct Hclosed as [Hclosed|Hstderr]; [discriminate Hclosed|].
    follow.
    all: walk.
    all: known_leaf.
  - follow.
    all: walk.
    all: known_leaf.
Qed.

(** ** The loop of [execute] *)

Lemma has_verdict_updated (i j : nat) (o : pyfloat) (t : pytext)
    (d d' : Driver) (l : list Evaluation) :
  update_nth i (set_text t) (evaluations (submission d)) = Some l ->
  update_nth i (set_outcome o) l = Some (evaluations (submission d')) ->
  List.length (evaluations (submission d'))
    = List.length (evaluations (submission d)) /\
  has_verdict i d' /\
  (has_verdict j d -> has_verdict j d').
Proof.
  intros H1 H2. split; [|split].
  - rewrite (update_nth_length _ _ _ _ H2). apply (update_nth_length _ _ _ _ H1).
  - destruct (update_nth_same _ _ _ _ H1) as (x & _ & Hx).
    destruct (update_nth_same _ _ _ _ H2) as (y & Hy & Hy').
    rewrite Hx in Hy. injection Hy as <-.
    unfold has_verdict, outcome_at, text_at. rewrite Hy'. cbn. split; discriminate.
  - destruct (Nat.eq_dec i j) as [<-|Hij].
    + intros _.
      destruct (update_nth_same _ _ _ _ H1) as (x & _ & Hx).
      destruct (update_nth_same _ _ _ _ H2) as (y & Hy & Hy').
      rewrite Hx in Hy. injection Hy as <-.
      unfold has_verdict, outcome_at, text_at. rewrite Hy'. cbn.
      split; discriminate.
    + unfold has_verdict, outcome_at, text_at.
      rewrite (update_nth_other _ _ _ _ _ H2 Hij),
        (update_nth_other _ _ _ _ _ H1 Hij).
      exact (fun H => H).
Qed.

(** One test case: the task and the number of evaluations stay, no verdict
    is lost, and a [True] result leaves a verdict at [i]. *)
Lemma execute_single_verdict (w : World) (i : nat) (d : Driver) :
  let r := fst (execute_single w i d) in
  let d' := snd (execute_single w i d) in
  task (submission d') = task (submission d) /\
  List.length (evaluations (submission d'))
    = List.length (evaluations (submission d)) /\
  (forall j, has_verdict j d -> has_verdict j d') /\
  (r = Return true -> has_verdict i d').
Proof.
  intros r d'.
  destruct (execute_single_state w i d) as (Htask & _ & _ & _ & Hkeep & Hset).
  fold r in Hkeep, Hset. fold d' in Htask, Hkeep, Hset.
  split; [exact Htask|].
  assert (Hcases : r = Return true \/ r <> Return true).
  { destruct r as [[|]|e]; [now left|right; discriminate|right; discriminate]. }
  destruct Hcases as [Htrue|Hother].
  - destruct (Hset Htrue) as (o & t & l & _ & H1 & H2).
    destruct (has_verdict_updated i i o t d d' l H1 H2) as (Hlen & Hi & _).
    split; [exact Hlen|]. split; [|now intros _].
    intros j. apply (proj2 (proj2 (has_verdict_updated i j o t d d' l H1 H2))).
  - specialize (Hkeep Hother).
    split; [now rewrite Hkeep|]. split.
    + intros j. unfold has_verdict, outcome_at, text_at. now rewrite Hkeep.
    + intros Htrue. contradiction.
Qed.

Lemma execute_testcases_verdicts (w : World) (l : list nat) :
  forall d d' : Driver,
    execute_testcases w l d = (Return true, d') ->
    task (submission d') = task (submission d) /\
    List.length (evaluations (submission d'))
      = List.length (evaluations (submission d)) /\
    (forall j, has_verdict j d -> has_verdict j d') /\
    (forall j, In j l -> has_verdict j d').
Proof.
  induction l as [|i l IH]; intros d d' H.
  - cbn in H. injection H as <-.
    split; [reflexivity|]. split; [reflexivity|].
    split; [intros j Hj; exact Hj|intros j []].
  - cbn [execute_testcases] in H. unfold bind in H.
    pose proof (execute_single_verdict w i d) as Hone.
    destruct (execute_single w i d) as [[success|e] d1]; [|discriminate H].
    cbn [fst snd] in Hone. destruct Hone as (Htask & Hlen & Hkeep & Hset).
    destruct success; cbn [negb] in H; [|discriminate H].
    destruct (IH d1 d' H) as (Htask' & Hlen' & Hkeep' & Hall).
    split; [now rewrite Htask'|]. split; [now rewrite Hlen'|]. split.
    + intros j Hj. apply Hkeep', Hkeep, Hj.
    + intros j [<-|Hj]; [apply Hkeep', Hset; reflexivity|apply Hall, Hj].
Qed.

Lemma add_evaluations_appends (l : list nat) :
  forall d : Driver,
    fst (add_evaluations l d) = Return tt /\
    task (submission (snd (add_evaluations l d))) = task (submission d) /\
    List.length (evaluations (submission (snd (add_evaluations l d))))
      = List.length (evaluations (submission d)) + List.length l.
Proof.
  induction l as [|i l IH]; intros d.
  - cbn. repeat split. lia.
  - cbn [add_evaluations]. unfold bind, get, modify. cbn [fst snd].
    destruct (IH (with_session
                    (fun l0 => l0 ++ [StagedEvaluation
                                        (List.length (evaluations (submission d)))])
                    (with_submission
                       (link_evaluation
                          {| ev_num := i; ev_outcome := None; ev_text := None |})
                       d)))
      as (H1 & H2 & H3).
    split; [exact H1|]. split; [exact H2|].
    rewrite H3. cbn. rewrite length_app. cbn. lia.
Qed.

Lemma execute_verdicts (w : World) (d d' : Driver) :
  execute w d = (Return true, d') ->
  task (submission d') = task (submission d) /\
  List.length (evaluations (submission d'))
    = Nat.max (List.length (evaluations (submission d)))
              (List.length (testcases (task (submission d)))) /\
  forall i, i < List.length (testcases (task (submission d))) ->
            has_verdict i d'.
Proof.
  unfold execute, bind, get. cbn [fst snd].
  destruct (negb (Nat.eqb (List.length (executables (submission d))) 1)).
  - unfold log_str, log, emit, modify, finish_evaluation. cbn. discriminate.
  - unfold of_option.
    destruct (hd_error (dict_keys (executables (submission d)))) as [k|];
      [|discriminate].
    unfold ret, modify. cbn [fst snd].
    set (d1 := with_executable_filename k d).
    pose proof (add_evaluations_appends
                  (xrange (List.length (evaluations (submission d)))
                          (List.length (testcases (task (submission d)))))
                  d1) as (Hret & Htask & Hlen).
    destruct (add_evaluations _ d1) as [[[]|e] d2]; [|discriminate Hret].
    cbn [fst snd] in Htask, Hlen. intros H.
    destruct (execute_testcases_verdicts w _ d2 d' H)
      as (Htask' & Hlen' & _ & Hall).
    split; [now rewrite Htask', Htask|]. split.
    + rewrite Hlen', Hlen. unfold xrange. rewrite length_seq.
      change (evaluations (submission d1)) with (evaluations (submission d)).
      lia.
    + intros i Hi. apply Hall. unfold xrange. apply in_seq. lia.
Qed.

(** ** The exit code of the candidate program *)

Lemma both_bind {A A' B B' : Type} (m1 : M A) (k1 : A -> M B) (d1 : Driver)
    (m2 : M A') (k2 : A' -> M B') (d2 : Driver)
    (Q : result B -> Driver -> result B' -> Driver -> Prop) :
  both m1 d1 m2 d2 (both_post k1 k2 Q) ->
  both (bind m1 k1) d1 (bind m2 k2) d2 Q.
Proof.
  unfold both, after, both_post, bind.
  destruct (m1 d1) as [[a1|x] e1]; destruct (m2 d2) as [[a2|y] e2];
    exact (fun H => H).
Qed.

Lemma after_finish_single_execution_updated (w : World) (i : nat)
    (o : pyfloat) (t : pytext) (d : Driver) (l l' : list Evaluation)
    (Q : result bool -> Driver -> Prop) :
  update_nth i (set_text t) (evaluations (submission d)) = Some l ->
  update_nth i (set_outcome o) l = Some l' ->
  Q (Return true)
    (with_submission (set_evaluations l')
       (with_submission (set_evaluations l) (deleted w d))) ->
  after (finish_single_execution w i true o t) d Q.
Proof.
  intros H1 H2 HQ. apply after_finish_single_execution_true.
  - intros l0 l0' H1' H2'. rewrite H1 in H1'. injection H1' as <-.
    rewrite H2 in H2'. now injection H2' as <-.
  - intros H1'. rewrite H1 in H1'. discriminate H1'.
Qed.

Lemma after_finish_single_execution_index_error (w : World) (i : nat)
    (o : pyfloat) (t : pytext) (d : Driver)
    (Q : result bool -> Driver -> Prop) :
  update_nth i (set_text t) (evaluations (submission d)) = None ->
  Q (Raise IndexError) (deleted w d) ->
  after (finish_single_execution w i true o t) d Q.
Proof.
  intros H1 HQ. apply after_finish_single_execution_true.
  - intros l0 l0' H1'. rewrite H1 in H1'. discriminate H1'.
  - now intros _.
Qed.

Lemma after_safe_create_sandbox_failed (w : World) (d : Driver) (e : pystr)
    (Q : result unit -> Driver -> Prop) :
  new_sandbox w (constructed d) = inr e ->
  Q (Raise JobException)
    (deleted w
       (with_event
          (Log ERROR
             (PStr (str "Couldn't create sandbox (error: " ++ e ++ str ")")))
          (with_event (New (constructed d) true)
             (with_constructed (S (constructed d)) d)))) ->
  after (safe_create_sandbox w) d Q.
Proof.
  intros He HQ. apply after_safe_create_sandbox.
  - intros r Hr. rewrite He in Hr. discriminate Hr.
  - intros e' He'. rewrite He in He'. now injection He' as <-.
Qed.

Lemma delete_events_with_exit_code (w : World) (code : Z) (n : nat)
    (r : SandboxRun) :
  delete_events (with_exit_code code w)
    (Some {| sb_id := n; sb_run := set_exit_code code r |})
  = delete_events w (Some {| sb_id := n; sb_run := r |}).
Proof. reflexivity. Qed.

Lemma delete_events_with_exit_code_stale (w : World) (code : Z)
    (sb : option Sandbox) :
  delete_events (with_exit_code code w) sb = delete_events w sb.
Proof. reflexivity. Qed.

Ltac same_world :=
  cbn [with_exit_code set_exit_code keep_sandbox verify_source new_sandbox
       get_compilation_command filter_ansi_escape unicode_strip float_of_text
       run_path run_relative_path run_create_file_from_storage run_execute
       run_exit_status run_killing_signal run_stats run_file_exists
       run_get_file run_get_file_to_string run_get_file_to_storage run_delete
       run_codecs_open sb_run sb_id constructed submission session sandbox
       executable_filename trace task files executables evaluations sub_id
       testcases managers].

Ltac from_same_world :=
  same_world;
  first [ eassumption
        | reflexivity
        | repeat match goal with
                 | H : ?l = _ |- context [?l] => rewrite H
                 end;
          same_world;
          first [reflexivity | eassumption] ].

Ltac same_world_in H :=
  cbn [with_exit_code set_exit_code keep_sandbox verify_source new_sandbox
       get_compilation_command filter_ansi_escape unicode_strip float_of_text
       run_path run_relative_path run_create_file_from_storage run_execute
       run_exit_status run_killing_signal run_stats run_file_exists
       run_get_file run_get_file_to_string run_get_file_to_storage run_delete
       run_codecs_open sb_run sb_id constructed submission session sandbox
       executable_filename trace task files executables evaluations sub_id
       testcases managers] in H.

(** The second run cannot answer otherwise than the first one did. *)
Ltac clash :=
  exfalso;
  lazymatch goal with
  | H2 : _ = _ |- _ =>
      same_world_in H2;
      match goal with
      | H1 : _ = _ |- _ =>
          lazymatch H1 with H2 => fail | _ => idtac end;
          same_world_in H1;
          rewrite H1 in H2; discriminate H2
      end
  end.

(** The step of the second run, which answers as the first one did. *)
Ltac second_step :=
  lazymatch goal with
  | |- after (of_option _ _) _ _ =>
      first [ eapply after_of_option_some; [solve [from_same_world]|]
            | step1; try clash ]
  | |- after (safe_create_sandbox _) _ _ =>
      first [ eapply after_safe_create_sandbox_ok; [solve [from_same_world]|]
            | eapply after_safe_create_sandbox_failed;
              [solve [from_same_world]|] ]
  | |- after (safe_create_file_from_storage _ _ _ _) _ _ =>
      first [ eapply after_safe_create_file_from_storage_ok;
              [reflexivity|solve [from_same_world]|]
            | step1; try clash ]
  | |- after (safe_get_file _ _) _ _ =>
      first [ eapply after_safe_get_file_ok;
              [reflexivity|solve [from_same_world]|]
            | step1; try clash ]
  | |- after (safe_sandbox_execute _ _) _ _ =>
      first [ eapply after_safe_sandbox_execute_ok;
              [reflexivity|solve [from_same_world]|]
            | step1; try clash ]
  | |- after (finish_single_execution _ _ true _ _) _ _ =>
      first [ eapply after_finish_single_execution_updated;
              [solve [from_same_world]|solve [from_same_world]|]
            | eapply after_finish_single_execution_index_error;
              [solve [from_same_world]|] ]
  | |- after (if ?c then _ else _) _ _ =>
      first [ apply after_if_true; [eassumption|]
            | apply after_if_false; [eassumption|]
            | step1; try clash ]
  | |- _ => step1
  end.

(** Both runs failed on the same call: they were given the same error. *)
Ltac agree :=
  repeat match goal with
         | H : run_execute (sb_run _) _ = Some _ |- _ =>
             progress same_world_in H
         end;
  repeat match goal with
         | H1 : ?x = Some ?a, H2 : ?x = Some ?b |- _ =>
             lazymatch a with b => fail | _ => idtac end;
             rewrite H1 in H2; injection H2 as <-
         end.

Ltac lockstep1 :=
  lazymatch goal with
  | |- both (bind _ _) _ (bind _ _) _ _ => apply both_bind
  | |- both (if ?c then _ else _) _ _ _ _ => destruct c eqn:?
  | |- both (match ?x with _ => _ end) _ _ _ _ => destruct x eqn:?
  | |- both _ _ _ _ _ => unfold both at 1
  | |- both_post _ _ _ _ _ _ _ => cbv beta iota delta [both_post]
  | |- after (safe_create_sandbox _) _ (fun r1 e1 => after _ _ _) =>
      second_step
  | |- after ?m ?d (fun r1 e1 => after _ _ _) => step1
  | |- after _ _ _ => second_step
  end.

Ltac lockstep := repeat (lockstep1; flat; same_world).

Lemma execute_single_same_verdict (w : World) (i : nat) (d : Driver)
    (code code' : Z) :
  both (execute_single (with_exit_code code w) i) d
       (execute_single (with_exit_code code' w) i) d
       (fun r1 d1 r2 d2 =>
          (r1, submission d1, session d1, trace d1)
          = (r2, submission d2, session d2, trace d2)).
Proof.
  destruct d as [sub sess sb ef n tr].
  destruct (new_sandbox w n) as [r|e] eqn:Hnew.
  all: unfold execute_single.
  all: lockstep.
  all: try (rewrite ?delete_events_with_exit_code,
    ?delete_events_with_exit_code_stale; reflexivity).
  all: agree; reflexivity.
Qed.

Lemma observable_same_verdict (w : World) (i : nat) (d : Driver)
    (code code' : Z) :
  observable (execute_single (with_exit_code code w) i d)
  = observable (execute_single (with_exit_code code' w) i d).
Proof. exact (execute_single_same_verdict w i d code code'). Qed.

(** ** Creation and release of sandboxes *)

Lemma deletions_delete_events (w : World) (sb : option Sandbox) (id : nat) :
  List.length (filter (is_delete_of id) (delete_events w sb))
  = match sb with
    | Some s =>
        if keep_sandbox w then 0
        else if Nat.eqb id (sb_id s) then 1 else 0
    | None => 0
    end.
Proof.
  unfold delete_events. destruct sb as [s|]; [|reflexivity].
  destruct (keep_sandbox w); [reflexivity|]. cbn [negb].
  destruct (run_delete (sb_run s)); cbn; destruct (Nat.eqb id (sb_id s));
    reflexivity.
Qed.

Ltac deletions_in_trace :=
  unfold deletions, new_events; cbn [trace];
  rewrite <- ?app_assoc;
  first [rewrite skipn_length_app | rewrite skipn_length_self];
  rewrite ?filter_app, ?length_app, ?deletions_delete_events;
  cbn [filter is_delete_of List.length app Nat.add sb_id].

Ltac release_leaf :=
  lazymatch goal with
  | H : hd_error (_ :: _) = None |- _ => discriminate H
  | |- S _ = S _ => reflexivity
  | |- _ <= _ => lia
  | |- keep_sandbox _ = true -> _ =>
      let Hkeep := fresh "Hkeep" in
      intros Hkeep id; deletions_in_trace; rewrite ?Hkeep;
      first [ reflexivity
            | repeat match goal with
                     | |- context [match ?x with Some _ => _ | None => _ end] =>
                         destruct x
                     end;
              reflexivity ]
  | |- keep_sandbox _ = false -> _ =>
      let Hkeep := fresh "Hkeep" in
      let Hrun := fresh "Hrun" in
      let Hgrown := fresh "Hgrown" in
      let Hfinal := fresh "Hfinal" in
      intros Hkeep run Hrun Hgrown Hfinal;
      first [ exfalso; lia
            | exfalso;
              match goal with
              | H : new_sandbox _ _ = inr _ |- _ =>
                  rewrite H in Hrun; discriminate Hrun
              end
            | exfalso; destruct Hfinal as [[? Hfinal]|Hfinal];
              discriminate Hfinal
            | deletions_in_trace; rewrite ?Hkeep, ?Nat.eqb_refl; reflexivity ]
  end.

Lemma execute_single_release (w : World) (i : nat) (d : Driver) :
  after (execute_single w i) d (fun r d' =>
    constructed d' = S (constructed d) /\
    (keep_sandbox w = true ->
     forall id, deletions id (new_events d d') = 0) /\
    (keep_sandbox w = false ->
     forall run, new_sandbox w (constructed d) = inl run ->
     constructed d' = S (constructed d) ->
     (exists b, r = Return b) \/ r = Raise JobException ->
     deletions (constructed d) (new_events d d') = 1)).
Proof.
  destruct d as [sub sess sb ef n tr].
  unfold execute_single. walk.
  all: tidy.
  all: repeat split.
  all: release_leaf.
Qed.

Lemma compile_release (w : World) (d : Driver) :
  after (compile w) d (fun r d' =>
    constructed d' <= S (constructed d) /\
    (keep_sandbox w = true ->
     forall id, deletions id (new_events d d') = 0) /\
    (keep_sandbox w = false ->
     forall run, new_sandbox w (constructed d) = inl run ->
     constructed d' = S (constructed d) ->
     (exists b, r = Return b) \/ r = Raise JobException ->
     deletions (constructed d) (new_events d d') = 1)).
Proof.
  destruct d as [sub sess sb ef n tr].
  unfold compile. walk.
  all: tidy.
  all: repeat split.
  all: release_leaf.
Qed.

(** ** What [compile] changes *)

Ltac compile_state_leaf :=
  first [ match goal with
          | H : _ = Return _ |- _ => discriminate H
          end
        | reflexivity
        | discriminate
        | left; split; [reflexivity|]; eexists; split; reflexivity
        | right; repeat split ].

Lemma compile_state (w : World) (d : Driver) :
  after (compile w) d (fun r d' =>
    task (submission d') = task (submission d) /\
    files (submission d') = files (submission d) /\
    evaluations (submission d') = evaluations (submission d) /\
    (r = Return false ->
     submission d' = submission d /\ session d' = session d) /\
    (r = Return true ->
     compilation_text (submission d') <> None /\
     ((compilation_outcome (submission d') = Some (str "ok") /\
       exists e, session d' = session d ++ [StagedExecutable e] /\
                 ex_submission e = sub_id (submission d)) \/
      (compilation_outcome (submission d') = Some (str "fail") /\
       session d' = session d /\
       executables (submission d') = executables (submission d))))).
Proof.
  destruct d as [sub sess sb ef n tr]. destruct sub as [id tk fl ex ev co ct].
  unfold compile. walk.
  all: tidy.
  all: repeat split.
  all: compile_state_leaf.
Qed.

(** ** What the loops of [execute] keep *)

Lemma update_nth_map {A B : Type} (f : A -> A) (g : A -> B) (i : nat) :
  (forall x, g (f x) = g x) ->
  forall l l' : list A, update_nth i f l = Some l' -> map g l' = map g l.
Proof.
  intros Hfg. induction i as [|i IH]; intros [|x l] l' H; simpl in H;
    try discriminate.
  - injection H as <-. simpl. now rewrite Hfg.
  - destruct (update_nth i f l) as [l1|] eqn:E; [|discriminate].
    injection H as <-. simpl. now rewrite (IH l l1 E).
Qed.

(** One test case: the numbers of the evaluations stay, and the others keep
    their outcome and their text. *)
Lemma execute_single_frame (w : World) (i : nat) (d : Driver) :
  let d' := snd (execute_single w i d) in
  map ev_num (evaluations (submission d'))
    = map ev_num (evaluations (submission d)) /\
  forall j, j <> i ->
    nth_error (evaluations (submission d')) j
    = nth_error (evaluations (submission d)) j.
Proof.
  intros d'.
  destruct (execute_single_state w i d) as (_ & _ & _ & _ & Hkeep & Hset).
  fold d' in Hkeep, Hset.
  destruct (fst (execute_single w i d)) as [[|]|e] eqn:Er.
  - destruct (Hset eq_refl) as (o & t & l & _ & H1 & H2). split.
    + rewrite (update_nth_map (set_outcome o) ev_num _ (fun _ => eq_refl) _ _ H2).
      apply (update_nth_map (set_text t) ev_num _ (fun _ => eq_refl) _ _ H1).
    + intros j Hj.
      rewrite (update_nth_other _ _ _ _ _ H2 (not_eq_sym Hj)).
      apply (update_nth_other _ _ _ _ _ H1 (not_eq_sym Hj)).
  - rewrite Hkeep by discriminate. now split.
  - rewrite Hkeep by discriminate. now split.
Qed.

Lemma execute_single_constructed (w : World) (i : nat) (d : Driver) :
  constructed (snd (execute_single w i d)) = S (constructed d).
Proof. exact (proj1 (execute_single_release w i d)). Qed.

Lemma execute_testcases_keeps (w : World) (l : list nat) :
  forall d : Driver,
    let r := fst (execute_testcases w l d) in
    let d' := snd (execute_testcases w l d) in
    map ev_num (evaluations (submission d'))
      = map ev_num (evaluations (submission d)) /\
    constructed d' <= constructed d + List.length l /\
    (r = Return true -> constructed d' = constructed d + List.length l).
Proof.
  induction l as [|i l IH]; intros d.
  - cbn. repeat split; lia.
  - cbn [execute_testcases]. unfold bind.
    pose proof (execute_single_frame w i d) as [Hnum _].
    pose proof (execute_single_constructed w i d) as Hcons.
    destruct (execute_single w i d) as [[success|e] d1].
    + cbn [fst snd] in Hnum, Hcons. destruct success; cbn [negb].
      * destruct (IH d1) as (Hnum' & Hle & Heq).
        cbn zeta in *. rewrite Hnum', Hnum. cbn [List.length].
        split; [reflexivity|]. rewrite Hcons in Hle, Heq.
        split; [lia|]. intros Hr. rewrite (Heq Hr). lia.
      * unfold finish_evaluation, ret. cbn [negb fst snd List.length].
        rewrite Hcons.
        split; [exact Hnum|]. split; [lia|discriminate].
    + cbn [fst snd List.length] in *. rewrite Hcons.
      split; [exact Hnum|]. split; [lia|discriminate].
Qed.

Lemma add_evaluations_adds (l : list nat) :
  forall d : Driver,
    let d' := snd (add_evaluations l d) in
    evaluations (submission d')
      = evaluations (submission d)
          ++ map (fun n => {| ev_num := n; ev_outcome := None; ev_text := None |})
               l /\
    session d'
      = session d
          ++ map StagedEvaluation
               (seq (List.length (evaluations (submission d))) (List.length l)) /\
    constructed d' = constructed d /\
    executable_filename d' = executable_filename d /\
    trace d' = trace d.
Proof.
  induction l as [|n l IH]; intros d.
  - cbn. rewrite !app_nil_r. repeat split.
  - cbn [add_evaluations]. unfold bind, get, modify. cbn [fst snd].
    match goal with
    | |- context [add_evaluations l ?x] => destruct (IH x) as (He & Hs & Hc & Hf & Ht)
    end.
    cbn zeta in *. rewrite He, Hs, Hc, Hf, Ht.
    cbn [with_session with_submission submission session constructed
         executable_filename trace link_evaluation set_evaluations
         evaluations map List.length seq].
    rewrite <- !app_assoc, length_app. cbn [List.length app].
    rewrite Nat.add_1_r. repeat split.
Qed.

(** ** Verdicts of [execute_single] *)

Lemma update_nth_some {A : Type} (f : A -> A) (i : nat) :
  forall l : list A, i < List.length l -> update_nth i f l <> None.
Proof.
  induction i as [|i IH]; intros [|x l] Hi; simpl in *; try lia.
  - discriminate.
  - specialize (IH l ltac:(lia)).
    destruct (update_nth i f l); [discriminate|contradiction].
Qed.

Lemma update_nth_none {A : Type} (f : A -> A) (i : nat) :
  forall l : list A, List.length l <= i -> update_nth i f l = None.
Proof.
  induction i as [|i IH]; intros [|x l] Hi; simpl in *; try lia;
    try reflexivity.
  now rewrite (IH l ltac:(lia)).
Qed.

(** What the two assignments of [finish_single_execution] leave. *)
Lemma judged_at (i : nat) (o : pyfloat) (t : pytext)
    (l0 l l' : list Evaluation) :
  update_nth i (set_text t) l0 = Some l ->
  update_nth i (set_outcome o) l = Some l' ->
  exists e, nth_error l0 i = Some e /\ nth_error l' i = Some (judged o t e) /\
            List.length l' = List.length l0 /\
            forall j, j <> i -> nth_error l' j = nth_error l0 j.
Proof.
  intros H1 H2.
  destruct (update_nth_same _ _ _ _ H1) as (x & Hx & Hx').
  destruct (update_nth_same _ _ _ _ H2) as (y & Hy & Hy').
  rewrite Hx' in Hy. injection Hy as <-.
  exists x. split; [exact Hx|]. split; [exact Hy'|]. split.
  - rewrite (update_nth_length _ _ _ _ H2). apply (update_nth_length _ _ _ _ H1).
  - intros j Hj.
    rewrite (update_nth_other _ _ _ _ _ H2 (not_eq_sym Hj)).
    apply (update_nth_other _ _ _ _ _ H1 (not_eq_sym Hj)).
Qed.

Ltac verdict_leaf :=
  cbn [submission evaluations set_evaluations];
  lazymatch goal with
  | H : update_nth _ _ _ = None, Hi : _ < List.length _ |- _ =>
      exfalso; exact (update_nth_some _ _ _ Hi H)
  | H1 : update_nth ?i (set_text ?t) _ = Some ?l,
    H2 : update_nth ?i (set_outcome ?o) ?l = Some _ |- _ =>
      destruct (judged_at i o t _ _ _ H1 H2) as (e & He & He' & _ & _);
      split; [reflexivity|];
      unfold outcome_at, text_at;
      cbn [submission evaluations set_evaluations];
      rewrite He'; split; reflexivity
  end.

Lemma stopped_run (w : World) (i : nat) (d : Driver)
    (run : SandboxRun) (testcase : Testcase) (t : pystr) :
  candidate_reports w i d run testcase ->
  stopped_text run = Some t ->
  i < List.length (evaluations (submission d)) ->
  after (execute_single w i) d (fun r d' =>
    r = Return true /\
    outcome_at i d' = Some (Finite 0) /\
    text_at i d' = Some (PStr t)).
Proof.
  destruct d as [sub sess sb ef n tr].
  unfold candidate_reports, stopped_text.
  cbn [submission constructed executable_filename].
  intros (exe & exe_dg & Hnew & -> & Hdg & Hexe & Htc & Hinput & Hexecute)
    Htext Hi.
  unfold execute_single.
  destruct (run_exit_status run) eqn:Hstatus; try discriminate Htext.
  1: destruct (run_file_exists run (str "output.txt")) eqn:Hout;
       [discriminate Htext|].
  all: injection Htext as <-.
  all: follow.
  all: verdict_leaf.
Qed.

Lemma compared_run (w : World) (i : nat) (d : Driver)
    (run : SandboxRun) (testcase : Testcase) (out_file res_file : pystr) :
  candidate_reports w i d run testcase ->
  run_exit_status run = EXIT_OK ->
  run_file_exists run (str "output.txt") = true ->
  run_create_file_from_storage run (str "res.txt") (tc_output testcase) false
    = true ->
  managers (task (submission d)) = [] ->
  run_get_file run (str "output.txt") = Some out_file ->
  run_get_file run (str "res.txt") = Some res_file ->
  i < List.length (evaluations (submission d)) ->
  after (execute_single w i) d (fun r d' =>
    r = Return true /\
    outcome_at i d'
      = Some (if white_diff out_file res_file then Finite 1 else Finite 0) /\
    text_at i d'
      = Some (PStr (if white_diff out_file res_file
                    then str "Output file is correct"
                    else str "Output file isn't correct"))).
Proof.
  destruct d as [sub sess sb ef n tr].
  unfold candidate_reports.
  cbn [submission constructed executable_filename].
  intros (exe & exe_dg & Hnew & -> & Hdg & Hexe & Htc & Hinput & Hexecute)
    Hstatus Hout Hres Hmanagers Hget_out Hget_res Hi.
  assert (Hnone : Nat.eqb (List.length (managers (task sub))) 0 = true)
    by now rewrite Hmanagers.
  unfold execute_single.
  follow.
  destruct (white_diff out_file res_file).
  all: follow.
  all: verdict_leaf.
Qed.

Lemma managed_run (w : World) (i : nat) (d : Driver)
    (run : SandboxRun) (stdout_line stderr_line : ustr) (o : pyfloat) :
  manager_reports w i d run (Line stdout_line) (Line stderr_line) ->
  float_of_text w (unicode_strip w stdout_line) = Some o ->
  i < List.length (evaluations (submission d)) ->
  after (execute_single w i) d (fun r d' =>
    r = Return true /\
    outcome_at i d' = Some o /\
    text_at i d' = Some (PUni (filter_ansi_escape w stderr_line))).
Proof.
  destruct d as [sub sess sb ef n tr].
  unfold manager_reports, candidate_reports.
  cbn [submission constructed executable_filename].
  intros (tc & m & mdg
          & (exe & exe_dg & Hnew & -> & Hdg & Hexe & Htc & Hinput & Hexecute)
          & Hstatus & Houtput & Hres & Hm & Hmdg & Hmstage & Hmexecute
          & Hstdout & Hstderr) Hfloat Hi.
  assert (Hmanagers : Nat.eqb (List.length (managers (task sub))) 0 = false).
  { destruct (managers (task sub)); [discriminate Hm|reflexivity]. }
  unfold execute_single.
  follow.
  all: first [discriminate Hfloat | injection Hfloat as ->].
  all: verdict_leaf.
Qed.

(** ** Verdicts of [compile] *)

Lemma decode_invalid_files :
  Utf8.decode (str "Invalid files in submission")
  = Some (u_of_str (str "Invalid files in submission")).
Proof. vm_compute. reflexivity. Qed.

Lemma compile_refused_run (w : World) (d : Driver) :
  fst (verify_source w) = false \/ snd (verify_source w) = None \/
  List.length (files (submission d)) <> 1 ->
  after (compile w) d (fun r d' =>
    r = Return true /\
    compilation_outcome (submission d') = Some (str "fail") /\
    compilation_text (submission d')
      = Some (u_of_str (str "Invalid files in submission")) /\
    executables (submission d') = executables (submission d) /\
    session d' = session d /\
    constructed d' = constructed d).
Proof.
  destruct d as [sub sess sb ef n tr].
  cbn [submission constructed].
  pose proof decode_invalid_files as Hdecode.
  unfold compile.
  destruct (verify_source w) as [valid language]. cbn [fst snd].
  intros Hbad.
  destruct valid; [destruct language as [language|]|].
  2, 3: follow; repeat split.
  destruct (Nat.eqb_spec (List.length (files sub)) 1) as [Hlen|Hlen].
  - exfalso. destruct Hbad as [Hbad|[Hbad|Hbad]];
      [discriminate Hbad|discriminate Hbad|exact (Hbad Hlen)].
  - apply Nat.eqb_neq in Hlen. follow. repeat split.
Qed.

Ltac compile_leaf :=
  cbn [sb_run sb_id constructed submission session sandbox executable_filename
       trace set_evaluations set_compilation_outcome set_compilation_text
       set_executables link_executable task files executables evaluations
       sub_id compilation_outcome compilation_text];
  repeat split;
  first [ left; reflexivity | right; reflexivity | discriminate
        | intros; discriminate ].


Lemma compile_environment_failure_run (w : World) (d : Driver)
    (language source_filename : pystr) (run : SandboxRun)
    (stdout stderr : pystr) :
  compile_reports w d language source_filename run stdout stderr ->
  run_exit_status run <> EXIT_OK ->
  run_exit_status run <> EXIT_TIMEOUT ->
  run_exit_status run <> EXIT_SIGNAL ->
  after (compile w) d (fun r d' =>
    r = Return false /\ submission d' = submission d /\ session d' = session d).
Proof.
  destruct d as [sub sess sb ef n tr]. destruct sub as [id tk fl ex ev co ct].
  unfold compile_reports. cbn [files submission constructed sub_id].
  intros (source_digest & Hvalid & -> & Hnew & Hstage & Hexecute & Hstdout
          & Hstderr) Hok Htimeout Hsignal.
  unfold executable_of in *.
  unfold compile. rewrite Hvalid.
  destruct (run_exit_status run) eqn:Hstatus; try contradiction.
  all: follow.
  all: compile_leaf.
Qed.

(** * The properties of the judging core *)

#[local] Transparent white_diff of_int replace os_path_join Utf8.decode
  strip_ws str is_empty.

(** ** Compilation that succeeds *)

(** C1, as the code has it.  Take a run of [compile] that gets the report of
    the compiler (valid single-file submission, sandbox created, source
    staged, compiler spawned, both outputs read) with exit status OK and
    exit code 0.  When the store accepts the executable and the compilation
    text decodes as UTF-8, the run sends the executable to the store, stages
    exactly one new Executable of the submission in the session, sets the
    compilation outcome to "ok", stores the decoded text and returns True.
    When the store raises an I/O error, the run raises JobException and
    leaves the submission and the session as they were. *)
Theorem compile_success (w : World) (d : Driver)
    (language source_filename : pystr) (run : SandboxRun)
    (stdout stderr : pystr) :
  compile_reports w d language source_filename run stdout stderr ->
  run_exit_status run = EXIT_OK ->
  run_exit_code run = 0%Z ->
  (forall (dg : digest) (u : ustr),
     run_get_file_to_storage run (executable_of language source_filename)
       (executable_description (executable_of language source_filename)
          (sub_id (submission d))) = Some dg ->
     Utf8.decode (compilation_report (str "OK ") (run_stats run) stdout stderr)
       = Some u ->
     after (compile w) d (fun r d' =>
       r = Return true /\
       session d' =
         session d ++ [StagedExecutable
                         {| ex_digest := dg;
                            ex_filename :=
                              executable_of language source_filename;
                            ex_submission := sub_id (submission d) |}] /\
       compilation_outcome (submission d') = Some (str "ok") /\
       compilation_text (submission d') = Some u /\
       In (Call (constructed d)
             (GetFileToStorage (executable_of language source_filename)
                (executable_description
                   (executable_of language source_filename)
                   (sub_id (submission d))))
             false)
          (new_events d d'))) /\
  (run_get_file_to_storage run (executable_of language source_filename)
     (executable_description (executable_of language source_filename)
        (sub_id (submission d))) = None ->
   after (compile w) d (fun r d' =>
     r = Raise JobException /\
     submission d' = submission d /\
     session d' = session d)).
Proof.
  intros Hrun Hstatus Hcode. split.
  - intros dg u Hstore Hdecode.
    exact (compile_success_run w d language source_filename run stdout stderr
             dg u Hrun Hstatus Hcode Hstore Hdecode).
  - intros Hstore.
    exact (compile_store_refuses_run w d language source_filename run stdout
             stderr Hrun Hstatus Hcode Hstore).
Qed.

(** The compilation of sum.c in a sandbox where everything works, and in
    one where the store refuses the executable. *)
Lemma compile_success_witness :
  after (compile (Example.world_of (inl (Example.compiler_run EXIT_OK 0))))
    Example.fresh_driver
    (fun r d' =>
       r = Return true /\
       session d' =
         session Example.fresh_driver
           ++ [StagedExecutable
                 {| ex_digest := str "d1g357";
                    ex_filename := executable_of (str "c") (str "sum.c");
                    ex_submission := sub_id (submission Example.fresh_driver) |}] /\
       compilation_outcome (submission d') = Some (str "ok") /\
       compilation_text (submission d')
         = Some (u_of_str
                   (compilation_report (str "OK ") (str "[0.1 sec]") [] [])) /\
       In (Call (constructed Example.fresh_driver)
             (GetFileToStorage (executable_of (str "c") (str "sum.c"))
                (executable_description
                   (executable_of (str "c") (str "sum.c"))
                   (sub_id (submission Example.fresh_driver))))
             false)
          (new_events Example.fresh_driver d')) /\
  after (compile
           (Example.world_of
              (inl (Example.storage_refuses (Example.compiler_run EXIT_OK 0)))))
    Example.fresh_driver
    (fun r d' =>
       r = Raise JobException /\
       submission d' = submission Example.fresh_driver /\
       session d' = session Example.fresh_driver).
Proof.
  split.
  - apply (compile_success
             (Example.world_of (inl (Example.compiler_run EXIT_OK 0)))
             Example.fresh_driver (str "c") (str "sum.c")
             (Example.compiler_run EXIT_OK 0) [] []).
    + exists (str "50urc3"). repeat split; reflexivity.
    + reflexivity.
    + reflexivity.
    + reflexivity.
    + vm_compute. reflexivity.
  - apply (compile_success
             (Example.world_of
                (inl (Example.storage_refuses
                        (Example.compiler_run EXIT_OK 0))))
             Example.fresh_driver (str "c") (str "sum.c")
             (Example.storage_refuses (Example.compiler_run EXIT_OK 0)) [] []).
    + exists (str "50urc3"). repeat split; reflexivity.
    + reflexivity.
    + reflexivity.
    + reflexivity.
Defined.

(** C1, as the spec has it, fails: the compiler ends with status OK and exit
    code 0, the store refuses the executable; [compile] raises JobException,
    nothing is staged and the compilation outcome is not set. *)
Lemma compile_ok_exit_0_not_stored :
  let run := Example.storage_refuses (Example.compiler_run EXIT_OK 0) in
  let w := Example.world_of (inl run) in
  run_exit_status run = EXIT_OK /\
  run_exit_code run = 0%Z /\
  fst (compile w Example.fresh_driver) = Raise JobException /\
  session (snd (compile w Example.fresh_driver)) = [] /\
  compilation_outcome (submission (snd (compile w Example.fresh_driver)))
    = None.
Proof. vm_compute. repeat split. Qed.

(** ** Environmental failures *)

(** C2, as the code has it.  When the operation under a safe-sandbox helper
    raises an I/O error, [execute_single] raises JobException to its caller,
    and so does [compile] when no compilation command is empty.  When no
    helper raised and the sandbox reports an internal error, the enclosing
    call returns False: [compile] once both outputs of the compiler are
    read, [execute_single] once the candidate program ran.  When the manager
    ran, its two files are opened, and what it printed cannot be parsed
    (the first [readline] of one of them raises UnicodeDecodeError, or the
    first line of its standard output is not a number), [execute_single]
    returns False. *)
Theorem environmental_failures (w : World) (d : Driver) :
  after (compile w) d (fun r d' =>
    (forall language source executable,
       get_compilation_command w language source executable <> []) ->
    existsb io_error (new_events d d') = true -> r = Raise JobException) /\
  (forall i,
     after (execute_single w i) d (fun r d' =>
       existsb io_error (new_events d d') = true -> r = Raise JobException)) /\
  (forall language source_filename run stdout stderr,
     compile_reports w d language source_filename run stdout stderr ->
     run_exit_status run = EXIT_SANDBOX_ERROR ->
     fst (compile w d) = Return false) /\
  (forall i run testcase,
     candidate_reports w i d run testcase ->
     run_exit_status run = EXIT_SANDBOX_ERROR ->
     fst (execute_single w i d) = Return false) /\
  (forall i run stdout_file stderr_file,
     manager_reports w i d run stdout_file stderr_file ->
     unparseable w stdout_file stderr_file ->
     fst (execute_single w i d) = Return false).
Proof.
  split; [|split; [|split; [|split]]].
  - pose proof (compile_events w d) as H. unfold after in *.
    exact (proj1 H).
  - intros i. pose proof (execute_single_events w i d) as H. unfold after in *.
    exact (proj1 H).
  - intros language source_filename run stdout stderr Hrun Hstatus.
    exact (proj1 (compile_sandbox_error_run w d _ _ _ _ _ Hrun Hstatus)).
  - intros i run testcase Hrun Hstatus.
    exact (proj1 (execute_single_sandbox_error_run w i d _ _ Hrun Hstatus)).
  - intros i run stdout_file stderr_file Hrun Hbad.
    exact (proj1 (execute_single_unparseable_run w i d _ _ _ Hrun Hbad)).
Qed.

(** No sandbox can be created: [compile] raises JobException.  The compiler
    ends with a sandbox error: [compile] returns False.  The manager prints
    "abc": [execute_single] returns False. *)
Lemma environmental_failures_witness :
  fst (compile (Example.world_of (inr (str "OSError()"))) Example.fresh_driver)
    = Raise JobException /\
  fst (compile
         (Example.world_of (inl (Example.compiler_run EXIT_SANDBOX_ERROR 0)))
         Example.fresh_driver)
    = Return false /\
  fst (execute_single
         (Example.world_of (inl (Example.judged_run 0 (str "abc"))))
         0
         (Example.compiled Example.checker [Example.empty_evaluation 0]))
    = Return false.
Proof.
  split; [|split].
  - apply (environmental_failures
             (Example.world_of (inr (str "OSError()"))) Example.fresh_driver).
    + intros language source executable. discriminate.
    + vm_compute. reflexivity.
  - apply (environmental_failures
             (Example.world_of
                (inl (Example.compiler_run EXIT_SANDBOX_ERROR 0)))
             Example.fresh_driver)
      with (language := str "c") (source_filename := str "sum.c")
           (run := Example.compiler_run EXIT_SANDBOX_ERROR 0)
           (stdout := []) (stderr := []).
    + exists (str "50urc3"). repeat split; reflexivity.
    + reflexivity.
  - apply (environmental_failures
             (Example.world_of (inl (Example.judged_run 0 (str "abc"))))
             (Example.compiled Example.checker [Example.empty_evaluation 0]))
      with (run := Example.judged_run 0 (str "abc"))
           (stdout_file := Line (u_of_str (str "abc")))
           (stderr_file := Line (u_of_str (str "fine" ++ [nl]))).
    + exists {| tc_input := str "1npu7"; tc_output := str "0u7pu7" |},
        (str "checker"), (str "ch3ck3r").
      split; [exists (str "sum"), (str "d1g357")|]; repeat split; reflexivity.
    + vm_compute. reflexivity.
Defined.

(** C2, as the spec has it, fails: the construction of the sandbox raises an
    I/O error and [compile] does not return False, it raises JobException. *)
Lemma compile_raises_on_io_error :
  let w := Example.world_of (inr (str "OSError()")) in
  existsb io_error (trace (snd (compile w Example.fresh_driver))) = true /\
  fst (compile w Example.fresh_driver) = Raise JobException /\
  fst (compile w Example.fresh_driver) <> Return false.
Proof. vm_compute. repeat split. discriminate. Qed.

(** ** The outcome that is stored *)



(** ** The comparator and white space *)

(** C4, as the code has it.  Spaces and tabs inserted or removed at word
    boundaries (at an end of the text, or next to a space, a tab or a
    newline) and newlines appended at the end, any number of times, give a
    text that [white_diff] judges equivalent to the first one. *)
Theorem white_diff_ws_variant (s s' : pystr) :
  ws_variant s s' -> white_diff s s' = true.
Proof. intros H. apply white_diff_normal_form, ws_variant_normal_form, H. Qed.

(** "a b" with a newline appended and a tab inserted after the space. *)
Lemma white_diff_ws_variant_witness :
  white_diff (str "a b") ((str "a " ++ tab :: str "b") ++ [nl]) = true.
Proof.
  apply white_diff_ws_variant.
  apply rt_trans with (y := str "a " ++ tab :: str "b").
  - apply rt_step.
    apply (ws_insert (str "a ") (str "b") tab).
    + right. reflexivity.
    + right. right. left. exists (str "a"), space. split; reflexivity.
  - apply rt_step. apply ws_append_newline.
Defined.

(** C4, as the spec has it, fails: a space inserted inside a word makes two
    words of it. *)
Lemma white_diff_space_in_word :
  space_or_tab space /\
  white_diff (str "a" ++ str "b") (str "a" ++ space :: str "b") = false.
Proof. split; [left; reflexivity|vm_compute; reflexivity]. Qed.

(** ** The evaluations after [execute] *)

(** C5, as the code has it.  After a run of [execute] that returns True, the
    submission had exactly one executable, the task is the same and every
    test case of it has an outcome and a text; the number of evaluations is
    the number of test cases when the submission had no more evaluations
    than that before the run (it is never made smaller). *)
Theorem execute_evaluations (w : World) (d d' : Driver) :
  execute w d = (Return true, d') ->
  List.length (evaluations (submission d))
    <= List.length (testcases (task (submission d))) ->
  List.length (executables (submission d)) = 1 /\
  task (submission d') = task (submission d) /\
  List.length (evaluations (submission d'))
    = List.length (testcases (task (submission d'))) /\
  forall i, i < List.length (testcases (task (submission d'))) ->
            has_verdict i d'.
Proof.
  intros Hrun Hlen.
  destruct (execute_verdicts w d d' Hrun) as (Htask & Hmax & Hall).
  split; [|split; [exact Htask|split]].
  - revert Hrun. unfold execute, bind, get. cbn [fst snd].
    destruct (Nat.eqb_spec (List.length (executables (submission d))) 1)
      as [E|E]; [intros _; exact E|].
    cbn [negb]. unfold log_str, log, emit, modify, finish_evaluation.
    cbn. discriminate.
  - rewrite Hmax, Htask. lia.
  - rewrite Htask. exact Hall.
Qed.

(** One test case, no evaluation yet. *)
Lemma execute_evaluations_witness :
  let w := Example.world_of (inl (Example.judged_run 0 [])) in
  let d := Example.compiled [] [] in
  List.length (executables (submission d)) = 1 /\
  task (submission (snd (execute w d))) = task (submission d) /\
  List.length (evaluations (submission (snd (execute w d))))
    = List.length (testcases (task (submission (snd (execute w d))))) /\
  forall i,
    i < List.length (testcases (task (submission (snd (execute w d))))) ->
    has_verdict i (snd (execute w d)).
Proof.
  apply (execute_evaluations
           (Example.world_of (inl (Example.judged_run 0 [])))
           (Example.compiled [] [])).
  - vm_compute. reflexivity.
  - vm_compute. lia.
Defined.

(** C5, as the spec has it, fails: the submission has one executable and
    already two evaluations, the task one test case; [execute] returns True
    and the submission still has two evaluations. *)
Lemma execute_keeps_extra_evaluations :
  let w := Example.world_of (inl (Example.judged_run 0 [])) in
  let d := Example.compiled []
             [Example.empty_evaluation 0; Example.empty_evaluation 1] in
  List.length (executables (submission d)) = 1 /\
  fst (execute w d) = Return true /\
  List.length (evaluations (submission (snd (execute w d)))) = 2 /\
  List.length (testcases (task (submission (snd (execute w d))))) = 1.
Proof. vm_compute. repeat split. Qed.

(** ** Executions in one sandbox *)

(** C6, as the code has it.  A run of [compile] calls [execute] at most
    once on a sandbox.  A run of [execute_single] calls it at most twice, on
    the sandbox it created and on no other; at most once when the task has
    no manager. *)
Theorem executions_per_sandbox (w : World) (d : Driver) :
  after (compile w) d (fun _ d' =>
    (forall id, executions id (new_events d d') <= 1) /\
    (forall id, id <> constructed d -> executions id (new_events d d') = 0)) /\
  forall i,
    after (execute_single w i) d (fun _ d' =>
      (forall id, executions id (new_events d d') <= 2) /\
      (forall id, managers (task (submission d)) = [] ->
                  executions id (new_events d d') <= 1) /\
      (forall id, id <> constructed d ->
                  executions id (new_events d d') = 0)).
Proof.
  split.
  - pose proof (compile_events w d) as H. unfold after in *. exact (proj2 H).
  - intros i. pose proof (execute_single_events w i d) as H.
    unfold after in *. exact (proj2 H).
Qed.

(** C6, as the spec has it, fails: the task has a manager, and the sandbox
    that ran the candidate program runs the manager too, before it is
    deleted. *)
Lemma manager_runs_in_the_same_sandbox :
  let w := Example.world_of (inl (Example.judged_run 0 (str "1" ++ [nl]))) in
  let d := Example.compiled Example.checker [Example.empty_evaluation 0] in
  executions 0 (trace (snd (execute_single w 0 d))) = 2 /\
  List.length (filter (is_delete_of 0) (trace (snd (execute_single w 0 d))))
    = 1.
Proof. vm_compute. split; reflexivity. Qed.

(** ** A compilation text that is not UTF-8 *)

(** C7: what the code does.  When the compilation text does not decode as
    UTF-8, [finish_compilation] raises TypeError (the handler calls the
    attribute [compilation_text] instead of assigning to it); the
    compilation text of the submission is not replaced. *)
Theorem finish_compilation_undecodable (w : World)
    (compilation_success : bool) (text : pystr) (d : Driver) :
  Utf8.decode text = None ->
  after (finish_compilation w true compilation_success text) d (fun r d' =>
    r = Raise TypeError /\
    compilation_text (submission d') = compilation_text (submission d) /\
    compilation_outcome (submission d')
      = Some (if compilation_success then str "ok" else str "fail")).
Proof.
  intros Hu. apply after_finish_compilation_undecodable; [exact Hu|].
  cbn [with_submission submission set_compilation_outcome compilation_text
       compilation_outcome].
  rewrite submission_deleted. repeat split.
Qed.

(** The single byte 0xFF. *)
Lemma finish_compilation_undecodable_witness :
  after (finish_compilation (Example.world_of (inr [])) true false ["255"])
    Example.fresh_driver
    (fun r d' =>
       r = Raise TypeError /\
       compilation_text (submission d')
         = compilation_text (submission Example.fresh_driver) /\
       compilation_outcome (submission d') = Some (str "fail")).
Proof.
  apply (finish_compilation_undecodable (Example.world_of (inr [])) false
           ["255"] Example.fresh_driver).
  reflexivity.
Defined.

(** The compiler fails and writes the byte 0xFF on its standard error:
    [compile] raises TypeError. *)
Lemma compile_undecodable_text :
  let run := Example.compiler_wrote ["255"] (Example.compiler_run EXIT_OK 1) in
  let w := Example.world_of (inl run) in
  fst (compile w Example.fresh_driver) = Raise TypeError /\
  compilation_text (submission (snd (compile w Example.fresh_driver))) = None.
Proof. vm_compute. split; reflexivity. Qed.

(** ** What the manager printed cannot be parsed *)

(** C8, as the code has it.  Take a run of [execute_single] that reaches the
    manager branch and runs the manager.  When its two files are opened and
    the first [readline] of one of them raises UnicodeDecodeError, or the
    first line of its standard output is not a number, the run returns False
    and leaves the outcome and the text of [evaluations[i]], and all the
    evaluations, as they were.  When one of the two files cannot be opened,
    the run ends with IOError, the submission being as it was. *)
Theorem unparseable_manager_output (w : World) (i : nat) (d : Driver)
    (run : SandboxRun) :
  (forall stdout_file stderr_file,
     manager_reports w i d run stdout_file stderr_file ->
     unparseable w stdout_file stderr_file ->
     after (execute_single w i) d (fun r d' =>
       r = Return false /\
       outcome_at i d' = outcome_at i d /\
       text_at i d' = text_at i d /\
       evaluations (submission d') = evaluations (submission d))) /\
  (manager_ran w i d run ->
   run_codecs_open run (os_path_join (run_path run) (str "manager_stdout.txt"))
     = None \/
   run_codecs_open run (os_path_join (run_path run) (str "manager_stderr.txt"))
     = None ->
   after (execute_single w i) d (fun r d' =>
     r = Raise IOError /\ submission d' = submission d)).
Proof.
  split.
  - intros stdout_file stderr_file Hrun Hbad.
    pose proof (execute_single_unparseable_run w i d _ _ _ Hrun Hbad) as H.
    unfold after in *. destruct H as [Hr Hs].
    unfold outcome_at, text_at. rewrite Hs. repeat split. exact Hr.
  - apply execute_single_unopenable_run.
Qed.

(** The manager prints "abc"; and the same, when the file of its standard
    error cannot be opened. *)
Lemma unparseable_manager_output_witness :
  after (execute_single
           (Example.world_of (inl (Example.judged_run 0 (str "abc")))) 0)
    (Example.compiled Example.checker [Example.empty_evaluation 0])
    (fun r d' =>
       r = Return false /\
       outcome_at 0 d'
         = outcome_at 0
             (Example.compiled Example.checker [Example.empty_evaluation 0]) /\
       text_at 0 d'
         = text_at 0
             (Example.compiled Example.checker [Example.empty_evaluation 0]) /\
       evaluations (submission d')
         = evaluations
             (submission
                (Example.compiled Example.checker
                   [Example.empty_evaluation 0]))) /\
  after (execute_single
           (Example.world_of
              (inl (Example.unopenable (str "/tmp/box/manager_stderr.txt")
                      (Example.judged_run 0 (str "abc")))))
           0)
    (Example.compiled Example.checker [Example.empty_evaluation 0])
    (fun r d' =>
       r = Raise IOError /\
       submission d'
         = submission
             (Example.compiled Example.checker [Example.empty_evaluation 0])).
Proof.
  split.
  - apply (unparseable_manager_output
             (Example.world_of (inl (Example.judged_run 0 (str "abc")))) 0
             (Example.compiled Example.checker [Example.empty_evaluation 0])
             (Example.judged_run 0 (str "abc")))
      with (stdout_file := Line (u_of_str (str "abc")))
           (stderr_file := Line (u_of_str (str "fine" ++ [nl]))).
    + exists {| tc_input := str "1npu7"; tc_output := str "0u7pu7" |},
        (str "checker"), (str "ch3ck3r").
      split; [exists (str "sum"), (str "d1g357")|]; repeat split; reflexivity.
    + vm_compute. reflexivity.
  - apply (unparseable_manager_output
             (Example.world_of
                (inl (Example.unopenable (str "/tmp/box/manager_stderr.txt")
                        (Example.judged_run 0 (str "abc")))))
             0
             (Example.compiled Example.checker [Example.empty_evaluation 0])
             (Example.unopenable (str "/tmp/box/manager_stderr.txt")
                (Example.judged_run 0 (str "abc")))).
    + exists {| tc_input := str "1npu7"; tc_output := str "0u7pu7" |},
        (str "checker"), (str "ch3ck3r").
      split; [exists (str "sum"), (str "d1g357")|]; repeat split; reflexivity.
    + right. reflexivity.
Defined.

(** C8, as the spec has it, fails: the run reaches the manager branch, the
    first line of the manager's standard output, "abc", is not a number,
    the file of its standard error cannot be opened; [execute_single] does
    not return False, it ends with IOError. *)
Lemma unparseable_output_unopenable_stderr :
  let run := Example.unopenable (str "/tmp/box/manager_stderr.txt")
               (Example.judged_run 0 (str "abc")) in
  let w := Example.world_of (inl run) in
  let d := Example.compiled Example.checker [Example.empty_evaluation 0] in
  run_codecs_open run (str "/tmp/box/manager_stdout.txt")
    = Some (Line (u_of_str (str "abc"))) /\
  float_of_text w (unicode_strip w (u_of_str (str "abc"))) = None /\
  executions 0 (trace (snd (execute_single w 0 d))) = 2 /\
  fst (execute_single w 0 d) = Raise IOError /\
  fst (execute_single w 0 d) <> Return false.
Proof. vm_compute. repeat split. discriminate. Qed.

(** ** The exit code of the candidate program *)

(** C9.  Two runs of [execute_single] in worlds that differ only by the exit
    code the sandbox reports end with the same result, the same submission
    (so the same outcome and the same text at [evaluations[i]]), the same
    session and the same events: whatever the exit status, and so when it is
    OK, the exit code has no part in the verdict. *)
Theorem verdict_ignores_exit_code (w : World) (i : nat) (d : Driver)
    (code code' : Z) :
  observable (execute_single (with_exit_code code w) i d)
  = observable (execute_single (with_exit_code code' w) i d) /\
  outcome_at i (snd (execute_single (with_exit_code code w) i d))
  = outcome_at i (snd (execute_single (with_exit_code code' w) i d)) /\
  text_at i (snd (execute_single (with_exit_code code w) i d))
  = text_at i (snd (execute_single (with_exit_code code' w) i d)).
Proof.
  pose proof (observable_same_verdict w i d code code') as H.
  split; [exact H|].
  unfold observable in H. injection H as _ Hs _ _.
  unfold outcome_at, text_at. rewrite Hs. split; reflexivity.
Qed.

(** ** Termination of the comparison *)

(** C10.  At the end of a file [readline] returns the empty string and the
    file stays at its end; the loop of [white_diff] reaches a [return]
    within [white_diff_fuel output res] iterations, and [white_diff] is the
    value it returns, whatever larger number of iterations is allowed. *)
Theorem white_diff_returns (output res : pystr) :
  readline [] = ([], []) /\
  exists b : bool,
    (forall fuel, white_diff_fuel output res <= fuel ->
                  white_diff_loop fuel output res = Some b) /\
    white_diff output res = b.
Proof.
  split; [reflexivity|].
  destruct (white_diff_loop_returns_aux
              (List.length output + List.length res) output res (le_n _))
    as [b Hb].
  exists b. split.
  - intros fuel Hfuel. apply Hb. unfold white_diff_fuel in Hfuel. lia.
  - unfold white_diff. rewrite Hb; [reflexivity|unfold white_diff_fuel; lia].
Qed.

(** * Further properties *)

(** ** The canonical form of a line *)

(** X1.  The canonical form of a string is its words separated by single
    spaces, the words of a string being its maximal runs of characters other
    than space, tab and newline, in their order ([words_of], which
    determines them). *)
Theorem canonical_form_words (s : pystr) :
  exists ws : list pystr,
    words_of s ws /\
    (forall ws', words_of s ws' -> ws' = ws) /\
    white_diff_canonicalize s = join [space] ws.
Proof.
  exists (tokens s). split; [apply words_of_tokens|]. split.
  - intros ws'. apply words_of_unique.
  - reflexivity.
Qed.

(** X2.  [white_diff_canonicalize] is idempotent: a canonical form is its
    own canonical form. *)
Theorem white_diff_canonicalize_idempotent (s : pystr) :
  white_diff_canonicalize (white_diff_canonicalize s)
  = white_diff_canonicalize s.
Proof. apply canonicalize_idempotent. Qed.

Lemma join_nil_words (ws : list pystr) :
  Forall is_word ws -> join [space] ws = [] -> ws = [].
Proof.
  intros H. destruct H as [|t ts [Hne _] _]; [reflexivity|].
  destruct t as [|c t]; [contradiction|].
  destruct ts; discriminate.
Qed.

(** X3.  The canonical form is the empty string exactly for the strings made
    of spaces, tabs and newlines only, the empty string among them. *)
Theorem white_diff_canonicalize_empty (s : pystr) :
  white_diff_canonicalize s = [] <-> is_blank s.
Proof.
  rewrite canonicalize_tokens. split.
  - intros H. apply (join_nil_words _ (tokens_words s)) in H.
    exact (tokens_nil_all_white s H).
  - intros H. now rewrite (tokens_blank s H).
Qed.

(** X4.  What the docstring of [white_diff_canonicalize] says, for lines:
    two strings without newline have the same canonical form if and only if
    [white_diff] judges them equivalent. *)
Theorem canonical_forms_agree_iff_white_diff (a b : pystr) :
  ~ In nl a -> ~ In nl b ->
  (white_diff_canonicalize a = white_diff_canonicalize b <->
   white_diff a b = true).
Proof.
  intros Ha Hb.
  rewrite canonicalize_eq_tokens, white_diff_iff_normal_form,
    (normal_form_last_line a Ha), (normal_form_last_line b Hb).
  split; [now intros ->|].
  intros H. now apply cons_unless_blank_inj in H.
Qed.

Lemma canonical_forms_agree_iff_white_diff_witness :
  white_diff_canonicalize (str " a  b") = white_diff_canonicalize (str "a b ")
  <-> white_diff (str " a  b") (str "a b ") = true.
Proof.
  apply canonical_forms_agree_iff_white_diff.
  - vm_compute. intuition discriminate.
  - vm_compute. intuition discriminate.
Defined.

(** ** The comparison *)

(** X5.  What the docstring of [white_diff] says: two files compare equal
    if and only if they have the same words on each line, once the blank
    lines at the end are dropped. *)
Theorem white_diff_iff_same_words (output res : pystr) :
  white_diff output res = true <->
  drop_trailing_blank (map tokens (split [nl] output))
  = drop_trailing_blank (map tokens (split [nl] res)).
Proof. apply white_diff_iff_normal_form. Qed.

(** X6.  [white_diff] is an equivalence: reflexive, symmetric and
    transitive. *)
Theorem white_diff_equivalence :
  (forall a, white_diff a a = true) /\
  (forall a b, white_diff a b = white_diff b a) /\
  (forall a b c, white_diff a b = true -> white_diff b c = true ->
                 white_diff a c = true).
Proof.
  split; [|split].
  - intros a. now apply white_diff_iff_normal_form.
  - intros a b.
    destruct (white_diff a b) eqn:Eab, (white_diff b a) eqn:Eba;
      try reflexivity.
    + apply white_diff_iff_normal_form in Eab. symmetry in Eab.
      apply white_diff_iff_normal_form in Eab. congruence.
    + apply white_diff_iff_normal_form in Eba. symmetry in Eba.
      apply white_diff_iff_normal_form in Eba. congruence.
  - intros a b c Hab Hbc. apply white_diff_iff_normal_form.
    apply white_diff_iff_normal_form in Hab, Hbc. congruence.
Qed.

(** X7.  A file compares equal to the empty file exactly when it holds
    spaces, tabs and newlines only. *)
Theorem white_diff_empty_file (output : pystr) :
  white_diff output [] = true <-> is_blank output.
Proof.
  rewrite white_diff_iff_normal_form, normal_form_nil.
  apply normal_form_blank.
Qed.

(** ** The end of one execution *)

(** X8.  [finish_single_execution] called with success and a test number
    below the number of evaluations returns True and stores the outcome and
    the text at that evaluation; the number of evaluations, the other
    evaluations and the number of that one stay. *)
Theorem finish_single_execution_stores (w : World) (i : nat) (o : pyfloat)
    (t : pytext) (d : Driver) :
  i < List.length (evaluations (submission d)) ->
  after (finish_single_execution w i true o t) d (fun r d' =>
    r = Return true /\
    outcome_at i d' = Some o /\
    text_at i d' = Some t /\
    map ev_num (evaluations (submission d'))
      = map ev_num (evaluations (submission d)) /\
    forall j, j <> i ->
      nth_error (evaluations (submission d')) j
      = nth_error (evaluations (submission d)) j).
Proof.
  intros Hi. apply after_finish_single_execution_true.
  - intros l l' H1 H2.
    cbn [with_submission submission set_evaluations evaluations].
    destruct (judged_at i o t _ _ _ H1 H2) as (e & He & He' & Hlen & Hother).
    unfold outcome_at, text_at.
    cbn [with_submission submission set_evaluations evaluations].
    rewrite He'. repeat split.
    + rewrite (update_nth_map (set_outcome o) ev_num _ (fun _ => eq_refl) _ _ H2).
      apply (update_nth_map (set_text t) ev_num _ (fun _ => eq_refl) _ _ H1).
    + exact Hother.
  - intros Hnone. exfalso. exact (update_nth_some _ _ _ Hi Hnone).
Qed.

Lemma finish_single_execution_stores_witness :
  after (finish_single_execution (Example.world_of (inr [])) 0 true (Finite 1)
           (PStr (str "Output file is correct")))
    (Example.compiled [] [Example.empty_evaluation 0])
    (fun r d' =>
       r = Return true /\
       outcome_at 0 d' = Some (Finite 1) /\
       text_at 0 d' = Some (PStr (str "Output file is correct")) /\
       map ev_num (evaluations (submission d'))
         = map ev_num
             (evaluations
                (submission (Example.compiled [] [Example.empty_evaluation 0]))) /\
       forall j, j <> 0 ->
         nth_error (evaluations (submission d')) j
         = nth_error
             (evaluations
                (submission (Example.compiled [] [Example.empty_evaluation 0])))
             j).
Proof.
  apply (finish_single_execution_stores (Example.world_of (inr [])) 0
           (Finite 1) (PStr (str "Output file is correct"))
           (Example.compiled [] [Example.empty_evaluation 0])).
  vm_compute. lia.
Defined.

(** X9.  [finish_single_execution] called without success returns False;
    called with success and a test number that is not below the number of
    evaluations, it raises IndexError.  Either way the submission and the
    session are left as they were. *)
Theorem finish_single_execution_untouched (w : World) (i : nat)
    (success : bool) (o : pyfloat) (t : pytext) (d : Driver) :
  success = false \/ List.length (evaluations (submission d)) <= i ->
  after (finish_single_execution w i success o t) d (fun r d' =>
    r = (if success then Raise IndexError else Return false) /\
    submission d' = submission d /\
    session d' = session d).
Proof.
  intros Hcase. apply after_finish_single_execution.
  - intros ->. rewrite submission_deleted, session_deleted. repeat split.
  - intros -> l l' H1 _. exfalso.
    destruct Hcase as [Hcase|Hcase]; [discriminate Hcase|].
    rewrite (update_nth_none _ _ _ Hcase) in H1. discriminate H1.
  - intros -> _. rewrite submission_deleted, session_deleted. repeat split.
Qed.

Lemma finish_single_execution_untouched_witness :
  after (finish_single_execution (Example.world_of (inr [])) 3 true (Finite 1)
           (PStr []))
    (Example.compiled [] [Example.empty_evaluation 0])
    (fun r d' =>
       r = Raise IndexError /\
       submission d'
         = submission (Example.compiled [] [Example.empty_evaluation 0]) /\
       session d' = session (Example.compiled [] [Example.empty_evaluation 0])).
Proof.
  apply (finish_single_execution_untouched (Example.world_of (inr [])) 3 true
           (Finite 1) (PStr [])
           (Example.compiled [] [Example.empty_evaluation 0])).
  right. vm_compute. lia.
Defined.

(** ** Deleting the sandbox *)

(** X10.  [safe_delete_sandbox] never raises, even when [delete] does, and
    changes neither the submission, nor the session, nor [self.sandbox].
    It does nothing when the keep-sandbox flag is set or when no sandbox was
    created; otherwise it calls [delete] once on the sandbox. *)
Theorem safe_delete_sandbox_effect (w : World) (d : Driver) :
  after (safe_delete_sandbox w) d (fun r d' =>
    r = Return tt /\
    submission d' = submission d /\
    session d' = session d /\
    sandbox d' = sandbox d /\
    existsb io_error (new_events d d') = false /\
    (keep_sandbox w = true \/ sandbox d = None -> trace d' = trace d) /\
    (forall s, keep_sandbox w = false -> sandbox d = Some s ->
               deletions (sb_id s) (new_events d d') = 1)).
Proof.
  unfold after. rewrite safe_delete_sandbox_eq. cbn [fst snd].
  rewrite submission_deleted, session_deleted, sandbox_deleted.
  rewrite (new_events_app d (deleted w d) _ (trace_deleted w d)).
  rewrite trace_deleted.
  repeat split.
  - apply delete_events_quiet.
  - intros [Hkeep|Hnone]; unfold delete_events.
    + rewrite Hkeep. destruct (sandbox d); apply app_nil_r.
    + rewrite Hnone. apply app_nil_r.
  - intros s Hkeep Hs. unfold deletions.
    rewrite deletions_delete_events, Hs, Hkeep, Nat.eqb_refl. reflexivity.
Qed.

(** ** [execute] *)

(** X11.  When the submission does not have exactly one executable,
    [execute] returns False: it creates no sandbox and no evaluation, and
    stages nothing. *)
Theorem execute_without_one_executable (w : World) (d : Driver) :
  List.length (executables (submission d)) <> 1 ->
  after (execute w) d (fun r d' =>
    r = Return false /\
    submission d' = submission d /\
    session d' = session d /\
    executable_filename d' = executable_filename d /\
    constructed d' = constructed d).
Proof.
  intros Hn. unfold after, execute, bind, get. cbn [fst snd].
  destruct (Nat.eqb_spec (List.length (executables (submission d))) 1)
    as [E|_]; [contradiction|].
  cbn [negb]. unfold log_str, log, emit, modify, finish_evaluation, ret.
  cbn. repeat split.
Qed.

Lemma execute_without_one_executable_witness :
  after (execute (Example.world_of (inr []))) Example.fresh_driver
    (fun r d' =>
       r = Return false /\
       submission d' = submission Example.fresh_driver /\
       session d' = session Example.fresh_driver /\
       executable_filename d' = executable_filename Example.fresh_driver /\
       constructed d' = constructed Example.fresh_driver).
Proof.
  apply (execute_without_one_executable (Example.world_of (inr []))
           Example.fresh_driver).
  vm_compute. discriminate.
Defined.

(** X12.  When the submission has exactly one executable, whatever the way
    a run of [execute] ends, the evaluations of the submission are numbered
    as before the run, followed by one evaluation for each test number from
    the number of evaluations to the number of test cases: [execute] adds
    the missing evaluations and renumbers none. *)
Theorem execute_numbers_evaluations (w : World) (d : Driver) :
  List.length (executables (submission d)) = 1 ->
  after (execute w) d (fun _ d' =>
    map ev_num (evaluations (submission d'))
    = map ev_num (evaluations (submission d))
        ++ xrange (List.length (evaluations (submission d)))
                  (List.length (testcases (task (submission d))))).
Proof.
  intros H1. unfold after, execute, bind, get. cbn [fst snd].
  rewrite H1. cbn [Nat.eqb negb].
  destruct (executables (submission d)) as [|[k v] [|]] eqn:E;
    try discriminate H1.
  cbn [dict_keys map hd_error of_option ret fst snd]. unfold modify.
  set (d1 := with_executable_filename k d).
  pose proof (add_evaluations_adds
                (xrange (List.length (evaluations (submission d)))
                        (List.length (testcases (task (submission d)))))
                d1) as (He & _).
  destruct (add_evaluations _ d1) as [[[]|e] d2] eqn:Ea.
  - cbn [fst snd] in *.
    destruct (execute_testcases_keeps w
                (xrange 0 (List.length (testcases (task (submission d))))) d2)
      as (Hnum & _).
    rewrite Hnum, He, map_app, map_map. cbn [ev_num]. now rewrite map_id.
  - cbn [fst snd] in *. rewrite He, map_app, map_map. cbn [ev_num].
    now rewrite map_id.
Qed.

Lemma execute_numbers_evaluations_witness :
  after (execute (Example.world_of (inl (Example.judged_run 0 []))))
    (Example.compiled [] [])
    (fun _ d' =>
       map ev_num (evaluations (submission d'))
       = map ev_num (evaluations (submission (Example.compiled [] [])))
           ++ xrange
                (List.length
                   (evaluations (submission (Example.compiled [] []))))
                (List.length
                   (testcases (task (submission (Example.compiled [] [])))))).
Proof.
  apply (execute_numbers_evaluations
           (Example.world_of (inl (Example.judged_run 0 [])))
           (Example.compiled [] [])).
  reflexivity.
Defined.

(** X13.  A run of [execute] attempts the construction of a sandbox at most
    once for each test case, and exactly once for each when it returns
    True. *)
Theorem execute_sandboxes (w : World) (d : Driver) :
  after (execute w) d (fun r d' =>
    constructed d'
      <= constructed d + List.length (testcases (task (submission d))) /\
    (r = Return true ->
     constructed d'
       = constructed d + List.length (testcases (task (submission d))))).
Proof.
  unfold after, execute, bind, get. cbn [fst snd].
  destruct (negb (Nat.eqb (List.length (executables (submission d))) 1)).
  - unfold log_str, log, emit, modify, finish_evaluation, ret. cbn.
    split; [lia|discriminate].
  - unfold of_option.
    destruct (hd_error (dict_keys (executables (submission d)))) as [k|].
    + unfold ret, modify. cbn [fst snd].
      set (d1 := with_executable_filename k d).
      pose proof (add_evaluations_adds
                    (xrange (List.length (evaluations (submission d)))
                            (List.length (testcases (task (submission d)))))
                    d1) as (_ & _ & Hc & _).
      destruct (add_evaluations _ d1) as [[[]|e] d2].
      * cbn [fst snd] in *.
        destruct (execute_testcases_keeps w
                    (xrange 0 (List.length (testcases (task (submission d)))))
                    d2) as (_ & Hle & Heq).
        unfold xrange in *. rewrite length_seq, Nat.sub_0_r, Hc in *.
        change (constructed d1) with (constructed d) in *.
        split; [exact Hle|exact Heq].
      * cbn [fst snd] in *. rewrite Hc.
        change (constructed d1) with (constructed d).
        split; [lia|discriminate].
    + cbn. split; [lia|discriminate].
Qed.

(** ** One test case *)

(** X14.  A run of [execute_single] on test number [i], whatever the way it
    ends, leaves the task, the executables, the session, the numbers of the
    evaluations and every evaluation other than the [i]-th as they were, and
    attempts the construction of exactly one sandbox. *)
Theorem execute_single_touches_one_evaluation (w : World) (i : nat)
    (d : Driver) :
  after (execute_single w i) d (fun _ d' =>
    task (submission d') = task (submission d) /\
    executables (submission d') = executables (submission d) /\
    session d' = session d /\
    constructed d' = S (constructed d) /\
    map ev_num (evaluations (submission d'))
      = map ev_num (evaluations (submission d)) /\
    forall j, j <> i ->
      nth_error (evaluations (submission d')) j
      = nth_error (evaluations (submission d)) j).
Proof.
  pose proof (execute_single_state w i d) as Hstate.
  pose proof (execute_single_frame w i d) as Hframe.
  pose proof (execute_single_constructed w i d) as Hcons.
  unfold after in *. cbn zeta in Hframe.
  destruct Hstate as (Htask & Hexe & _ & Hsess & _).
  destruct Hframe as (Hnum & Hother).
  repeat split; assumption.
Qed.

(** X15.  Take a run of [execute_single] on a test number below the number
    of evaluations, that gets the report of the sandbox on the candidate
    program (sandbox created, executable and input staged, program spawned,
    without I/O error).  When the sandbox stopped the program (time limit,
    signal, forbidden system call or file access), or when the program ended
    with status OK without leaving output.txt, the run returns True and
    stores the outcome 0.0 with the text that names the reason. *)
Theorem stopped_program_scores_zero (w : World) (i : nat) (d : Driver)
    (run : SandboxRun) (testcase : Testcase) (t : pystr) :
  candidate_reports w i d run testcase ->
  stopped_text run = Some t ->
  i < List.length (evaluations (submission d)) ->
  after (execute_single w i) d (fun r d' =>
    r = Return true /\
    outcome_at i d' = Some (Finite 0) /\
    text_at i d' = Some (PStr t)).
Proof. apply stopped_run. Qed.

Lemma stopped_program_scores_zero_witness :
  after (execute_single (Example.world_of (inl Example.timed_out_run)) 0)
    (Example.compiled [] [Example.empty_evaluation 0])
    (fun r d' =>
       r = Return true /\
       outcome_at 0 d' = Some (Finite 0) /\
       text_at 0 d' = Some (PStr (str "Execution timed out" ++ [nl]))).
Proof.
  apply (stopped_program_scores_zero
           (Example.world_of (inl Example.timed_out_run)) 0
           (Example.compiled [] [Example.empty_evaluation 0])
           Example.timed_out_run
           {| tc_input := str "1npu7"; tc_output := str "0u7pu7" |}).
  - exists (str "sum"), (str "d1g357"). repeat split; reflexivity.
  - reflexivity.
  - vm_compute. lia.
Defined.

(** X16.  Take a run of [execute_single], for a task without manager, on a
    test number below the number of evaluations, that gets the report of the
    sandbox on the candidate program (sandbox created, executable and input
    staged, program spawned, without I/O error).  When the program ended
    with status OK and left output.txt, the expected output is staged and
    both files are read without I/O error, the run returns True and stores
    the verdict of [white_diff] on the two files: 1.0 when it judges them
    equivalent, 0.0 otherwise. *)
Theorem comparator_verdict (w : World) (i : nat) (d : Driver)
    (run : SandboxRun) (testcase : Testcase) (out_file res_file : pystr) :
  candidate_reports w i d run testcase ->
  run_exit_status run = EXIT_OK ->
  run_file_exists run (str "output.txt") = true ->
  run_create_file_from_storage run (str "res.txt") (tc_output testcase) false
    = true ->
  managers (task (submission d)) = [] ->
  run_get_file run (str "output.txt") = Some out_file ->
  run_get_file run (str "res.txt") = Some res_file ->
  i < List.length (evaluations (submission d)) ->
  after (execute_single w i) d (fun r d' =>
    r = Return true /\
    outcome_at i d'
      = Some (if white_diff out_file res_file then Finite 1 else Finite 0) /\
    text_at i d'
      = Some (PStr (if white_diff out_file res_file
                    then str "Output file is correct"
                    else str "Output file isn't correct"))).
Proof. apply compared_run. Qed.

Lemma comparator_verdict_witness :
  after (execute_single
           (Example.world_of (inl (Example.judged_run 3 []))) 0)
    (Example.compiled [] [Example.empty_evaluation 0])
    (fun r d' =>
       r = Return true /\
       outcome_at 0 d'
         = Some (if white_diff Example.answer Example.answer
                 then Finite 1 else Finite 0) /\
       text_at 0 d'
         = Some (PStr (if white_diff Example.answer Example.answer
                       then str "Output file is correct"
                       else str "Output file isn't correct"))).
Proof.
  apply (comparator_verdict
           (Example.world_of (inl (Example.judged_run 3 []))) 0
           (Example.compiled [] [Example.empty_evaluation 0])
           (Example.judged_run 3 [])
           {| tc_input := str "1npu7"; tc_output := str "0u7pu7" |}).
  - exists (str "sum"), (str "d1g357"). repeat split; reflexivity.
  - reflexivity.
  - reflexivity.
  - reflexivity.
  - reflexivity.
  - reflexivity.
  - reflexivity.
  - vm_compute. lia.
Defined.

(** X17.  Take a run of [execute_single] on a test number below the number
    of evaluations, that reaches the manager branch, runs the manager and
    opens its two files.  When the first [readline] of each of them decodes
    and the first line of its standard output, stripped, is a number for
    [float()], the run returns True and stores that number as the outcome
    and the first line of its standard error, filtered by
    [filter_ansi_escape], as the text. *)
Theorem manager_verdict (w : World) (i : nat) (d : Driver)
    (run : SandboxRun) (stdout_line stderr_line : ustr) (o : pyfloat) :
  manager_reports w i d run (Line stdout_line) (Line stderr_line) ->
  float_of_text w (unicode_strip w stdout_line) = Some o ->
  i < List.length (evaluations (submission d)) ->
  after (execute_single w i) d (fun r d' =>
    r = Return true /\
    outcome_at i d' = Some o /\
    text_at i d' = Some (PUni (filter_ansi_escape w stderr_line))).
Proof. apply managed_run. Qed.

Lemma manager_verdict_witness :
  after (execute_single
           (Example.world_of
              (inl (Example.judged_run 0 (str "0.5" ++ [nl])))) 0)
    (Example.compiled Example.checker [Example.empty_evaluation 0])
    (fun r d' =>
       r = Return true /\
       outcome_at 0 d' = Some (Finite (1 # 2)) /\
       text_at 0 d'
         = Some (PUni (Example.strip_csi false
                         (u_of_str (str "fine" ++ [nl]))))).
Proof.
  apply (manager_verdict
           (Example.world_of (inl (Example.judged_run 0 (str "0.5" ++ [nl]))))
           0
           (Example.compiled Example.checker [Example.empty_evaluation 0])
           (Example.judged_run 0 (str "0.5" ++ [nl]))
           (u_of_str (str "0.5" ++ [nl]))
           (u_of_str (str "fine" ++ [nl]))).
  - exists {| tc_input := str "1npu7"; tc_output := str "0u7pu7" |},
      (str "checker"), (str "ch3ck3r").
    split; [exists (str "sum"), (str "d1g357")|]; repeat split; reflexivity.
  - vm_compute. reflexivity.
  - vm_compute. lia.
Defined.

(** ** [compile] *)

(** X18.  When [verify_source] does not accept the submission or finds no
    language, or when the submission does not have exactly one file,
    [compile] constructs no sandbox and stages nothing: it sets the
    compilation outcome to "fail" and the text to "Invalid files in
    submission", and returns True. *)
Theorem compile_invalid_submission (w : World) (d : Driver) :
  fst (verify_source w) = false \/ snd (verify_source w) = None \/
  List.length (files (submission d)) <> 1 ->
  after (compile w) d (fun r d' =>
    r = Return true /\
    compilation_outcome (submission d') = Some (str "fail") /\
    compilation_text (submission d')
      = Some (u_of_str (str "Invalid files in submission")) /\
    executables (submission d') = executables (submission d) /\
    session d' = session d /\
    constructed d' = constructed d).
Proof. apply compile_refused_run. Qed.

Lemma compile_invalid_submission_witness :
  after (compile (Example.rejecting (Example.world_of (inr []))))
    Example.fresh_driver
    (fun r d' =>
       r = Return true /\
       compilation_outcome (submission d') = Some (str "fail") /\
       compilation_text (submission d')
         = Some (u_of_str (str "Invalid files in submission")) /\
       executables (submission d')
         = executables (submission Example.fresh_driver) /\
       session d' = session Example.fresh_driver /\
       constructed d' = constructed Example.fresh_driver).
Proof.
  apply (compile_invalid_submission
           (Example.rejecting (Example.world_of (inr [])))
           Example.fresh_driver).
  left. reflexivity.
Defined.



(** X20.  Take a run of [compile] that gets the report of the compiler:
    valid single-file submission, sandbox created, source staged, compiler
    spawned and both its outputs read, without I/O error.  When the exit
    status is other than OK, TIMEOUT and SIGNAL (sandbox error, forbidden
    system call, forbidden file access, or a status that is not listed),
    the run returns False and leaves the submission and the session as they
    were. *)
Theorem compile_environment_failure (w : World) (d : Driver)
    (language source_filename : pystr) (run : SandboxRun)
    (stdout stderr : pystr) :
  compile_reports w d language source_filename run stdout stderr ->
  run_exit_status run <> EXIT_OK ->
  run_exit_status run <> EXIT_TIMEOUT ->
  run_exit_status run <> EXIT_SIGNAL ->
  after (compile w) d (fun r d' =>
    r = Return false /\ submission d' = submission d /\ session d' = session d).
Proof. apply compile_environment_failure_run. Qed.

Lemma compile_environment_failure_witness :
  after (compile
           (Example.world_of (inl (Example.compiler_run EXIT_SYSCALL 0))))
    Example.fresh_driver
    (fun r d' =>
       r = Return false /\
       submission d' = submission Example.fresh_driver /\
       session d' = session Example.fresh_driver).
Proof.
  apply (compile_environment_failure
           (Example.world_of (inl (Example.compiler_run EXIT_SYSCALL 0)))
           Example.fresh_driver (str "c") (str "sum.c")
           (Example.compiler_run EXIT_SYSCALL 0) [] []).
  - exists (str "50urc3"). repeat split; reflexivity.
  - discriminate.
  - discriminate.
  - discriminate.
Defined.

(** X21.  Whatever the way a run of [compile] ends, the task, the files and
    the evaluations of the submission are as before.  When it returns
    False, the whole submission and the session are as before.  When it
    returns True, the compilation text is set, and either the outcome is
    "ok" and exactly one Executable of this submission was staged, or the
    outcome is "fail" and neither the session nor the executables
    changed. *)
Theorem compile_changes (w : World) (d : Driver) :
  after (compile w) d (fun r d' =>
    task (submission d') = task (submission d) /\
    files (submission d') = files (submission d) /\
    evaluations (submission d') = evaluations (submission d) /\
    (r = Return false ->
     submission d' = submission d /\ session d' = session d) /\
    (r = Return true ->
     compilation_text (submission d') <> None /\
     ((compilation_outcome (submission d') = Some (str "ok") /\
       exists e, session d' = session d ++ [StagedExecutable e] /\
                 ex_submission e = sub_id (submission d)) \/
      (compilation_outcome (submission d') = Some (str "fail") /\
       session d' = session d /\
       executables (submission d') = executables (submission d))))).
Proof. apply compile_state. Qed.

(** ** Release of the sandboxes *)

(** X22.  With the keep-sandbox flag set, a run of [compile] or of
    [execute_single] never calls [delete] on a sandbox. *)
Theorem kept_sandboxes_are_not_deleted (w : World) (d : Driver) :
  keep_sandbox w = true ->
  after (compile w) d (fun _ d' =>
    forall id, deletions id (new_events d d') = 0) /\
  forall i,
    after (execute_single w i) d (fun _ d' =>
      forall id, deletions id (new_events d d') = 0).
Proof.
  intros Hkeep. split.
  - pose proof (compile_release w d) as H. unfold after in *.
    exact (proj1 (proj2 H) Hkeep).
  - intros i. pose proof (execute_single_release w i d) as H.
    unfold after in *. exact (proj1 (proj2 H) Hkeep).
Qed.

Lemma kept_sandboxes_are_not_deleted_witness :
  let w := Example.keeping
             (Example.world_of (inl (Example.compiler_run EXIT_OK 0))) in
  after (compile w) Example.fresh_driver (fun _ d' =>
    forall id, deletions id (new_events Example.fresh_driver d') = 0) /\
  forall i,
    after (execute_single w i) Example.fresh_driver (fun _ d' =>
      forall id, deletions id (new_events Example.fresh_driver d') = 0).
Proof.
  apply (kept_sandboxes_are_not_deleted
           (Example.keeping
              (Example.world_of (inl (Example.compiler_run EXIT_OK 0))))
           Example.fresh_driver).
  reflexivity.
Defined.

(** X23.  With the keep-sandbox flag unset, a run of [compile] or of
    [execute_single] that constructed its sandbox and ends by returning, or
    by raising JobException, has called [delete] exactly once on that
    sandbox. *)
Theorem created_sandbox_is_deleted_once (w : World) (d : Driver)
    (run : SandboxRun) :
  keep_sandbox w = false ->
  new_sandbox w (constructed d) = inl run ->
  after (compile w) d (fun r d' =>
    constructed d' = S (constructed d) ->
    (exists b, r = Return b) \/ r = Raise JobException ->
    deletions (constructed d) (new_events d d') = 1) /\
  forall i,
    after (execute_single w i) d (fun r d' =>
      (exists b, r = Return b) \/ r = Raise JobException ->
      deletions (constructed d) (new_events d d') = 1).
Proof.
  intros Hkeep Hnew. split.
  - pose proof (compile_release w d) as H. unfold after in *.
    exact (proj2 (proj2 H) Hkeep run Hnew).
  - intros i. pose proof (execute_single_release w i d) as H.
    unfold after in *. destruct H as (Hcons & _ & H).
    exact (H Hkeep run Hnew Hcons).
Qed.

Lemma created_sandbox_is_deleted_once_witness :
  let w := Example.world_of (inl (Example.compiler_run EXIT_OK 0)) in
  after (compile w) Example.fresh_driver (fun r d' =>
    constructed d' = S (constructed Example.fresh_driver) ->
    (exists b, r = Return b) \/ r = Raise JobException ->
    deletions (constructed Example.fresh_driver)
      (new_events Example.fresh_driver d') = 1) /\
  forall i,
    after (execute_single w i) Example.fresh_driver (fun r d' =>
      (exists b, r = Return b) \/ r = Raise JobException ->
      deletions (constructed Example.fresh_driver)
        (new_events Example.fresh_driver d') = 1).
Proof.
  apply (created_sandbox_is_deleted_once
           (Example.world_of (inl (Example.compiler_run EXIT_OK 0)))
           Example.fresh_driver (Example.compiler_run EXIT_OK 0)).
  - reflexivity.
  - reflexivity.
Defined.

(** ** The safe-sandbox helpers *)

Ltac helper_returns :=
  unfold helper_ends; cbn [with_event submission session sandbox];
  repeat split;
  rewrite (new_events_app _ _ [_]) by reflexivity; reflexivity.

Ltac helper_raises :=
  unfold helper_ends;
  rewrite submission_deleted, session_deleted, sandbox_deleted;
  cbn [with_event submission session sandbox];
  repeat split;
  match goal with
  | |- context [new_events ?d (deleted ?w ?x)] =>
      rewrite (new_events_app d (deleted w x)
                 ([_; _] ++ delete_events w (sandbox x)))
        by (rewrite trace_deleted; cbn [with_event trace];
            rewrite <- !app_assoc; reflexivity)
  end;
  reflexivity.

(** X24.  Once a sandbox exists, each of the helpers
    [safe_create_file_from_storage], [safe_get_file_to_storage],
    [safe_get_file_to_string], [safe_get_file] and [safe_sandbox_execute]
    (on a command that is not empty) ends in one of two ways: it returns and
    no operation raised; or the operation raised an I/O error, an error was
    logged and JobException is raised.  None changes the submission, the
    session or [self.sandbox]. *)
Theorem safe_helpers_end (w : World) (d : Driver) (s : Sandbox) :
  sandbox d = Some s ->
  (forall name dg executable,
     after (safe_create_file_from_storage w name dg executable) d
       (helper_ends d)) /\
  (forall name msg,
     after (safe_get_file_to_storage w name msg) d (helper_ends d)) /\
  (forall name, after (safe_get_file_to_string w name) d (helper_ends d)) /\
  (forall name, after (safe_get_file w name) d (helper_ends d)) /\
  (forall command,
     command <> [] ->
     after (safe_sandbox_execute w command) d (helper_ends d)).
Proof.
  intros Hs. split; [|split; [|split; [|split]]].
  - intros name dg executable.
    apply (after_safe_create_file_from_storage w d s Hs); intros _;
      [helper_returns|helper_raises].
  - intros name msg.
    apply (after_safe_get_file_to_storage w d s Hs);
      [intros dg _; helper_returns|intros _; helper_raises].
  - intros name.
    apply (after_safe_get_file_to_string w d s Hs);
      [intros t _; helper_returns|intros _; helper_raises].
  - intros name.
    apply (after_safe_get_file w d s Hs);
      [intros f _; helper_returns|intros _; helper_raises].
  - intros command Hcommand.
    apply (after_safe_sandbox_execute w d s Hs).
    + intros _. helper_returns.
    + intros e c0 _ _. helper_raises.
    + intros e _ Hnone. destruct command; [contradiction|discriminate Hnone].
Qed.

Lemma safe_helpers_end_witness :
  let d := with_sandbox {| sb_id := 0; sb_run := Example.compiler_run EXIT_OK 0 |}
             Example.fresh_driver in
  let w := Example.world_of (inr []) in
  (forall name dg executable,
     after (safe_create_file_from_storage w name dg executable) d
       (helper_ends d)) /\
  (forall name msg,
     after (safe_get_file_to_storage w name msg) d (helper_ends d)) /\
  (forall name, after (safe_get_file_to_string w name) d (helper_ends d)) /\
  (forall name, after (safe_get_file w name) d (helper_ends d)) /\
  (forall command,
     command <> [] ->
     after (safe_sandbox_execute w command) d (helper_ends d)).
Proof.
  apply (safe_helpers_end (Example.world_of (inr []))
           (with_sandbox
              {| sb_id := 0; sb_run := Example.compiler_run EXIT_OK 0 |}
              Example.fresh_driver)
           {| sb_id := 0; sb_run := Example.compiler_run EXIT_OK 0 |}).
  reflexivity.
Defined.

(** X25.  [safe_create_sandbox] makes one attempt to construct a sandbox.
    When the construction succeeds it returns and the new sandbox is
    [self.sandbox]; when it raises an I/O error, an error is logged,
    [self.sandbox] is what it was and JobException is raised.  The
    submission and the session are kept. *)
Theorem safe_create_sandbox_ends (w : World) (d : Driver) :
  after (safe_create_sandbox w) d (fun r d' =>
    submission d' = submission d /\
    session d' = session d /\
    constructed d' = S (constructed d) /\
    match new_sandbox w (constructed d) with
    | inl run =>
        r = Return tt /\
        sandbox d' = Some {| sb_id := constructed d; sb_run := run |} /\
        new_events d d' = [New (constructed d) false]
    | inr e =>
        r = Raise JobException /\
        sandbox d' = sandbox d /\
        existsb io_error (new_events d d') = true /\
        existsb is_error_log (new_events d d') = true
    end).
Proof.
  apply after_safe_create_sandbox.
  - intros run ->.
    cbn [with_sandbox with_event with_constructed submission session
         constructed sandbox].
    repeat split. apply new_events_app. reflexivity.
  - intros e ->.
    rewrite submission_deleted, session_deleted, constructed_deleted,
      sandbox_deleted.
    cbn [with_event with_constructed submission session constructed sandbox].
    repeat split.
    all: match goal with
         | |- context [new_events ?d (deleted ?w ?x)] =>
             rewrite (new_events_app d (deleted w x)
                        ([_; _] ++ delete_events w (sandbox x)))
               by (rewrite trace_deleted;
                   cbn [with_event with_constructed trace];
                   rewrite <- !app_assoc; reflexivity)
         end.
    all: reflexivity.
Qed.

(** ** The end of a compilation *)

(** X26.  [finish_compilation] called without success returns False and
    leaves the submission as it was.  Called with success and a text that
    decodes as UTF-8, it returns True, sets the compilation outcome to "ok"
    or "fail" as [compilation_success] tells, and the compilation text to
    the decoded text; the rest of the submission and the session are
    kept. *)
Theorem finish_compilation_effect (w : World)
    (success compilation_success : bool) (text : pystr) (u : ustr)
    (d : Driver) :
  Utf8.decode text = Some u ->
  after (finish_compilation w success compilation_success text) d
    (fun r d' =>
       r = Return success /\
       session d' = session d /\
       if success then
         submission d'
         = set_compilation_text u
             (set_compilation_outcome
                (if compilation_success then str "ok" else str "fail")
                (submission d))
       else submission d' = submission d).
Proof.
  intros Hu. destruct success.
  - apply (after_finish_compilation_decoded w compilation_success text u);
      [exact Hu|].
    cbn [with_submission submission session].
    rewrite submission_deleted, session_deleted. repeat split.
  - apply after_finish_compilation_false.
    rewrite submission_deleted, session_deleted. repeat split.
Qed.

Lemma finish_compilation_effect_witness :
  after (finish_compilation (Example.world_of (inr [])) true true (str "OK"))
    Example.fresh_driver
    (fun r d' =>
       r = Return true /\
       session d' = session Example.fresh_driver /\
       submission d'
       = set_compilation_text (u_of_str (str "OK"))
           (set_compilation_outcome (str "ok")
              (submission Example.fresh_driver))).
Proof.
  apply (finish_compilation_effect (Example.world_of (inr [])) true true
           (str "OK") (u_of_str (str "OK")) Example.fresh_driver).
  reflexivity.
Defined.
